(** * WALKOFF: the workflow execution engine, its condition evaluator,
      the results receiver and the executor's pause command

    A shallow embedding of
      - walkoff/executiondb/transform.py, condition.py,
        conditionalexpression.py and workflow.py,
      - walkoff/multiprocessedexecutor/zmq_receivers.py,
      - walkoff/core/multiprocessedexecutor/multiprocessedexecutor.py,
      - walkoff/appgateway/apiutil.py,
    followed by the properties of these functions.

    Conventions.  Python objects are records; a method [C.m] is the
    function [m] of the module [C] and takes [self] explicitly.  Signals
    sent on [WalkoffEvent.CommonWorkflowSignal] are collected in a log.
    Mutable runtime fields of a workflow are threaded as a state record.
    Generators are embedded as resumable state machines: one call of
    [next] runs the body up to the following [yield]. *)

From Stdlib Require Import ZArith String List Bool Lia Sorted Permutation.
From stdpp Require Import base option list gmap strings fin_maps pretty.

Local Open Scope string_scope.
Local Open Scope list_scope.
Set Warnings "-register-all".

(** ** Python values *)

(** The results produced by apps are dynamically typed.  The fragment of
    Python values that the engine inspects (truthiness, equality, copy). *)
Inductive value : Type :=
| VNone
| VBool (b : bool)
| VInt (z : Z)
| VStr (s : string)
| VList (l : list value).

(** [bool(v)]: the truth value Python gives to [v] in [if v], [not v],
    [all] and [any]. *)
Definition truthy (v : value) : bool :=
  match v with
  | VNone => false
  | VBool b => b
  | VInt z => negb (Z.eqb z 0)
  | VStr s => negb (String.eqb s EmptyString)
  | VList l => match l with [] => false | _ :: _ => true end
  end.

(** [copy.deepcopy]: rebuilds the value, container by container. *)
Fixpoint deepcopy (v : value) : value :=
  match v with
  | VNone => VNone
  | VBool b => VBool b
  | VInt z => VInt z
  | VStr s => VStr s
  | VList l => VList (List.map deepcopy l)
  end.

(** Identifiers of execution elements are UUIDs; a UUID is its 128-bit
    integer value. *)
Abbreviation UUID := N (only parsing).

(** The accumulator: a dict from element id to the last value produced. *)
Abbreviation Accumulator := (gmap N value) (only parsing).

(** ** Events *)

(** The members of [WalkoffEvent] that the embedded code sends. *)
Inductive WalkoffEvent : Type :=
| WorkflowExecutionStart
| WorkflowPaused
| WorkflowAborted
| WorkflowShutdown
| ConditionalExpressionTrue
| ConditionalExpressionFalse
| ConditionSuccess
| ConditionError
| TransformSuccess
| TransformError.

Global Instance WalkoffEvent_eq_dec : EqDecision WalkoffEvent.
Proof. solve_decision. Defined.

(** One call [event_signal.send(sender, event=..., data=...)]. *)
Record Signal : Type := mkSignal {
  sig_sender : UUID;
  sig_event : WalkoffEvent;
  sig_data : option (gmap string value)
}.

(** Code that only sends signals is a writer over the signal log. *)
Definition Emit (A : Type) : Type := (A * list Signal)%type.

Definition ret {A : Type} (a : A) : Emit A := (a, []).

Definition bind {A B : Type} (m : Emit A) (k : A -> Emit B) : Emit B :=
  let '(a, l1) := m in
  let '(b, l2) := k a in
  (b, l1 ++ l2).

Definition send (sender : UUID) (event : WalkoffEvent) : Emit unit :=
  (tt, [mkSignal sender event None]).

Notation "x <~ m ;; k" := (bind m (fun x => k))
  (at level 100, m at next level, right associativity).
Notation "m ;;; k" := (bind m (fun _ => k))
  (at level 100, right associativity).

(** ** Arguments and the collaborators of the evaluator *)

Record Argument : Type := mkArgument {
  Argument_name : string;
  Argument_value : option value;
  Argument_reference : option UUID
}.

(** Modelled from the spec: the constructor of [Argument]
    (walkoff/executiondb/argument.py is not among the sources).  An
    argument carries exactly one of a literal value or a reference; this is
    enforced at construction, "never both, never neither".  A [value] of
    [None] is an absent value.  [inl errors] stands for
    [raise InvalidArgument(message, errors)]. *)
Definition Argument_init (name : string) (v : value) (reference : option UUID)
  : list string + Argument :=
  match v, reference with
  | VNone, None => inl ["Argument must have either a value or a reference"]
  | VNone, Some r => inr (mkArgument name None (Some r))
  | _, None => inr (mkArgument name (Some v) None)
  | _, Some _ => inl ["Argument cannot have both a value and a reference"]
  end.

(** A parameter schema ([_api]): the declared parameters of a capability. *)
Record ParameterApi : Type := mkParameterApi {
  param_name : string;
  param_type : string;
  param_required : bool
}.

(** The bound call arguments returned by the validator. *)
Abbreviation Args := (gmap string value) (only parsing).

(** The module [walkoff.appgateway.validator], an external collaborator.
    Each function either returns the bound arguments or raises
    [InvalidArgument] with its list of errors ([inl errors]). *)
Record Validator : Type := mkValidator {
  validate_transform_parameters :
    list ParameterApi -> list Argument -> string -> gmap N value ->
    list string + gmap string value;
  validate_condition_parameters :
    list ParameterApi -> list Argument -> string -> gmap N value ->
    list string + gmap string value
}.

(** ** The elements of a condition tree *)

Record Transform : Type := mkTransform {
  Transform_id : UUID;
  Transform_app_name : string;
  Transform_action_name : string;
  Transform_arguments : list Argument;
  Transform__data_param_name : string;
  Transform__api : list ParameterApi
}.

Record Condition : Type := mkCondition {
  Condition_id : UUID;
  Condition_app_name : string;
  Condition_action_name : string;
  Condition_is_negated : bool;
  Condition_arguments : list Argument;
  Condition_transforms : list Transform;
  Condition__data_param_name : string;
  Condition__api : list ParameterApi
}.

(** [valid_operators = ('and', 'or', 'xor')], the values of the [operator]
    column. *)
Inductive Operator : Type := op_and | op_or | op_xor.

Inductive ConditionalExpression : Type := mkConditionalExpression {
  ConditionalExpression_id : UUID;
  ConditionalExpression_operator : Operator;
  ConditionalExpression_is_negated : bool;
  ConditionalExpression_child_expressions : list ConditionalExpression;
  ConditionalExpression_conditions : list Condition
}.

(** The object handed to [action_execution_strategy.execute]. *)
Inductive Executable : Type :=
| ExTransform (t : Transform)
| ExCondition (c : Condition).

(** [action_execution_strategy]: runs the capability bound to an element
    with validated arguments.  [inl msg] stands for
    [raise ExecutionError]. *)
Record ActionExecutionStrategy : Type := mkStrategy {
  strategy_execute : Executable -> gmap N value -> gmap string value -> string + value
}.

(** ** transform.py *)

Module Transform.
Section WithValidator.
Variable validator : Validator.

Definition __update_arguments_with_data (self : Transform) (data : value)
  : list string + list Argument :=
  let arguments :=
    filter (fun argument => Argument_name argument <> Transform__data_param_name self)
           (Transform_arguments self) in
  match Argument_init (Transform__data_param_name self) data None with
  | inl errors => inl errors
  | inr argument => inr (arguments ++ [argument])
  end.

(** The first [try] block of [execute]: both statements can raise
    [InvalidArgument]. *)
Definition bind_arguments (self : Transform) (data_in : value)
    (accumulator : gmap N value) : list string + gmap string value :=
  match __update_arguments_with_data self data_in with
  | inl errors => inl errors
  | inr arguments =>
      validate_transform_parameters validator (Transform__api self) arguments
        (Transform_action_name self) accumulator
  end.

Definition execute (action_execution_strategy : ActionExecutionStrategy)
    (self : Transform) (data_in : value) (accumulator : gmap N value)
  : Emit value :=
  let original_data_in := deepcopy data_in in
  match bind_arguments self data_in accumulator with
  | inl _ =>
      send (Transform_id self) TransformError ;;;
      ret original_data_in
  | inr args =>
      match strategy_execute action_execution_strategy (ExTransform self)
              accumulator args with
      | inr result =>
          send (Transform_id self) TransformSuccess ;;;
          ret result
      | inl _ =>
          send (Transform_id self) TransformError ;;;
          ret original_data_in
      end
  end.
End WithValidator.
End Transform.

(** ** condition.py *)

Module Condition.
Section WithValidator.
Variable validator : Validator.

Definition __update_arguments_with_data (self : Condition) (data : value)
  : list string + list Argument :=
  let arguments :=
    filter (fun argument => Argument_name argument <> Condition__data_param_name self)
           (Condition_arguments self) in
  match Argument_init (Condition__data_param_name self) data None with
  | inl errors => inl errors
  | inr argument => inr (arguments ++ [argument])
  end.

(** [for transform in self.transforms: data = transform.execute(...)] *)
Fixpoint apply_transforms (action_execution_strategy : ActionExecutionStrategy)
    (transforms : list Transform) (data : value) (accumulator : gmap N value)
  : Emit value :=
  match transforms with
  | [] => ret data
  | transform :: rest =>
      data' <~ Transform.execute validator action_execution_strategy
                 transform data accumulator ;;
      apply_transforms action_execution_strategy rest data' accumulator
  end.

Definition bind_arguments (self : Condition) (data : value)
    (accumulator : gmap N value) : list string + gmap string value :=
  match __update_arguments_with_data self data with
  | inl errors => inl errors
  | inr arguments =>
      validate_condition_parameters validator (Condition__api self) arguments
        (Condition_action_name self) accumulator
  end.

Definition execute (action_execution_strategy : ActionExecutionStrategy)
    (self : Condition) (data_in : value) (accumulator : gmap N value)
  : Emit value :=
  data <~ apply_transforms action_execution_strategy
            (Condition_transforms self) data_in accumulator ;;
  match bind_arguments self data accumulator with
  | inl _ =>
      send (Condition_id self) ConditionError ;;;
      ret (VBool false)
  | inr args =>
      match strategy_execute action_execution_strategy (ExCondition self)
              accumulator args with
      | inr r =>
          send (Condition_id self) ConditionSuccess ;;;
          if Condition_is_negated self
          then ret (VBool (negb (truthy r)))
          else ret r
      | inl _ =>
          send (Condition_id self) ConditionError ;;;
          ret (VBool false)
      end
  end.
End WithValidator.
End Condition.

(** ** conditionalexpression.py *)

(** [all(f(x) for x in l)]: stops at the first falsy element. *)
Definition all {A : Type} (f : A -> Emit bool) : list A -> Emit bool :=
fix go (l : list A) : Emit bool :=
  match l with
  | [] => ret true
  | x :: rest => b <~ f x ;; if b then go rest else ret false
  end.

(** [any(f(x) for x in l)]: stops at the first truthy element. *)
Definition any {A : Type} (f : A -> Emit bool) : list A -> Emit bool :=
fix go (l : list A) : Emit bool :=
  match l with
  | [] => ret false
  | x :: rest => b <~ f x ;; if b then ret true else go rest
  end.

(** The inner loop of [_xor] over one executable group.  [None] is the
  early [return False]; [Some b] is the value of [is_one_found] when the
  group is exhausted. *)
Definition xor_group {A : Type} (f : A -> Emit bool)
: list A -> bool -> Emit (option bool) :=
fix go (l : list A) (is_one_found : bool) : Emit (option bool) :=
  match l with
  | [] => ret (Some is_one_found)
  | x :: rest =>
      b <~ f x ;;
      if b then (if is_one_found then ret None else go rest true)
      else go rest is_one_found
  end.

Module ConditionalExpression.
Section WithValidator.
Variable validator : Validator.
Variable action_execution_strategy : ActionExecutionStrategy.

(** A condition's result as it is tested by [all], [any] and [if]. *)
Definition condition_holds (data_in : value) (accumulator : gmap N value)
    (condition : Condition) : Emit bool :=
  r <~ Condition.execute validator action_execution_strategy condition
         data_in accumulator ;;
  ret (truthy r).

Section Operators.
(** The operators, given how a child expression is executed. *)
Variable execute_child : ConditionalExpression -> Emit bool.
Variable data_in : value.
Variable accumulator : gmap N value.

Definition _and (self : ConditionalExpression) : Emit bool :=
  b <~ all (condition_holds data_in accumulator)
         (ConditionalExpression_conditions self) ;;
  if b then all execute_child (ConditionalExpression_child_expressions self)
  else ret false.

Definition _or (self : ConditionalExpression) : Emit bool :=
  match ConditionalExpression_conditions self,
        ConditionalExpression_child_expressions self with
  | [], [] => ret true
  | _, _ =>
      b <~ any (condition_holds data_in accumulator)
             (ConditionalExpression_conditions self) ;;
      if b then ret true
      else any execute_child (ConditionalExpression_child_expressions self)
  end.

Definition _xor (self : ConditionalExpression) : Emit bool :=
  match ConditionalExpression_conditions self,
        ConditionalExpression_child_expressions self with
  | [], [] => ret true
  | _, _ =>
      r1 <~ xor_group (condition_holds data_in accumulator)
              (ConditionalExpression_conditions self) false ;;
      match r1 with
      | None => ret false
      | Some is_one_found =>
          r2 <~ xor_group execute_child
                  (ConditionalExpression_child_expressions self) is_one_found ;;
          match r2 with
          | None => ret false
          | Some is_one_found' => ret is_one_found'
          end
      end
  end.

(** [self.__operator_lookup[self.operator]] *)
Definition __operator_lookup (self : ConditionalExpression) : Emit bool :=
  match ConditionalExpression_operator self with
  | op_and => _and self
  | op_or => _or self
  | op_xor => _xor self
  end.
End Operators.

(** The tail of [execute], after the operator has computed [result]. *)
Definition finish (self : ConditionalExpression) (result : bool) : Emit bool :=
  let result := if ConditionalExpression_is_negated self then negb result else result in
  (if result
   then send (ConditionalExpression_id self) ConditionalExpressionTrue
   else send (ConditionalExpression_id self) ConditionalExpressionFalse) ;;;
  ret result.

Fixpoint execute (self : ConditionalExpression) (data_in : value)
    (accumulator : gmap N value) {struct self} : Emit bool :=
  result <~ __operator_lookup (fun child => execute child data_in accumulator)
              data_in accumulator self ;;
  finish self result.
End WithValidator.
End ConditionalExpression.

(** ** The nodes and edges of a workflow *)

(** The value of [action.get_output()]. *)
Record ActionResult : Type := mkActionResult {
  ActionResult_result : value;
  ActionResult_status : string
}.

(** Modelled from the spec: an executable node (action.py and
    childworkflows.py are not among the sources).  A node has an id, an
    optional device and a behaviour: [Action_execute accumulator
    arguments resume instance] is one call
    [action.execute(accumulator, arguments=..., resume=..., instance=...)];
    it gives the returned result (possibly [None]) and the output that
    [action.get_output()] reads afterwards.  A node reports that it awaits
    trigger data with the status ["trigger"].  A child workflow exposes the
    same interface. *)
Record Action : Type := mkAction {
  Action_id : UUID;
  Action_device_id : option UUID;
  Action_execute :
    gmap N value -> option (list Argument) -> bool -> option UUID ->
    option ActionResult * ActionResult
}.

Record Branch : Type := mkBranch {
  Branch_id : UUID;
  Branch_source_id : UUID;
  Branch_destination_id : UUID;
  Branch_destination_type : string;
  Branch_priority : Z;
  Branch_condition : option ConditionalExpression
}.

Module Branch.
(** Modelled from the spec: [Branch.execute] (branch.py is not among the
    sources).  The branch's conditional expression is evaluated on the
    result just produced and the accumulator; an absent expression always
    passes.  A passing branch gives its destination id and kind, a failing
    one gives [(None, None)]. *)
Definition execute (validator : Validator)
    (action_execution_strategy : ActionExecutionStrategy)
    (self : Branch) (data_in : ActionResult) (accumulator : gmap N value)
  : Emit (option UUID * option string) :=
  match Branch_condition self with
  | None => ret (Some (Branch_destination_id self), Some (Branch_destination_type self))
  | Some condition =>
      b <~ ConditionalExpression.execute validator action_execution_strategy
             condition (ActionResult_result data_in) accumulator ;;
      if b
      then ret (Some (Branch_destination_id self), Some (Branch_destination_type self))
      else ret (None, None)
  end.
End Branch.

(** Modelled from the spec: [AppInstanceRepo] (appinstancerepo.py is not
    among the sources), the devices that hold an instance.  An instance is
    created lazily for the device of a node and reused by the nodes that
    share the device; [setup_app_instance] gives the device id. *)
Definition setup_app_instance (repo : list UUID) (action : Action)
  : option UUID * list UUID :=
  match Action_device_id action with
  | None => (None, repo)
  | Some device_id =>
      (Some device_id,
       if bool_decide (device_id ∈ repo) then repo else repo ++ [device_id])
  end.

Definition shutdown_instances (repo : list UUID) : list UUID := [].

(** ** workflow.py *)

Record Workflow : Type := mkWorkflow {
  Workflow_id : UUID;
  Workflow_name : string;
  Workflow_actions : list Action;
  Workflow_branches : list Branch;
  Workflow_child_workflows : list Action;
  Workflow_start : option UUID;
  Workflow_is_valid : bool
}.

(** The runtime fields of a workflow object, with the log of the signals
    sent so far.  [_instance_repo] is [None] after [__init__];
    [_executing_action] holds the id of the node. *)
Record State : Type := mkState {
  _is_paused : bool;
  _abort : bool;
  _accumulator : gmap N value;
  _execution_id : string;
  _instance_repo : option (list UUID);
  _executing_action : option UUID;
  signals : list Signal
}.

Definition set_is_paused (b : bool) (st : State) : State :=
  mkState b (_abort st) (_accumulator st) (_execution_id st)
          (_instance_repo st) (_executing_action st) (signals st).

Definition set_abort (b : bool) (st : State) : State :=
  mkState (_is_paused st) b (_accumulator st) (_execution_id st)
          (_instance_repo st) (_executing_action st) (signals st).

Definition set_accumulator (acc : gmap N value) (st : State) : State :=
  mkState (_is_paused st) (_abort st) acc (_execution_id st)
          (_instance_repo st) (_executing_action st) (signals st).

Definition set_execution_id (e : string) (st : State) : State :=
  mkState (_is_paused st) (_abort st) (_accumulator st) e
          (_instance_repo st) (_executing_action st) (signals st).

Definition set_instance_repo (r : option (list UUID)) (st : State) : State :=
  mkState (_is_paused st) (_abort st) (_accumulator st) (_execution_id st)
          r (_executing_action st) (signals st).

Definition set_executing_action (a : option UUID) (st : State) : State :=
  mkState (_is_paused st) (_abort st) (_accumulator st) (_execution_id st)
          (_instance_repo st) a (signals st).

(** Signals are appended to the log in the order they are sent. *)
Definition emit (l : list Signal) (st : State) : State :=
  mkState (_is_paused st) (_abort st) (_accumulator st) (_execution_id st)
          (_instance_repo st) (_executing_action st) (signals st ++ l).

Inductive Exception : Type :=
| AttributeError (msg : string)
| TypeError (msg : string)
| StopIteration
| DecodeError (msg : string).

(** The locals of [__execute] that live across loop iterations:
    [start_arguments], [resume] and [last_result]. *)
Record Locals : Type := mkLocals {
  start_arguments : option (list Argument);
  resume : bool;
  last_result : value
}.

(** A suspended [__execute] generator: where it stopped and its locals. *)
Inductive Frame : Type :=
| AtStart (start : UUID) (start_arguments : option (list Argument)) (resume : bool)
| AfterPaused (action : Action) (locals : Locals)
| AfterAborted (action : Action) (locals : Locals)
| AfterTriggered (action : Action) (output : ActionResult) (locals : Locals)
| AfterResult.

(** The outcome of one [next(executor)]. *)
Inductive Next : Type :=
| Yielded (v : value) (frame : Frame) (st : State)
| Raised (e : Exception) (st : State)
| OutOfFuel.

(** The outcome of one call of a method. *)
Inductive Outcome : Type :=
| Return (v : value) (st : State)
| Raise (e : Exception) (st : State)
| Diverge.

(** [sorted(l, key=lambda branch_: branch_.priority)]: a stable sort, an
    element goes before the first one with a priority that is not lower. *)
Fixpoint insert_by_priority (b : Branch) (l : list Branch) : list Branch :=
  match l with
  | [] => [b]
  | x :: rest =>
      if (Branch_priority b <=? Branch_priority x)%Z
      then b :: x :: rest
      else x :: insert_by_priority b rest
  end.

Fixpoint sorted (l : list Branch) : list Branch :=
  match l with
  | [] => []
  | b :: rest => insert_by_priority b (sorted rest)
  end.

(** [{branch.id: 0 for branch in branches}] *)
Definition branch_counters (branches : list Branch) : gmap N value :=
  foldl (fun acc branch => <[Branch_id branch := VInt 0]> acc) ∅ branches.

Module Workflow.

(** The runtime fields set by [__init__]. *)
Definition __init__ (self : Workflow) : State :=
  {| _is_paused := false;
     _abort := false;
     _accumulator := branch_counters (Workflow_branches self);
     _execution_id := "default";
     _instance_repo := None;
     _executing_action := None;
     signals := [] |}.

(** The runtime fields set when the workflow is loaded from the database. *)
Definition init_on_load (self : Workflow) : State :=
  {| _is_paused := false;
     _abort := false;
     _accumulator := branch_counters (Workflow_branches self);
     _execution_id := "default";
     _instance_repo := Some [];
     _executing_action := None;
     signals := [] |}.

Definition pause (st : State) : State := set_is_paused true st.

Definition abort (st : State) : State := set_abort true st.

Section Engine.
Variable validator : Validator.
Variable action_execution_strategy : ActionExecutionStrategy.
(** [str] on a UUID. *)
Variable UUID_str : UUID -> string.
Variable self : Workflow.

Definition get_action_by_id (action_id : UUID) : option Action :=
  List.find (fun action => N.eqb (Action_id action) action_id) (Workflow_actions self).

Definition get_child_workflow_by_id (workflow_id : UUID) : option Action :=
  List.find (fun workflow => N.eqb (Action_id workflow) workflow_id)
            (Workflow_child_workflows self).

Definition __get_branches_by_action_id (id_ : UUID) : list Branch :=
  List.filter (fun branch => N.eqb (Branch_source_id branch) id_)
              (Workflow_branches self).

(** The [for branch in branches] loop of [get_branch]. *)
Fixpoint try_branches (branches : list Branch) (output : ActionResult)
    (accumulator : gmap N value) : Emit (option UUID * option string) :=
  match branches with
  | [] => ret (None, None)
  | branch :: rest =>
      r <~ Branch.execute validator action_execution_strategy branch output
             accumulator ;;
      match fst r with
      | Some _ => ret r
      | None => try_branches rest output accumulator
      end
  end.

(** [output] is [current_action.get_output()]. *)
Definition get_branch (current_action : Action) (output : ActionResult)
    (accumulator : gmap N value) : Emit (option UUID * option string) :=
  match Workflow_branches self with
  | [] => ret (None, None)
  | _ :: _ =>
      try_branches
        (sorted (__get_branches_by_action_id (Action_id current_action)))
        output accumulator
  end.

(** [{str(key): value for key, value in self._accumulator.items()}] *)
Definition snapshot (accumulator : gmap N value) : gmap string value :=
  list_to_map ((fun kv => (UUID_str (fst kv), snd kv)) <$> map_to_list accumulator).

Definition __shutdown (st : State) : Exception + State :=
  match _instance_repo st with
  | None => inl (AttributeError "'NoneType' object has no attribute 'shutdown_instances'")
  | Some repo =>
      let st := set_instance_repo (Some (shutdown_instances repo)) st in
      let accumulator := snapshot (_accumulator st) in
      inr (emit [mkSignal (Workflow_id self) WorkflowShutdown (Some accumulator)] st)
  end.

(** [__actions]: the node that follows [action], once the loop body is
    done and the [for] statement asks for the next element. *)
Definition next_executable_after (action : Action) (output : ActionResult)
    (st : State) : option Action * State :=
  let '((next_executable_id, next_executable_type), sent) :=
    get_branch action output (_accumulator st) in
  let st := emit sent st in
  match next_executable_id with
  | None => (None, st)
  | Some id =>
      if bool_decide (next_executable_type = Some "action")
      then (get_action_by_id id, st)
      else (get_child_workflow_by_id id, st)
  end.

(** [__actions]: the first node. *)
Definition first_executable (start : UUID) : option Action :=
  match get_action_by_id start with
  | Some action => Some action
  | None => get_child_workflow_by_id start
  end.

Section Body.
(** The head of the [for] loop, for the iterations that follow. *)
Variable loop : option Action -> Locals -> State -> Next.

(** After the loop: [self.__shutdown()] and [yield last_result]. *)
Definition after_loop (locals : Locals) (st : State) : Next :=
  match __shutdown st with
  | inl e => Raised e st
  | inr st => Yielded (last_result locals) AfterResult st
  end.

(** The last two statements of the body, then the next iteration. *)
Definition record_result (action : Action) (output : ActionResult)
    (locals : Locals) (st : State) : Next :=
  let locals := mkLocals (start_arguments locals) (resume locals)
                         (ActionResult_result output) in
  let st := set_accumulator
              (<[Action_id action := ActionResult_result output]> (_accumulator st)) st in
  let '(next_executable, st) := next_executable_after action output st in
  loop next_executable locals st.

(** From [setup_app_instance] to the trigger test. *)
Definition invoke (action : Action) (locals : Locals) (st : State) : Next :=
  match _instance_repo st with
  | None =>
      Raised (AttributeError "'NoneType' object has no attribute 'setup_app_instance'") st
  | Some repo =>
      let '(device_id, repo) := setup_app_instance repo action in
      let st := set_instance_repo (Some repo) st in
      let '(result, output) :=
        Action_execute action (_accumulator st) (start_arguments locals)
                       (resume locals) device_id in
      let locals :=
        match start_arguments locals with
        | Some (_ :: _) => mkLocals None (resume locals) (last_result locals)
        | _ => locals
        end in
      match result with
      | Some r =>
          if bool_decide (ActionResult_status r = "trigger")
          then Yielded (VStr "Triggered") (AfterTriggered action output locals) st
          else record_result action output locals st
      | None => record_result action output locals st
      end
  end.

(** [if self._abort: ...] *)
Definition check_abort (action : Action) (locals : Locals) (st : State) : Next :=
  if _abort st then
    let st := set_abort false st in
    let st := emit [mkSignal (Workflow_id self) WorkflowAborted None] st in
    Yielded (VStr "Aborted") (AfterAborted action locals) st
  else invoke action locals st.

(** The loop body from its first statement: [if self._is_paused: ...] *)
Definition body (action : Action) (locals : Locals) (st : State) : Next :=
  let st := set_executing_action (Some (Action_id action)) st in
  if _is_paused st then
    let st := set_is_paused false st in
    let st := emit [mkSignal (Workflow_id self) WorkflowPaused None] st in
    Yielded (VStr "Paused") (AfterPaused action locals) st
  else check_abort action locals st.
End Body.

(** The [for] loop of [__execute].  Each iteration takes one unit of
    fuel: the graph may have cycles. *)
Fixpoint loop (fuel : nat) (next_executable : option Action)
    (locals : Locals) (st : State) : Next :=
  match next_executable with
  | None => after_loop locals st
  | Some action =>
      match fuel with
      | O => OutOfFuel
      | S fuel => body (loop fuel) action locals st
      end
  end.

(** [next(executor)] on the generator [__execute(start, start_arguments,
    resume)]: runs from where the generator is suspended to the next
    [yield]. *)
Definition __execute_next (fuel : nat) (frame : Frame) (st : State) : Next :=
  match frame with
  | AtStart start start_arguments resume =>
      loop fuel (first_executable start) (mkLocals start_arguments resume VNone) st
  | AfterPaused action locals => check_abort (loop fuel) action locals st
  | AfterAborted action locals => invoke (loop fuel) action locals st
  | AfterTriggered action output locals =>
      record_result (loop fuel) action output locals st
  | AfterResult => Raised StopIteration st
  end.

(** [start] is a UUID here; the source also accepts its string form and
    converts it. *)
Definition execute (fuel : nat) (execution_id : string) (start : option UUID)
    (start_arguments : option (list Argument)) (resume : bool) (st : State)
  : Outcome :=
  if Workflow_is_valid self then
    let st := set_execution_id execution_id st in
    let st := emit [mkSignal (Workflow_id self) WorkflowExecutionStart None] st in
    let start := match start with Some s => Some s | None => Workflow_start self end in
    match start with
    | None => Raise (TypeError "one of the hex, bytes, bytes_le, fields, or int arguments must be given") st
    | Some start =>
        let executor := AtStart start start_arguments resume in
        match __execute_next fuel executor st with
        | Yielded workflow_result _ st => Return workflow_result st
        | Raised e st => Raise e st
        | OutOfFuel => Diverge
        end
    end
  else Return VNone st.
End Engine.

(** [validate]: the list assigned to [self.errors].  [is_valid] is then
    derived by [ExecutionElement], which is not among the sources. *)
Definition validate (UUID_str : UUID -> string) (self : Workflow) : list string :=
  let action_ids := List.map Action_id (Workflow_actions self) in
  let errors :=
    match Workflow_start self, Workflow_actions self with
    | None, _ :: _ => ["Workflows with actions require a start parameter"]
    | Some start, _ :: _ =>
        if existsb (N.eqb start) action_ids then []
        else [String.append "Workflow start ID "
                (String.append (UUID_str start) " not found in actions")]
    | _, [] => []
    end in
  errors ++
  List.concat
    (List.map
       (fun branch =>
          (if existsb (N.eqb (Branch_source_id branch)) action_ids then []
           else [String.append "Branch source ID "
                   (String.append (UUID_str (Branch_source_id branch))
                      " not found in workflow actions")]) ++
          (if existsb (N.eqb (Branch_destination_id branch)) action_ids then []
           else [String.append "Branch destination ID "
                   (String.append (UUID_str (Branch_destination_id branch))
                      " not found in workflow actions")]))
       (Workflow_branches self)).

(** [list.remove(x)] for the object [x] that [get_action_by_id] has found:
    the first action with that id goes. *)
Fixpoint remove_first (action_id : UUID) (actions : list Action) : list Action :=
  match actions with
  | [] => []
  | action :: rest =>
      if N.eqb (Action_id action) action_id then rest
      else action :: remove_first action_id rest
  end.

(** [remove_action].  When no action has the id, [get_action_by_id] gives
    [None] and [self.actions.remove(None)] raises [ValueError]: that is the
    result [None] here.  Otherwise the workflow is as the method leaves
    it (the method returns [True]). *)
Definition remove_action (self : Workflow) (action_id : UUID) : option Workflow :=
  match get_action_by_id self action_id with
  | None => None
  | Some _ =>
      Some (mkWorkflow (Workflow_id self) (Workflow_name self)
              (remove_first action_id (Workflow_actions self))
              (List.filter
                 (fun branch =>
                    negb (N.eqb (Branch_source_id branch) action_id) &&
                    negb (N.eqb (Branch_destination_id branch) action_id))
                 (Workflow_branches self))
              (Workflow_child_workflows self) (Workflow_start self)
              (Workflow_is_valid self))
  end.

(** [get_executing_action_id]: the attribute [_executing_action] does
    not exist before the first node of the first run. *)
Definition get_executing_action_id (st : State) : Exception + UUID :=
  match _executing_action st with
  | None => inl (AttributeError "'Workflow' object has no attribute '_executing_action'")
  | Some id => inr id
  end.
End Workflow.

(** ** zmq_receivers.py *)

(** What one [results_sock.recv(zmq.NOBLOCK)] gives: [zmq.ZMQError] when
    no message is waiting, or the bytes of a message. *)
Inductive Poll : Type :=
| ZMQError
| Received (message_bytes : list Byte.byte).

(** One iteration of the receive loop as the environment drives it:
    whether another thread has set [thread_exit] by the time the iteration
    starts, and what the socket gives. *)
Record Tick : Type := mkTick {
  exit_requested : bool;
  poll : Poll
}.

(** A sender descriptor is a dict. *)
Abbreviation Sender := (gmap string value) (only parsing).

(** How [receive_results] stands after a prefix of the environment's
    behaviour: still in the loop, returned after closing the socket, or
    left by an exception, which nothing in the loop catches. *)
Inductive LoopStatus : Type := Polling | Returned | Propagated (e : Exception).

Module ZmqWorkflowResultsReceiver.

Record t : Type := mk {
  thread_exit : bool;
  workflows_executed : Z;
  (** the calls [event.send(sender, data=data)], in order *)
  republished : list (WalkoffEvent * gmap string value * value);
  socket_closed : bool
}.

(** The fields set by [__init__]. *)
Definition __init__ : t :=
  {| thread_exit := false; workflows_executed := 0;
     republished := []; socket_closed := false |}.

Section Receiver.
(** [message_converter.to_event_callback]: the converter is an argument of
    the constructor (its default, [ProtobufWorkflowResultsConverter] of
    protoconverter.py, is not among the sources).  A call on the bytes of a
    message returns a triple (event, sender, data), in which the event and
    the sender may be [None], or it raises. *)
Variable to_event_callback :
  list Byte.byte ->
  Exception + (option WalkoffEvent * option (gmap string value) * value).

Definition _increment_execution_count (self : t) : t :=
  {| thread_exit := thread_exit self;
     workflows_executed := workflows_executed self + 1;
     republished := republished self;
     socket_closed := socket_closed self |}.

Definition event_send (event : WalkoffEvent) (sender : gmap string value)
    (data : value) (self : t) : t :=
  {| thread_exit := thread_exit self;
     workflows_executed := workflows_executed self;
     republished := republished self ++ [(event, sender, data)];
     socket_closed := socket_closed self |}.

(** Both branches of [if self.current_app] send the event.  The call of
    the converter is not inside a [try]: what it raises leaves the
    method. *)
Definition _send_callback (self : t) (message_bytes : list Byte.byte)
  : Exception + t :=
  match to_event_callback message_bytes with
  | inl e => inl e
  | inr (event, sender, data) =>
      match sender, event with
      | Some sender, Some event =>
          let self := event_send event sender data self in
          if bool_decide (event ∈ [WorkflowShutdown; WorkflowAborted])
          then inr (_increment_execution_count self)
          else inr self
      | _, _ => inr self
      end
  end.

Definition set_thread_exit (self : t) : t :=
  {| thread_exit := true;
     workflows_executed := workflows_executed self;
     republished := republished self;
     socket_closed := socket_closed self |}.

Definition close (self : t) : t :=
  {| thread_exit := thread_exit self;
     workflows_executed := workflows_executed self;
     republished := republished self;
     socket_closed := true |}.

(** [while True: ...] over the iterations the environment has driven so
    far.  Only [zmq.ZMQError] from [recv] is caught. *)
Fixpoint receive_results (env : list Tick) (self : t) : LoopStatus * t :=
  match env with
  | [] => (Polling, self)
  | tick :: rest =>
      let self := if exit_requested tick then set_thread_exit self else self in
      if thread_exit self then (Returned, close self)
      else
        match poll tick with
        | ZMQError => receive_results rest self
        | Received message_bytes =>
            match _send_callback self message_bytes with
            | inl e => (Propagated e, self)
            | inr self => receive_results rest self
            end
        end
  end.
End Receiver.
End ZmqWorkflowResultsReceiver.

(** ** multiprocessedexecutor.py *)

(** Modelled from the spec: the values of the [status] column of a
    workflow status row ([walkoff.coredb.WorkflowStatusEnum]; walkoff/coredb
    is not among the sources), the states of an execution.  The source
    names [running], [paused] and [awaiting_data]. *)
Inductive WorkflowStatusEnum : Type :=
| pending | running | paused | awaiting_data | completed | aborted.

Global Instance WorkflowStatusEnum_eq_dec : EqDecision WorkflowStatusEnum.
Proof. solve_decision. Defined.

Record WorkflowStatus : Type := mkWorkflowStatus {
  WorkflowStatus_execution_id : string;
  WorkflowStatus_workflow_id : UUID;
  WorkflowStatus_status : WorkflowStatusEnum
}.

Module MultiprocessedExecutor.

(** The executor with what it reaches: the rows of the workflow status
    table and the pause commands handed to the load balancer
    ([self.manager.pause_workflow]). *)
Record t : Type := mk {
  workflow_statuses : list WorkflowStatus;
  manager_paused : list string
}.

Inductive Result : Type :=
| Returns (b : bool) (self : t)
| Raises (e : Exception) (self : t).

(** [session.query(WorkflowStatus).filter_by(execution_id=...).first()] *)
Definition query_first (self : t) (execution_id : string) : option WorkflowStatus :=
  List.find (fun row => String.eqb (WorkflowStatus_execution_id row) execution_id)
            (workflow_statuses self).

(** The attribute access [workflow_status.__dict__]: [None] has no
    [__dict__]. *)
Definition __dict__ (workflow_status : option WorkflowStatus)
  : Exception + WorkflowStatus :=
  match workflow_status with
  | None => inl (AttributeError "'NoneType' object has no attribute '__dict__'")
  | Some row => inr row
  end.

Definition manager_pause_workflow (self : t) (execution_id : string) : t :=
  {| workflow_statuses := workflow_statuses self;
     manager_paused := manager_paused self ++ [execution_id] |}.

Definition pause_workflow (self : t) (execution_id : string) : Result :=
  let workflow_status := query_first self execution_id in
  (* print("Workflow status: {}".format(workflow_status.__dict__)) *)
  match __dict__ workflow_status with
  | inl e => Raises e self
  | inr _ =>
      match workflow_status with
      | Some row =>
          if bool_decide (WorkflowStatus_status row = running)
          then Returns true (manager_pause_workflow self execution_id)
          else Returns false self
      | None => Returns false self
      end
  end.

(** [get_workflow_status].  In the [else] branch the method [format] is
    called on the result of [logger.error], which is [None]: the branch
    raises before its [return 0]. *)
Definition get_workflow_status (self : t) (execution_id : string)
  : Exception + WorkflowStatusEnum :=
  match query_first self execution_id with
  | Some row => inr (WorkflowStatus_status row)
  | None => inl (AttributeError "'NoneType' object has no attribute 'format'")
  end.

(** [get_waiting_workflows] *)
Definition get_waiting_workflows (self : t) : list string :=
  List.map WorkflowStatus_execution_id
    (List.filter
       (fun row => bool_decide (WorkflowStatus_status row = awaiting_data))
       (workflow_statuses self)).

(** A row of the saved workflows: the checkpoint of an execution. *)
Record SavedWorkflow : Type := mkSavedWorkflow {
  SavedWorkflow_workflow_execution_id : string;
  SavedWorkflow_action_id : UUID
}.

(** The events the executor sends itself. *)
Inductive ExecutorEvent : Type :=
| WorkflowExecutionPending (workflow_id : UUID)
| WorkflowResumed (workflow_id : UUID)
| SchedulerJobExecuted.

(** One call [self.manager.add_workflow(workflow.id, execution_id, start,
    start_arguments, resume)]. *)
Record AddWorkflow : Type := mkAddWorkflow {
  added_workflow_id : UUID;
  added_execution_id : string;
  added_start : option UUID;
  added_start_arguments : option (list Argument);
  added_resume : bool
}.

(** What the executor has sent and handed to the load balancer. *)
Record Outbox : Type := mkOutbox {
  outbox_events : list ExecutorEvent;
  outbox_added : list AddWorkflow
}.

(** [execute_workflow].  [uuid4] is the value of [str(uuid.uuid4())] and
    [workflow_execution_id] the field [_execution_id] of the workflow
    object.  The result is the execution id returned, the field
    [_execution_id] afterwards, and the outbox. *)
Definition execute_workflow (uuid4 : string) (workflow : Workflow)
    (workflow_execution_id : string) (start : option UUID)
    (start_arguments : option (list Argument)) (resume : bool) (out : Outbox)
  : string * string * Outbox :=
  let '(execution_id, workflow_execution_id) :=
    if resume then (workflow_execution_id, workflow_execution_id)
    else (uuid4, uuid4) in
  let out := mkOutbox (outbox_events out ++ [WorkflowExecutionPending (Workflow_id workflow)])
                      (outbox_added out) in
  let out := mkOutbox (outbox_events out)
               (outbox_added out ++
                [mkAddWorkflow (Workflow_id workflow) execution_id start
                   start_arguments resume]) in
  let out := mkOutbox (outbox_events out ++ [SchedulerJobExecuted]) (outbox_added out) in
  (execution_id, workflow_execution_id, out).

Inductive ResumeResult : Type :=
| ResumeReturns (b : bool) (out : Outbox)
| ResumeRaises (e : Exception) (out : Outbox).

(** [resume_workflow], with the rows of the saved workflows and the
    workflows the session holds.  The workflow found is a fresh object
    whose [_execution_id] the method sets. *)
Definition resume_workflow (self : t) (saved_workflows : list SavedWorkflow)
    (workflows : list Workflow) (uuid4 : string) (execution_id : string)
    (out : Outbox) : ResumeResult :=
  let workflow_status := query_first self execution_id in
  (* print(workflow_status.__dict__) *)
  match __dict__ workflow_status with
  | inl e => ResumeRaises e out
  | inr _ =>
      match workflow_status with
      | Some row =>
          if bool_decide (WorkflowStatus_status row = paused) then
            let saved_state :=
              List.find
                (fun saved =>
                   String.eqb (SavedWorkflow_workflow_execution_id saved) execution_id)
                saved_workflows in
            let workflow :=
              List.find
                (fun workflow =>
                   N.eqb (Workflow_id workflow) (WorkflowStatus_workflow_id row))
                workflows in
            match workflow with
            | None =>
                ResumeRaises
                  (AttributeError "'NoneType' object has no attribute '_execution_id'")
                  out
            | Some workflow =>
                let workflow_execution_id := execution_id in
                let out := mkOutbox (outbox_events out ++
                                     [WorkflowResumed (Workflow_id workflow)])
                                    (outbox_added out) in
                match saved_state with
                | None =>
                    ResumeRaises
                      (AttributeError "'NoneType' object has no attribute 'action_id'")
                      out
                | Some saved_state =>
                    let '(_, _, out) :=
                      execute_workflow uuid4 workflow workflow_execution_id
                        (Some (SavedWorkflow_action_id saved_state)) None true out in
                    ResumeReturns true out
                end
            end
          else ResumeReturns false out
      | None => ResumeReturns false out
      end
  end.
End MultiprocessedExecutor.

(** ** apiutil.py *)

(** A parsed JSON document, as [json.loads] gives it (numbers are
    integers here). *)
Inductive json : Type :=
| JNull
| JBool (b : bool)
| JNum (z : Z)
| JStr (s : string)
| JList (l : list json)
| JDict (d : gmap string json).

(** [bool(j)] *)
Definition json_truthy (j : json) : bool :=
  match j with
  | JNull => false
  | JBool b => b
  | JNum z => negb (Z.eqb z 0)
  | JStr s => negb (String.eqb s EmptyString)
  | JList l => match l with [] => false | _ :: _ => true end
  | JDict d => negb (bool_decide (d = ∅))
  end.

Inductive ApiException : Type :=
| UnknownApp (app : string)
| UnknownAppAction (app action : string)
| UnknownDevice (app device_type : string)
| UnknownCondition (app condition : string)
| UnknownTransform (app transform : string)
| ApiTypeError
| ApiAttributeError.

(** [j[key]] for a string key: a dict gives the value or raises
    [KeyError]; nothing else can be subscripted by a string. *)
Inductive Subscript : Type :=
| Value (v : json)
| KeyError
| SubscriptTypeError.

Definition getitem (j : json) (key : string) : Subscript :=
  match j with
  | JDict d => match d !! key with Some v => Value v | None => KeyError end
  | _ => SubscriptTypeError
  end.

(** [key in j] for a string key: a key of a dict, an element of a list, a
    substring of a string; anything else is not iterable. *)
Definition contains (j : json) (key : string) : option bool :=
  match j with
  | JDict d => Some (bool_decide (is_Some (d !! key)))
  | JList l =>
      Some (existsb (fun x => match x with
                              | JStr s => String.eqb s key
                              | _ => false
                              end) l)
  | JStr s =>
      Some (match String.index 0 key s with Some _ => true | None => false end)
  | _ => None
  end.

(** [j.get(key, default)] *)
Definition get_default (j : json) (key : string) (default : json)
  : ApiException + json :=
  match j with
  | JDict d => inr (match d !! key with Some v => v | None => default end)
  | _ => inl ApiAttributeError
  end.

Module apiutil.

(** [split_api_params] on a parameter schema. *)
Fixpoint split_api_params (api : list ParameterApi) (data_param_name : string)
  : list ParameterApi :=
  match api with
  | [] => []
  | api_param :: rest =>
      if String.eqb (param_name api_param) data_param_name
      then split_api_params rest data_param_name
      else api_param :: split_api_params rest data_param_name
  end.

Section WithCache.
(** The hash ["app-apis"] of the cache: the API of each app, stored as JSON
    text.  The text is held parsed; [hget] gives [None] for an app
    without entry, on which [json.loads] raises [TypeError]. *)
Variable redis_cache : gmap string json.

(** The first [try] block of every getter. *)
Definition load_app_api (app : string) : ApiException + json :=
  match redis_cache !! app with
  | None => inl ApiTypeError
  | Some app_api =>
      if json_truthy app_api then inr app_api else inl (UnknownApp app)
  end.

(** A subscript inside the second [try] block, where [KeyError] is turned
    into [unknown]. *)
Definition subscript {A : Type} (unknown : ApiException) (j : json) (key : string)
    (k : json -> ApiException + A) : ApiException + A :=
  match getitem j key with
  | Value v => k v
  | KeyError => inl unknown
  | SubscriptTypeError => inl ApiTypeError
  end.

Definition get_app_action_api (app action : string)
  : ApiException + (json * json) :=
  match load_app_api app with
  | inl e => inl e
  | inr app_api =>
      let unknown := UnknownAppAction app action in
      subscript unknown app_api "actions" (fun actions =>
      subscript unknown actions action (fun action_api =>
      subscript unknown action_api "run" (fun run =>
      match get_default action_api "parameters" (JList []) with
      | inl e => inl e
      | inr parameters => inr (run, parameters)
      end)))
  end.

Definition get_app_action_default_return (app action : string)
  : ApiException + json :=
  match load_app_api app with
  | inl e => inl e
  | inr app_api =>
      let unknown := UnknownAppAction app action in
      subscript unknown app_api "actions" (fun actions =>
      subscript unknown actions action (fun action_api =>
      match contains action_api "default_return" with
      | None => inl ApiTypeError
      | Some true => subscript unknown action_api "default_return" (fun r => inr r)
      | Some false => inr (JStr "Success")
      end))
  end.

Definition get_app_action_return_is_failure (app action status : string)
  : ApiException + json :=
  if String.eqb status "UnhandledException" then inr (JBool true)
  else
    match load_app_api app with
    | inl e => inl e
    | inr app_api =>
        let unknown := UnknownAppAction app action in
        subscript unknown app_api "actions" (fun actions =>
        subscript unknown actions action (fun action_api =>
        subscript unknown action_api "returns" (fun returns =>
        subscript unknown returns status (fun return_api =>
        match contains return_api "failure" with
        | None => inl ApiTypeError
        | Some true =>
            subscript unknown action_api "returns" (fun returns' =>
            subscript unknown returns' status (fun return_api' =>
            subscript unknown return_api' "failure" (fun failure => inr failure)))
        | Some false => inr (JBool false)
        end))))
    end.

Definition get_app_device_api (app device_type : string) : ApiException + json :=
  match load_app_api app with
  | inl e => inl e
  | inr app_api =>
      let unknown := UnknownDevice app device_type in
      subscript unknown app_api "devices" (fun devices =>
      subscript unknown devices device_type (fun device_api => inr device_api))
  end.

Definition get_condition_api (app condition : string)
  : ApiException + (json * json * json) :=
  match load_app_api app with
  | inl e => inl e
  | inr app_api =>
      let unknown := UnknownCondition app condition in
      subscript unknown app_api "conditions" (fun conditions =>
      subscript unknown conditions condition (fun condition_api =>
      subscript unknown condition_api "run" (fun run =>
      subscript unknown condition_api "data_in" (fun data_in =>
      match get_default condition_api "parameters" (JList []) with
      | inl e => inl e
      | inr parameters => inr (data_in, run, parameters)
      end))))
  end.

Definition get_transform_api (app transform : string)
  : ApiException + (json * json * json) :=
  match load_app_api app with
  | inl e => inl e
  | inr app_api =>
      let unknown := UnknownTransform app transform in
      subscript unknown app_api "transforms" (fun transforms =>
      subscript unknown transforms transform (fun transform_api =>
      subscript unknown transform_api "run" (fun run =>
      subscript unknown transform_api "data_in" (fun data_in =>
      match get_default transform_api "parameters" (JList []) with
      | inl e => inl e
      | inr parameters => inr (data_in, run, parameters)
      end))))
  end.
End WithCache.
End apiutil.

(** ** Sample collaborators, elements and workflows *)

Local Open Scope N_scope.

Definition accept_all : Validator :=
  mkValidator (fun _ _ _ _ => inr ∅) (fun _ _ _ _ => inr ∅).

Definition reject_all : Validator :=
  mkValidator (fun _ _ _ _ => inl ["invalid argument"])
              (fun _ _ _ _ => inl ["invalid argument"]).

Definition constant_strategy (v : value) : ActionExecutionStrategy :=
  mkStrategy (fun _ _ _ => inr v).

Definition failing_strategy : ActionExecutionStrategy :=
  mkStrategy (fun _ _ _ => inl "execution error").

(** A strategy under which a condition holds when its id is odd. *)
Definition odd_strategy : ActionExecutionStrategy :=
  mkStrategy (fun executable _ _ =>
                match executable with
                | ExCondition c => inr (VBool (N.odd (Condition_id c)))
                | ExTransform _ => inr VNone
                end).

(** A condition without arguments and transforms. *)
Definition plain_condition (id : UUID) : Condition :=
  mkCondition id "HelloWorld" "regMatch" false [] [] "value" [].

(** A transform and a negated condition of some app. *)
Definition sample_transform : Transform :=
  mkTransform 21 "HelloWorld" "length" [] "value" [].

Definition sample_condition : Condition :=
  mkCondition 22 "HelloWorld" "regMatch" true [] [sample_transform] "value" [].

Definition sample_expression : ConditionalExpression :=
  mkConditionalExpression 23 op_and false [] [sample_condition].

(** An action that returns a fixed result with status "Success". *)
Definition constant_action (id : UUID) (v : value) : Action :=
  mkAction id None
    (fun _ _ _ _ => (Some (mkActionResult v "Success"), mkActionResult v "Success")).

Definition empty_and (id : UUID) : ConditionalExpression :=
  mkConditionalExpression id op_and false [] [].

(** Two actions; the single branch of the first has an empty [and]
    expression and leads to the second. *)
Definition two_actions : Workflow :=
  mkWorkflow 100 "two_actions"
    [constant_action 1 (VStr "hello"); constant_action 2 (VInt 46)]
    [mkBranch 10 1 2 "action" 1%Z (Some (empty_and 11))]
    [] (Some 1) true.

(** One action with three outgoing branches of priorities 5, 1 and 3, all
    passing, to three further actions. *)
Definition three_branches : Workflow :=
  mkWorkflow 200 "three_branches"
    [constant_action 1 (VInt 0); constant_action 5 (VInt 5);
     constant_action 6 (VInt 6); constant_action 7 (VInt 7)]
    [mkBranch 15 1 5 "action" 5%Z (Some (empty_and 35));
     mkBranch 11 1 6 "action" 1%Z (Some (empty_and 31));
     mkBranch 13 1 7 "action" 3%Z (Some (empty_and 33))]
    [] (Some 1) true.

(** The same workflow as [two_actions], not valid. *)
Definition invalid_workflow : Workflow :=
  mkWorkflow 100 "two_actions"
    [constant_action 1 (VStr "hello"); constant_action 2 (VInt 46)]
    [mkBranch 10 1 2 "action" 1%Z (Some (empty_and 11))]
    [] (Some 1) false.

(** A rendering of UUIDs as strings. *)
Definition sample_str : UUID -> string := pretty.

(** [self] with its negation flag toggled. *)
Definition negated (self : ConditionalExpression) : ConditionalExpression :=
  mkConditionalExpression
    (ConditionalExpression_id self)
    (ConditionalExpression_operator self)
    (negb (ConditionalExpression_is_negated self))
    (ConditionalExpression_child_expressions self)
    (ConditionalExpression_conditions self).

(** A condition with its negation flag set to [b]. *)
Definition with_is_negated (b : bool) (self : Condition) : Condition :=
  mkCondition (Condition_id self) (Condition_app_name self)
    (Condition_action_name self) b (Condition_arguments self)
    (Condition_transforms self) (Condition__data_param_name self)
    (Condition__api self).

(** The signal that ends the execution of an expression. *)
Definition verdict (self : ConditionalExpression) (result : bool) : Signal :=
  mkSignal (ConditionalExpression_id self)
           (if result then ConditionalExpressionTrue else ConditionalExpressionFalse)
           None.

Local Close Scope N_scope.

(** ** Notions used in the statements *)

(** Whether the conditional expression of a branch evaluates true on the
    result just produced; a branch without expression passes. *)
Definition branch_passes (validator : Validator)
    (strategy : ActionExecutionStrategy) (output : ActionResult)
    (accumulator : gmap N value) (branch : Branch) : bool :=
  match Branch_condition branch with
  | None => true
  | Some condition =>
      fst (ConditionalExpression.execute validator strategy condition
             (ActionResult_result output) accumulator)
  end.

(** The signals sent while the expression of a branch is evaluated. *)
Definition branch_signals (validator : Validator)
    (strategy : ActionExecutionStrategy) (output : ActionResult)
    (accumulator : gmap N value) (branch : Branch) : list Signal :=
  match Branch_condition branch with
  | None => []
  | Some condition =>
      snd (ConditionalExpression.execute validator strategy condition
             (ActionResult_result output) accumulator)
  end.

(** Ascending priorities. *)
Definition priority_le (x y : Branch) : Prop :=
  (Branch_priority x <= Branch_priority y)%Z.

(** The nodes of a workflow: its actions and its child workflows. *)
Definition nodes (self : Workflow) : list Action :=
  Workflow_actions self ++ Workflow_child_workflows self.

(** Every key of the accumulator is either as the branch counters have it
    (0 for the id of a branch, absent otherwise), or it is the id of a node
    of the workflow and holds the result of a call of that node. *)
Definition seeded_or_result (self : Workflow) (accumulator : gmap N value) : Prop :=
  forall k,
    accumulator !! k = branch_counters (Workflow_branches self) !! k \/
    exists node acc_in args r inst,
      In node (nodes self) /\ Action_id node = k /\
      accumulator !! k
      = Some (ActionResult_result (snd (Action_execute node acc_in args r inst))).

(** The events sent while a conditional expression is evaluated. *)
Definition evaluator_event (event : WalkoffEvent) : bool :=
  match event with
  | ConditionalExpressionTrue | ConditionalExpressionFalse
  | ConditionSuccess | ConditionError
  | TransformSuccess | TransformError => true
  | _ => false
  end.

(** Signals of the evaluator only: none of them is a workflow event. *)
Definition quiet (sent : list Signal) : Prop :=
  Forall (fun s => evaluator_event (sig_event s) = true) sent.

(** What [__execute] sends and yields when it suspends in a frame. *)
Definition stop_signals (self : Workflow) (UUID_str : UUID -> string)
    (frame : Frame) (st' : State) : list Signal :=
  match frame with
  | AfterPaused _ _ => [mkSignal (Workflow_id self) WorkflowPaused None]
  | AfterAborted _ _ => [mkSignal (Workflow_id self) WorkflowAborted None]
  | AfterResult =>
      [mkSignal (Workflow_id self) WorkflowShutdown
         (Some (Workflow.snapshot UUID_str (_accumulator st')))]
  | AfterTriggered _ _ _ => []
  | AtStart _ _ _ => []
  end.

Definition stop_value (frame : Frame) (v : value) : Prop :=
  match frame with
  | AfterPaused _ _ => v = VStr "Paused"
  | AfterAborted _ _ => v = VStr "Aborted"
  | AfterTriggered _ _ _ => v = VStr "Triggered"
  | AfterResult => True
  | AtStart _ _ _ => False
  end.

(** The state in which a [next] or a call leaves the workflow object; there
    is none when the fuel runs out. *)
Definition state_after (n : Next) : option State :=
  match n with
  | Yielded _ _ st => Some st
  | Raised _ st => Some st
  | OutOfFuel => None
  end.

Definition outcome_state (o : Outcome) : option State :=
  match o with
  | Return _ st => Some st
  | Raise _ st => Some st
  | Diverge => None
  end.

(** From [st] to [st'] the accumulator keeps its keys and stays made of
    branch counters and results of nodes. *)
Definition accumulator_kept (self : Workflow) (st st' : State) : Prop :=
  (seeded_or_result self (_accumulator st) ->
   seeded_or_result self (_accumulator st')) /\
  (forall k, is_Some (_accumulator st !! k) -> is_Some (_accumulator st' !! k)).

(** The node that follows [node] when the accumulator is [accumulator]:
    the one [__actions] finds from the destination [get_branch] gives. *)
Definition next_node (validator : Validator) (strategy : ActionExecutionStrategy)
    (self : Workflow) (node : Action) (output : ActionResult)
    (accumulator : gmap N value) : option Action :=
  fst (Workflow.next_executable_after validator strategy self node output
         (set_accumulator accumulator (Workflow.init_on_load self))).

(** The executed nodes of a run, each with the output of its call, and the
    accumulator once their results are recorded, in order, under the ids
    of the nodes. *)
Abbreviation Trace := (list (Action * ActionResult)) (only parsing).

Definition recorded (trace : Trace) (accumulator : gmap N value) : gmap N value :=
  foldl (fun acc step => <[Action_id (fst step) := ActionResult_result (snd step)]> acc)
        accumulator trace.

(** [walk next_executable start_arguments resume accumulator trace]: the
    loop entered at [next_executable] calls the nodes of [trace], in
    order, and then ends.  Each node is called on the accumulator as the
    nodes before it have left it, the first of them with the start
    arguments; the node that follows is the one the branches give. *)
Inductive walk (validator : Validator) (strategy : ActionExecutionStrategy)
    (self : Workflow)
  : option Action -> option (list Argument) -> bool -> gmap N value -> Trace -> Prop :=
| walk_end start_arguments resume accumulator :
    walk validator strategy self None start_arguments resume accumulator []
| walk_node node start_arguments resume accumulator output trace :
    output = snd (Action_execute node accumulator start_arguments resume
                    (Action_device_id node)) ->
    walk validator strategy self
      (next_node validator strategy self node output
         (<[Action_id node := ActionResult_result output]> accumulator))
      (match start_arguments with Some (_ :: _) => None | _ => start_arguments end)
      resume
      (<[Action_id node := ActionResult_result output]> accumulator)
      trace ->
    walk validator strategy self (Some node) start_arguments resume accumulator
      ((node, output) :: trace).

(** The states a workflow object goes through: it is constructed or
    loaded, and then [pause], [abort] and [execute] are called on it in any
    order; a call of [execute] may return or raise. *)
Inductive reachable (validator : Validator) (strategy : ActionExecutionStrategy)
    (UUID_str : UUID -> string) (self : Workflow) : State -> Prop :=
| reachable_init : reachable validator strategy UUID_str self (Workflow.__init__ self)
| reachable_load : reachable validator strategy UUID_str self (Workflow.init_on_load self)
| reachable_pause st :
    reachable validator strategy UUID_str self st ->
    reachable validator strategy UUID_str self (Workflow.pause st)
| reachable_abort st :
    reachable validator strategy UUID_str self st ->
    reachable validator strategy UUID_str self (Workflow.abort st)
| reachable_return st fuel execution_id start start_arguments resume v st' :
    reachable validator strategy UUID_str self st ->
    Workflow.execute validator strategy UUID_str self fuel execution_id start
      start_arguments resume st = Return v st' ->
    reachable validator strategy UUID_str self st'
| reachable_raise st fuel execution_id start start_arguments resume e st' :
    reachable validator strategy UUID_str self st ->
    Workflow.execute validator strategy UUID_str self fuel execution_id start
      start_arguments resume st = Raise e st' ->
    reachable validator strategy UUID_str self st'.

(** The messages among the iterations of the receive loop. *)
Definition messages (env : list Tick) : list (list Byte.byte) :=
  omap (fun tick =>
          match poll tick with
          | Received message_bytes => Some message_bytes
          | ZMQError => None
          end) env.

(** A received event: a message for which the converter returns both an
    event and a sender. *)
Definition received_event
    (to_event_callback :
       list Byte.byte ->
       Exception + (option WalkoffEvent * option (gmap string value) * value))
    (message_bytes : list Byte.byte)
  : option (WalkoffEvent * gmap string value * value) :=
  match to_event_callback message_bytes with
  | inr (Some event, Some sender, data) => Some (event, sender, data)
  | _ => None
  end.

(** The messages in front of the first one on which the converter raises,
    and what it raises there, if it does. *)
Fixpoint until_raise
    (to_event_callback :
       list Byte.byte ->
       Exception + (option WalkoffEvent * option (gmap string value) * value))
    (message_list : list (list Byte.byte))
  : list (list Byte.byte) * option Exception :=
  match message_list with
  | [] => ([], None)
  | message_bytes :: rest =>
      match to_event_callback message_bytes with
      | inl e => ([], Some e)
      | inr _ =>
          let '(converted, raised) := until_raise to_event_callback rest in
          (message_bytes :: converted, raised)
      end
  end.

(** The events that end an execution for the receiver. *)
Definition ends_execution (received : WalkoffEvent * gmap string value * value) : bool :=
  match fst (fst received) with
  | WorkflowShutdown | WorkflowAborted => true
  | _ => false
  end.

(** A converter for the samples: a message of one byte 1 is a shutdown
    event, of one byte 2 an aborted event, of one byte 3 a paused event;
    for anything else it returns no event and no sender. *)
Definition sample_converter (message_bytes : list Byte.byte)
  : Exception + (option WalkoffEvent * option (gmap string value) * value) :=
  match message_bytes with
  | [Byte.x01] => inr (Some WorkflowShutdown, Some ∅, VNone)
  | [Byte.x02] => inr (Some WorkflowAborted, Some ∅, VNone)
  | [Byte.x03] => inr (Some WorkflowPaused, Some ∅, VNone)
  | _ => inr (None, None, VNone)
  end.

(** A converter that parses first, as a protobuf converter does: on bytes
    that are no message the parser raises. *)
Definition strict_converter (message_bytes : list Byte.byte)
  : Exception + (option WalkoffEvent * option (gmap string value) * value) :=
  match message_bytes with
  | [Byte.x01] => inr (Some WorkflowShutdown, Some ∅, VNone)
  | [Byte.x02] => inr (Some WorkflowAborted, Some ∅, VNone)
  | [Byte.x03] => inr (Some WorkflowPaused, Some ∅, VNone)
  | _ => inl (DecodeError "Error parsing message")
  end.

(** [st] with the signals [p] in front of its log. *)
Definition prefix_log (p : list Signal) (st : State) : State :=
  mkState (_is_paused st) (_abort st) (_accumulator st) (_execution_id st)
          (_instance_repo st) (_executing_action st) (p ++ signals st).

Definition prefix_next (p : list Signal) (n : Next) : Next :=
  match n with
  | Yielded v frame st => Yielded v frame (prefix_log p st)
  | Raised e st => Raised e (prefix_log p st)
  | OutOfFuel => OutOfFuel
  end.

Definition prefix_outcome (p : list Signal) (o : Outcome) : Outcome :=
  match o with
  | Return v st => Return v (prefix_log p st)
  | Raise e st => Raise e (prefix_log p st)
  | Diverge => Diverge
  end.

(** [st] with an empty log. *)
Definition clear_log (st : State) : State :=
  mkState (_is_paused st) (_abort st) (_accumulator st) (_execution_id st)
          (_instance_repo st) (_executing_action st) [].

(** The elements of [l] that a loop visits when it stops at the first
    element on which [stop] holds: that element and those in front of it. *)
Fixpoint evaluated_until {A : Type} (stop : A -> bool) (l : list A) : list A :=
  match l with
  | [] => []
  | x :: rest => if stop x then [x] else x :: evaluated_until stop rest
  end.

(** The same for a loop that stops at the second such element. *)
Fixpoint evaluated_until_second {A : Type} (stop : A -> bool) (l : list A) : list A :=
  match l with
  | [] => []
  | x :: rest =>
      if stop x then x :: evaluated_until stop rest
      else x :: evaluated_until_second stop rest
  end.

(** The executions an operator has at hand, in the order it goes through
    them: those of the conditions, then those of the child expressions. *)
Definition operands (validator : Validator) (strategy : ActionExecutionStrategy)
    (self : ConditionalExpression) (data_in : value) (accumulator : gmap N value)
  : list (Emit bool) :=
  List.map (ConditionalExpression.condition_holds validator strategy data_in accumulator)
           (ConditionalExpression_conditions self) ++
  List.map (fun child =>
              ConditionalExpression.execute validator strategy child data_in
                accumulator)
           (ConditionalExpression_child_expressions self).

(** How many of them are true. *)
Definition count_true (items : list (Emit bool)) : nat :=
  length (List.filter fst items).

(** ** Further samples *)

(** A node that awaits trigger data, and a workflow that starts with it. *)
Definition trigger_action (id : UUID) : Action :=
  mkAction id None
    (fun _ _ _ _ =>
       (Some (mkActionResult VNone "trigger"), mkActionResult VNone "trigger")).

Definition awaiting_trigger : Workflow :=
  mkWorkflow 300 "awaiting_trigger" [trigger_action 1] [] [] (Some 1%N) true.

(** A valid workflow of one action and no branch. *)
Definition one_action : Workflow :=
  mkWorkflow 400 "one_action" [constant_action 1 (VInt 7)] [] [] (Some 1%N) true.

(** [two_actions] loaded from the database, with the flags as given. *)
Definition loaded (is_paused abort : bool) : State :=
  set_abort abort (set_is_paused is_paused (Workflow.init_on_load two_actions)).

(** An executor with three executions: one running, one paused, one
    awaiting data. *)
Definition sample_executor : MultiprocessedExecutor.t :=
  MultiprocessedExecutor.mk
    [mkWorkflowStatus "e1" 100 running;
     mkWorkflowStatus "e2" 100 paused;
     mkWorkflowStatus "e3" 200 awaiting_data]
    [].

(** The API of an action with two declared returns. *)
Definition pause_api : gmap string json :=
  {[ "run" := JStr "main.Main.pause";
     "returns" := JDict {[ "Success" := JDict ∅;
                           "Failure" := JDict {[ "failure" := JBool true ]} ]} ]}.

(** The API of a condition without declared parameters. *)
Definition regMatch_api : gmap string json :=
  {[ "run" := JStr "conditions.regMatch"; "data_in" := JStr "value" ]}.

(** A cache with the API of one app and an empty entry for another. *)
Definition sample_cache : gmap string json :=
  {[ "HelloWorld" := JDict {[ "actions" := JDict {[ "pause" := JDict pause_api ]};
                              "conditions" :=
                                JDict {[ "regMatch" := JDict regMatch_api ]} ]};
     "Empty" := JDict ∅ ]}.

(** * Properties *)

(** ** The writer *)

Lemma bind_ret_l {A B : Type} (a : A) (k : A -> Emit B) : bind (ret a) k = k a.
Proof. unfold bind, ret. destruct (k a) as [b l]. reflexivity. Qed.

Lemma bind_fst {A B : Type} (m : Emit A) (k : A -> Emit B) :
  fst (bind m k) = fst (k (fst m)).
Proof. destruct m as [a l1]. simpl. destruct (k a). reflexivity. Qed.

Lemma bind_snd {A B : Type} (m : Emit A) (k : A -> Emit B) :
  snd (bind m k) = snd m ++ snd (k (fst m)).
Proof. destruct m as [a l1]. simpl. destruct (k a). reflexivity. Qed.

Lemma bind_ext {A B : Type} (m : Emit A) (k k' : A -> Emit B) :
  (forall a, k a = k' a) -> bind m k = bind m k'.
Proof. intros H. destruct m as [a l]. simpl. rewrite H. reflexivity. Qed.

Lemma bind_assoc {A B C : Type} (m : Emit A) (k : A -> Emit B) (h : B -> Emit C) :
  bind (bind m k) h = bind m (fun a => bind (k a) h).
Proof.
  destruct m as [a l1]. simpl. destruct (k a) as [b l2]. simpl.
  destruct (h b) as [c l3]. rewrite app_assoc. reflexivity.
Qed.

(** ** Values *)

Lemma deepcopy_id (v : value) : deepcopy v = v.
Proof.
  revert v. fix IH 1. intros [ | b | z | s | l]; simpl; try reflexivity.
  f_equal. induction l as [ | x l IHl]; simpl; [reflexivity | ].
  rewrite (IH x), IHl. reflexivity.
Qed.

(** ** C2: empty expressions *)

(** C2.  A conditional expression with no conditions and no child
    expressions that is not negated executes to [True] under each of the
    operators [and], [or] and [xor]; the only signal it sends is
    [ConditionalExpressionTrue]. *)
Theorem empty_expression_executes_true
    (validator : Validator) (strategy : ActionExecutionStrategy)
    (id : UUID) (operator : Operator) (data_in : value)
    (accumulator : gmap N value) :
  ConditionalExpression.execute validator strategy
    (mkConditionalExpression id operator false [] []) data_in accumulator
  = (true, [mkSignal id ConditionalExpressionTrue None]).
Proof. destruct operator; reflexivity. Qed.

(** ** C5: transforms fail open and are chained left to right *)

Section TransformProperties.
Variable validator : Validator.
Variable strategy : ActionExecutionStrategy.

Lemma Transform_execute_invalid (self : Transform) (data_in : value)
    (accumulator : gmap N value) (errors : list string) :
  Transform.bind_arguments validator self data_in accumulator = inl errors ->
  Transform.execute validator strategy self data_in accumulator
  = (data_in, [mkSignal (Transform_id self) TransformError None]).
Proof.
  intros H. unfold Transform.execute. rewrite H, deepcopy_id. reflexivity.
Qed.

Lemma Transform_execute_raises (self : Transform) (data_in : value)
    (accumulator : gmap N value) (args : gmap string value) (msg : string) :
  Transform.bind_arguments validator self data_in accumulator = inr args ->
  strategy_execute strategy (ExTransform self) accumulator args = inl msg ->
  Transform.execute validator strategy self data_in accumulator
  = (data_in, [mkSignal (Transform_id self) TransformError None]).
Proof.
  intros H1 H2. unfold Transform.execute. rewrite H1, H2, deepcopy_id.
  reflexivity.
Qed.

(** The value a chain of transforms gives: each output is the next input. *)
Lemma apply_transforms_foldl (transforms : list Transform) (data : value)
    (accumulator : gmap N value) :
  fst (Condition.apply_transforms validator strategy transforms data accumulator)
  = foldl (fun d transform =>
             fst (Transform.execute validator strategy transform d accumulator))
          data transforms.
Proof.
  revert data. induction transforms as [ | t ts IH]; intros data; simpl.
  - reflexivity.
  - rewrite bind_fst. apply IH.
Qed.

(** A chain splits at any point: the front part runs first, on the input,
    and the rest runs on what the front part gives. *)
Lemma apply_transforms_app (ts1 ts2 : list Transform) (data : value)
    (accumulator : gmap N value) :
  Condition.apply_transforms validator strategy (ts1 ++ ts2) data accumulator
  = bind (Condition.apply_transforms validator strategy ts1 data accumulator)
         (fun d => Condition.apply_transforms validator strategy ts2 d accumulator).
Proof.
  revert data. induction ts1 as [ | t ts IH]; intros data; simpl.
  - symmetry. apply bind_ret_l.
  - rewrite bind_assoc. apply bind_ext. intros d. apply IH.
Qed.

(** What a condition answers once its transforms have produced [data]. *)
Lemma Condition_execute_after_transforms (self : Condition) (data_in : value)
    (accumulator : gmap N value) :
  let data :=
    fst (Condition.apply_transforms validator strategy
           (Condition_transforms self) data_in accumulator) in
  fst (Condition.execute validator strategy self data_in accumulator)
  = match Condition.bind_arguments validator self data accumulator with
    | inl _ => VBool false
    | inr args =>
        match strategy_execute strategy (ExCondition self) accumulator args with
        | inr r => if Condition_is_negated self then VBool (negb (truthy r)) else r
        | inl _ => VBool false
        end
    end.
Proof.
  intros data. unfold Condition.execute. rewrite bind_fst. fold data.
  destruct (Condition.bind_arguments validator self data accumulator) as [e | args].
  - reflexivity.
  - destruct (strategy_execute strategy (ExCondition self) accumulator args) as [m | r].
    + reflexivity.
    + rewrite bind_fst. destruct (Condition_is_negated self); reflexivity.
Qed.

(** C5.  A transform whose argument validation raises [InvalidArgument],
    or whose capability raises an execution error, returns its input
    unchanged.  A condition applies its transforms from left to right, each
    on the output of the one before, and validates its arguments with the
    output of the last one. *)
Theorem transform_fails_open_and_chains (accumulator : gmap N value) :
  (forall (self : Transform) (data_in : value),
     (exists errors,
        Transform.bind_arguments validator self data_in accumulator = inl errors) \/
     (exists args msg,
        Transform.bind_arguments validator self data_in accumulator = inr args /\
        strategy_execute strategy (ExTransform self) accumulator args = inl msg) ->
     Transform.execute validator strategy self data_in accumulator
     = (data_in, [mkSignal (Transform_id self) TransformError None])) /\
  (forall (t1 t2 : Transform) (data_in : value),
     let r1 := Transform.execute validator strategy t1 data_in accumulator in
     let r2 := Transform.execute validator strategy t2 (fst r1) accumulator in
     Condition.apply_transforms validator strategy [t1; t2] data_in accumulator
     = (fst r2, snd r1 ++ snd r2)) /\
  (forall (self : Condition) (data_in : value),
     let data :=
       foldl (fun d transform =>
                fst (Transform.execute validator strategy transform d accumulator))
             data_in (Condition_transforms self) in
     fst (Condition.execute validator strategy self data_in accumulator)
     = match Condition.bind_arguments validator self data accumulator with
       | inl _ => VBool false
       | inr args =>
           match strategy_execute strategy (ExCondition self) accumulator args with
           | inr r => if Condition_is_negated self then VBool (negb (truthy r)) else r
           | inl _ => VBool false
           end
       end).
Proof.
  split; [ | split].
  - intros self data_in [[errors H] | (args & msg & H1 & H2)].
    + eapply Transform_execute_invalid; eassumption.
    + eapply Transform_execute_raises; eassumption.
  - intros t1 t2 data_in r1 r2. simpl. subst r2 r1.
    destruct (Transform.execute validator strategy t1 data_in accumulator)
      as [d1 l1]. simpl.
    destruct (Transform.execute validator strategy t2 d1 accumulator)
      as [d2 l2]. simpl. rewrite app_nil_r. reflexivity.
  - intros self data_in data. subst data.
    rewrite <- apply_transforms_foldl. apply Condition_execute_after_transforms.
Qed.
End TransformProperties.

(** C5 at a transform whose arguments are rejected. *)
Lemma transform_fails_open_and_chains_witness :
  Transform.execute reject_all (constant_strategy (VInt 3)) sample_transform
    (VStr "abc") ∅
  = (VStr "abc", [mkSignal 21%N TransformError None]).
Proof.
  apply (proj1 (transform_fails_open_and_chains reject_all
                  (constant_strategy (VInt 3)) ∅)).
  left. exists ["invalid argument"]. reflexivity.
Defined.

(** ** C4: conditions fail closed *)

Section ConditionProperties.
Variable validator : Validator.
Variable strategy : ActionExecutionStrategy.

(** C4.  Let [data] be what the transforms of a condition give and [sent]
    the signals they send.  If the validation of the arguments raises
    [InvalidArgument], or the capability raises an execution error, the
    condition answers [False] and signals [ConditionError], whatever its
    [is_negated] flag.  Only when both succeed is the flag applied to the
    result of the capability.  The validation does not read the flag: when
    it fails, the condition answers [False] with the flag set either
    way. *)
Theorem condition_fails_closed (self : Condition) (data_in : value)
    (accumulator : gmap N value) :
  let transformed :=
    Condition.apply_transforms validator strategy (Condition_transforms self)
      data_in accumulator in
  let data := fst transformed in
  let sent := snd transformed in
  (forall errors,
     Condition.bind_arguments validator self data accumulator = inl errors ->
     Condition.execute validator strategy self data_in accumulator
     = (VBool false, sent ++ [mkSignal (Condition_id self) ConditionError None])) /\
  (forall args msg,
     Condition.bind_arguments validator self data accumulator = inr args ->
     strategy_execute strategy (ExCondition self) accumulator args = inl msg ->
     Condition.execute validator strategy self data_in accumulator
     = (VBool false, sent ++ [mkSignal (Condition_id self) ConditionError None])) /\
  (forall args r,
     Condition.bind_arguments validator self data accumulator = inr args ->
     strategy_execute strategy (ExCondition self) accumulator args = inr r ->
     Condition.execute validator strategy self data_in accumulator
     = ((if Condition_is_negated self then VBool (negb (truthy r)) else r),
        sent ++ [mkSignal (Condition_id self) ConditionSuccess None])) /\
  (forall errors b,
     Condition.bind_arguments validator self data accumulator = inl errors ->
     Condition.execute validator strategy (with_is_negated b self) data_in
       accumulator
     = (VBool false, sent ++ [mkSignal (Condition_id self) ConditionError None])).
Proof.
  intros transformed data sent. subst data sent. unfold Condition.execute.
  simpl. fold transformed. destruct transformed as [data sent]. simpl.
  split; [ | split; [ | split]].
  - intros errors H. rewrite H. reflexivity.
  - intros args msg H1 H2. rewrite H1, H2. reflexivity.
  - intros args r H1 H2. rewrite H1, H2.
    destruct (Condition_is_negated self); reflexivity.
  - intros errors b H.
    change (Condition.bind_arguments validator (with_is_negated b self) data
              accumulator)
      with (Condition.bind_arguments validator self data accumulator).
    rewrite H. reflexivity.
Qed.
End ConditionProperties.

(** C4 at a negated condition whose arguments are rejected: the answer is
    [False], not its negation. *)
Lemma condition_fails_closed_witness :
  Condition_is_negated sample_condition = true /\
  Condition.execute reject_all (constant_strategy (VBool true)) sample_condition
    (VStr "abc") ∅
  = (VBool false,
     [mkSignal 21%N TransformError None; mkSignal 22%N ConditionError None]).
Proof.
  split; [reflexivity | ].
  apply (proj1 (condition_fails_closed reject_all (constant_strategy (VBool true))
                  sample_condition (VStr "abc") ∅) ["invalid argument"]).
  reflexivity.
Defined.

(** ** C6: negation of an expression *)

Section ExpressionProperties.
Variable validator : Validator.
Variable strategy : ActionExecutionStrategy.

Lemma ConditionalExpression_execute_eq (self : ConditionalExpression)
    (data_in : value) (accumulator : gmap N value) :
  ConditionalExpression.execute validator strategy self data_in accumulator
  = bind (ConditionalExpression.__operator_lookup validator strategy
            (fun child =>
               ConditionalExpression.execute validator strategy child data_in
                 accumulator)
            data_in accumulator self)
         (ConditionalExpression.finish self).
Proof. destruct self; reflexivity. Qed.

(** The operator does not look at the negation flag. *)
Lemma operator_lookup_negated (execute_child : ConditionalExpression -> Emit bool)
    (self : ConditionalExpression) (data_in : value) (accumulator : gmap N value) :
  ConditionalExpression.__operator_lookup validator strategy execute_child
    data_in accumulator (negated self)
  = ConditionalExpression.__operator_lookup validator strategy execute_child
      data_in accumulator self.
Proof. destruct self as [id op neg children conditions]. reflexivity. Qed.

Lemma finish_eq (self : ConditionalExpression) (result : bool) :
  ConditionalExpression.finish self result
  = (xorb (ConditionalExpression_is_negated self) result,
     [verdict self (xorb (ConditionalExpression_is_negated self) result)]).
Proof.
  unfold ConditionalExpression.finish, verdict.
  destruct (ConditionalExpression_is_negated self), result; reflexivity.
Qed.

(** C6.  Executing an expression with its [is_negated] flag toggled gives
    the negation of what the expression gives.  The operator computes the
    same result [b] with the same signals in both executions; the flag is
    applied to [b] afterwards, and only the verdict signal differs.  This
    holds for every tree, so in particular for the trees whose evaluation
    meets no failure path. *)
Theorem negated_expression_executes_to_negation (self : ConditionalExpression)
    (data_in : value) (accumulator : gmap N value) :
  fst (ConditionalExpression.execute validator strategy (negated self) data_in
         accumulator)
  = negb (fst (ConditionalExpression.execute validator strategy self data_in
                 accumulator)) /\
  exists (b : bool) (sent : list Signal),
    ConditionalExpression.__operator_lookup validator strategy
      (fun child =>
         ConditionalExpression.execute validator strategy child data_in accumulator)
      data_in accumulator self = (b, sent) /\
    ConditionalExpression.execute validator strategy self data_in accumulator
    = (xorb (ConditionalExpression_is_negated self) b,
       sent ++ [verdict self (xorb (ConditionalExpression_is_negated self) b)]) /\
    ConditionalExpression.execute validator strategy (negated self) data_in
      accumulator
    = (negb (xorb (ConditionalExpression_is_negated self) b),
       sent ++ [verdict self (negb (xorb (ConditionalExpression_is_negated self) b))]).
Proof.
  rewrite (ConditionalExpression_execute_eq (negated self)).
  rewrite (ConditionalExpression_execute_eq self).
  rewrite operator_lookup_negated.
  destruct (ConditionalExpression.__operator_lookup validator strategy _ data_in
              accumulator self) as [b sent] eqn:Hop.
  simpl. rewrite !finish_eq. simpl.
  assert (Hneg : xorb (negb (ConditionalExpression_is_negated self)) b
                 = negb (xorb (ConditionalExpression_is_negated self) b))
    by (destruct (ConditionalExpression_is_negated self), b; reflexivity).
  rewrite Hneg. split; [reflexivity | ].
  exists b, sent. split; [reflexivity | ]. split; reflexivity.
Qed.
End ExpressionProperties.

(** An [xor] over two conditions that hold is false; over one that holds
    and one that does not it is true. *)
Example xor_of_two_true_conditions :
  fst (ConditionalExpression.execute accept_all odd_strategy
         (mkConditionalExpression 9 op_xor false []
            [plain_condition 1; plain_condition 3])
         (VStr "abc") ∅)
  = false.
Proof. reflexivity. Qed.

Example xor_of_one_true_condition :
  fst (ConditionalExpression.execute accept_all odd_strategy
         (mkConditionalExpression 9 op_xor false []
            [plain_condition 1; plain_condition 2])
         (VStr "abc") ∅)
  = true.
Proof. reflexivity. Qed.

(** An expression over a condition whose capability raises: the condition
    answers [False], the expression is false and its negation true. *)
Example negated_expression_over_failing_condition :
  ConditionalExpression.execute accept_all failing_strategy sample_expression
    (VStr "abc") ∅
  = (false,
     [mkSignal 21%N TransformError None; mkSignal 22%N ConditionError None;
      mkSignal 23%N ConditionalExpressionFalse None]) /\
  ConditionalExpression.execute accept_all failing_strategy
    (negated sample_expression) (VStr "abc") ∅
  = (true,
     [mkSignal 21%N TransformError None; mkSignal 22%N ConditionError None;
      mkSignal 23%N ConditionalExpressionTrue None]).
Proof. split; reflexivity. Qed.

(** ** The signals of the evaluator *)

Lemma quiet_bind {A B : Type} (m : Emit A) (k : A -> Emit B) :
  quiet (snd m) -> (forall a, quiet (snd (k a))) -> quiet (snd (bind m k)).
Proof.
  intros Hm Hk. rewrite bind_snd. apply Forall_app. split; [exact Hm | apply Hk].
Qed.

Lemma quiet_all {A : Type} (f : A -> Emit bool) (l : list A) :
  (forall x, In x l -> quiet (snd (f x))) -> quiet (snd (all f l)).
Proof.
  induction l as [ | x l IH]; intros H; simpl.
  - constructor.
  - apply quiet_bind; [apply H; left; reflexivity | ].
    intros [ | ]; [apply IH; intros y Hy; apply H; right; exact Hy | constructor].
Qed.

Lemma quiet_any {A : Type} (f : A -> Emit bool) (l : list A) :
  (forall x, In x l -> quiet (snd (f x))) -> quiet (snd (any f l)).
Proof.
  induction l as [ | x l IH]; intros H; simpl.
  - constructor.
  - apply quiet_bind; [apply H; left; reflexivity | ].
    intros [ | ]; [constructor | apply IH; intros y Hy; apply H; right; exact Hy].
Qed.

Lemma quiet_xor_group {A : Type} (f : A -> Emit bool) (l : list A)
    (is_one_found : bool) :
  (forall x, In x l -> quiet (snd (f x))) ->
  quiet (snd (xor_group f l is_one_found)).
Proof.
  revert is_one_found. induction l as [ | x l IH]; intros is_one_found H; simpl.
  - constructor.
  - apply quiet_bind; [apply H; left; reflexivity | ].
    assert (Hl : forall y, In y l -> quiet (snd (f y)))
      by (intros y Hy; apply H; right; exact Hy).
    intros [ | ]; [destruct is_one_found; [constructor | apply IH, Hl] | apply IH, Hl].
Qed.

Section QuietEvaluator.
Variable validator : Validator.
Variable strategy : ActionExecutionStrategy.

Lemma quiet_Transform_execute (self : Transform) (data_in : value)
    (accumulator : gmap N value) :
  quiet (snd (Transform.execute validator strategy self data_in accumulator)).
Proof.
  unfold Transform.execute.
  destruct (Transform.bind_arguments validator self data_in accumulator);
    [repeat constructor | ].
  destruct (strategy_execute strategy (ExTransform self) accumulator _);
    repeat constructor.
Qed.

Lemma quiet_apply_transforms (transforms : list Transform) (data : value)
    (accumulator : gmap N value) :
  quiet (snd (Condition.apply_transforms validator strategy transforms data
                accumulator)).
Proof.
  revert data. induction transforms as [ | t ts IH]; intros data; simpl.
  - constructor.
  - apply quiet_bind; [apply quiet_Transform_execute | intros d; apply IH].
Qed.

Lemma quiet_Condition_execute (self : Condition) (data_in : value)
    (accumulator : gmap N value) :
  quiet (snd (Condition.execute validator strategy self data_in accumulator)).
Proof.
  unfold Condition.execute. apply quiet_bind; [apply quiet_apply_transforms | ].
  intros data.
  destruct (Condition.bind_arguments validator self data accumulator);
    [repeat constructor | ].
  destruct (strategy_execute strategy (ExCondition self) accumulator _);
    [repeat constructor | ].
  destruct (Condition_is_negated self); repeat constructor.
Qed.

Lemma quiet_condition_holds (data_in : value) (accumulator : gmap N value)
    (condition : Condition) :
  quiet (snd (ConditionalExpression.condition_holds validator strategy data_in
                accumulator condition)).
Proof.
  unfold ConditionalExpression.condition_holds.
  apply quiet_bind; [apply quiet_Condition_execute | intros r; constructor].
Qed.

Lemma quiet_operator_lookup (execute_child : ConditionalExpression -> Emit bool)
    (data_in : value) (accumulator : gmap N value) (self : ConditionalExpression) :
  (forall child, In child (ConditionalExpression_child_expressions self) ->
                 quiet (snd (execute_child child))) ->
  quiet (snd (ConditionalExpression.__operator_lookup validator strategy
                execute_child data_in accumulator self)).
Proof.
  intros Hchild.
  assert (Hcond : forall c, In c (ConditionalExpression_conditions self) ->
            quiet (snd (ConditionalExpression.condition_holds validator strategy
                          data_in accumulator c)))
    by (intros c _; apply quiet_condition_holds).
  unfold ConditionalExpression.__operator_lookup.
  destruct (ConditionalExpression_operator self).
  - unfold ConditionalExpression._and.
    apply quiet_bind; [apply quiet_all, Hcond | ].
    intros [ | ]; [apply quiet_all, Hchild | constructor].
  - unfold ConditionalExpression._or.
    assert (Hgen : quiet (snd (
              b <~ any (ConditionalExpression.condition_holds validator strategy
                          data_in accumulator)
                     (ConditionalExpression_conditions self) ;;
              if b then ret true
              else any execute_child (ConditionalExpression_child_expressions self)))).
    { apply quiet_bind; [apply quiet_any, Hcond | ].
      intros [ | ]; [constructor | apply quiet_any, Hchild]. }
    destruct (ConditionalExpression_conditions self);
      destruct (ConditionalExpression_child_expressions self);
      try exact Hgen; constructor.
  - unfold ConditionalExpression._xor.
    assert (Hgen : quiet (snd (
              r1 <~ xor_group (ConditionalExpression.condition_holds validator
                                 strategy data_in accumulator)
                      (ConditionalExpression_conditions self) false ;;
              match r1 with
              | None => ret false
              | Some is_one_found =>
                  r2 <~ xor_group execute_child
                          (ConditionalExpression_child_expressions self)
                          is_one_found ;;
                  match r2 with
                  | None => ret false
                  | Some is_one_found' => ret is_one_found'
                  end
              end))).
    { apply quiet_bind; [apply quiet_xor_group, Hcond | ].
      intros [found | ]; [ | constructor].
      apply quiet_bind; [apply quiet_xor_group, Hchild | ].
      intros [found' | ]; constructor. }
    destruct (ConditionalExpression_conditions self);
      destruct (ConditionalExpression_child_expressions self);
      try exact Hgen; constructor.
Qed.

Lemma quiet_finish (self : ConditionalExpression) (result : bool) :
  quiet (snd (ConditionalExpression.finish self result)).
Proof.
  unfold ConditionalExpression.finish.
  destruct (ConditionalExpression_is_negated self), result; repeat constructor.
Qed.

(** The evaluation of an expression sends evaluator signals only. *)
Lemma quiet_ConditionalExpression_execute :
  forall (self : ConditionalExpression) (data_in : value)
         (accumulator : gmap N value),
    quiet (snd (ConditionalExpression.execute validator strategy self data_in
                  accumulator)).
Proof.
  fix IH 1. intros self data_in accumulator.
  destruct self as [id op neg children conditions].
  change (quiet (snd (bind
            (ConditionalExpression.__operator_lookup validator strategy
               (fun child =>
                  ConditionalExpression.execute validator strategy child data_in
                    accumulator)
               data_in accumulator
               (mkConditionalExpression id op neg children conditions))
            (ConditionalExpression.finish
               (mkConditionalExpression id op neg children conditions))))).
  apply quiet_bind; [ | intros r; apply quiet_finish].
  apply quiet_operator_lookup. simpl.
  induction children as [ | child children IHc]; intros x Hx.
  - destruct Hx.
  - destruct Hx as [<- | Hx]; [apply IH | apply IHc, Hx].
Qed.

Lemma quiet_Branch_execute (branch : Branch) (output : ActionResult)
    (accumulator : gmap N value) :
  quiet (snd (Branch.execute validator strategy branch output accumulator)).
Proof.
  unfold Branch.execute. destruct (Branch_condition branch); [ | constructor].
  apply quiet_bind; [apply quiet_ConditionalExpression_execute | ].
  intros [ | ]; constructor.
Qed.
End QuietEvaluator.

(** ** Where a run stops *)

Section StoppingRun.
Variable validator : Validator.
Variable strategy : ActionExecutionStrategy.
Variable UUID_str : UUID -> string.
Variable self : Workflow.

Lemma quiet_try_branches (branches : list Branch) (output : ActionResult)
    (accumulator : gmap N value) :
  quiet (snd (Workflow.try_branches validator strategy branches output accumulator)).
Proof.
  induction branches as [ | b l IH]; simpl.
  - constructor.
  - apply quiet_bind; [apply quiet_Branch_execute | ].
    intros r. destruct (fst r); [constructor | exact IH].
Qed.

Lemma quiet_get_branch (action : Action) (output : ActionResult)
    (accumulator : gmap N value) :
  quiet (snd (Workflow.get_branch validator strategy self action output accumulator)).
Proof.
  unfold Workflow.get_branch.
  destruct (Workflow_branches self); [constructor | apply quiet_try_branches].
Qed.

Lemma next_executable_after_quiet (action : Action) (output : ActionResult)
    (st : State) :
  exists sent,
    quiet sent /\
    signals (snd (Workflow.next_executable_after validator strategy self action
                    output st))
    = signals st ++ sent.
Proof.
  unfold Workflow.next_executable_after.
  pose proof (quiet_get_branch action output (_accumulator st)) as Hq.
  destruct (Workflow.get_branch validator strategy self action output
              (_accumulator st)) as [[next_id next_type] sent].
  simpl in Hq. exists sent. split; [exact Hq | ].
  destruct next_id as [id | ]; [ | reflexivity].
  destruct (bool_decide (next_type = Some "action")); reflexivity.
Qed.

(** An iteration that yields has either stopped at one of its own
    [yield] statements, or has recorded the output of its node and gone
    on. *)
Lemma body_yields (loop : option Action -> Locals -> State -> Next)
    (action : Action) (locals : Locals) (st : State)
    (v : value) (frame : Frame) (st' : State) :
  Workflow.body validator strategy self loop action locals st
  = Yielded v frame st' ->
  (frame <> AfterResult /\ stop_value frame v /\
   signals st' = signals st ++ stop_signals self UUID_str frame st') \/
  (exists repo output locals1,
     Workflow.record_result validator strategy self loop action output locals1
       (set_instance_repo (Some repo)
          (set_executing_action (Some (Action_id action)) st))
     = Yielded v frame st').
Proof.
  unfold Workflow.body. simpl.
  destruct (_is_paused st).
  { intros [= <- <- <-]. left.
    split; [discriminate | split; [reflexivity | reflexivity]]. }
  unfold Workflow.check_abort. simpl.
  destruct (_abort st).
  { intros [= <- <- <-]. left.
    split; [discriminate | split; [reflexivity | reflexivity]]. }
  unfold Workflow.invoke. simpl.
  destruct (_instance_repo st) as [repo | ]; [ | discriminate].
  destruct (setup_app_instance repo action) as [device_id repo'].
  simpl.
  destruct (Action_execute action (_accumulator st) (start_arguments locals)
              (resume locals) device_id) as [result output].
  destruct result as [r | ].
  - destruct (bool_decide (ActionResult_status r = "trigger")).
    + intros [= <- <- <-]. left.
      split; [discriminate | split; [reflexivity | ]].
      simpl. rewrite app_nil_r. reflexivity.
    + intros H. right. eexists repo', output, _. exact H.
  - intros H. right. eexists repo', output, _. exact H.
Qed.

Lemma after_loop_yields (locals : Locals) (st : State)
    (v : value) (frame : Frame) (st' : State) :
  Workflow.after_loop UUID_str self locals st = Yielded v frame st' ->
  frame = AfterResult /\
  signals st' = signals st ++ stop_signals self UUID_str frame st'.
Proof.
  unfold Workflow.after_loop, Workflow.__shutdown.
  destruct (_instance_repo st); [ | discriminate].
  intros [= <- <- <-]. split; reflexivity.
Qed.

(** Up to its [yield] the generator sends evaluator signals only, and at
    the [yield] the one signal that goes with it, if any. *)
Lemma loop_yields (fuel : nat) :
  forall (next_executable : option Action) (locals : Locals) (st : State)
         (v : value) (frame : Frame) (st' : State),
    Workflow.loop validator strategy UUID_str self fuel next_executable locals st
    = Yielded v frame st' ->
    stop_value frame v /\
    exists sent,
      quiet sent /\
      signals st' = signals st ++ sent ++ stop_signals self UUID_str frame st'.
Proof.
  induction fuel as [ | fuel IH]; intros next_executable locals st v frame st'.
  - destruct next_executable as [action | ]; simpl; [discriminate | ].
    intros H. apply after_loop_yields in H. destruct H as [-> Hsig].
    split; [exact I | exists []; split; [constructor | exact Hsig]].
  - destruct next_executable as [action | ]; simpl.
    2:{ intros H. apply after_loop_yields in H. destruct H as [-> Hsig].
        split; [exact I | exists []; split; [constructor | exact Hsig]]. }
    intros H. apply body_yields in H.
    destruct H as [(_ & Hv & Hsig) | (repo & output & locals1 & H)].
    + split; [exact Hv | exists []; split; [constructor | exact Hsig]].
    + unfold Workflow.record_result in H.
      match type of H with
      | context [Workflow.next_executable_after ?v ?s ?w ?a ?o ?t] =>
          destruct (next_executable_after_quiet a o t) as (sent1 & Hq1 & Hsig1);
          destruct (Workflow.next_executable_after v s w a o t) as [next st1]
      end.
      simpl in Hsig1. apply IH in H. destruct H as (Hv & sent & Hq & Hsig).
      split; [exact Hv | ].
      exists (sent1 ++ sent). split; [apply Forall_app; split; assumption | ].
      rewrite Hsig, Hsig1, <- !app_assoc. reflexivity.
Qed.
End StoppingRun.

(** ** C1 and C7: the flags at a node boundary, and invalid workflows *)

Section BoundaryProperties.
Variable validator : Validator.
Variable strategy : ActionExecutionStrategy.
Variable UUID_str : UUID -> string.
Variable self : Workflow.

Lemma loop_paused (fuel : nat) (action : Action) (locals : Locals) (st : State) :
  _is_paused st = true ->
  Workflow.loop validator strategy UUID_str self (S fuel) (Some action) locals st
  = Yielded (VStr "Paused") (AfterPaused action locals)
      (emit [mkSignal (Workflow_id self) WorkflowPaused None]
         (set_is_paused false
            (set_executing_action (Some (Action_id action)) st))).
Proof.
  intros H. simpl. unfold Workflow.body. simpl. rewrite H. reflexivity.
Qed.

Lemma loop_aborted (fuel : nat) (action : Action) (locals : Locals) (st : State) :
  _is_paused st = false ->
  _abort st = true ->
  Workflow.loop validator strategy UUID_str self (S fuel) (Some action) locals st
  = Yielded (VStr "Aborted") (AfterAborted action locals)
      (emit [mkSignal (Workflow_id self) WorkflowAborted None]
         (set_abort false
            (set_executing_action (Some (Action_id action)) st))).
Proof.
  intros H1 H2. simpl. unfold Workflow.body, Workflow.check_abort. simpl.
  rewrite H1, H2. reflexivity.
Qed.

(** [execute] on a valid workflow: the first value the generator yields
    is returned and the suspended generator is dropped. *)
Lemma execute_valid (fuel : nat) (execution_id : string) (start : option UUID)
    (start_arguments : option (list Argument)) (resume : bool) (st : State)
    (s : UUID) :
  Workflow_is_valid self = true ->
  match start with Some s => Some s | None => Workflow_start self end = Some s ->
  Workflow.execute validator strategy UUID_str self fuel execution_id start
    start_arguments resume st
  = match
      Workflow.__execute_next validator strategy UUID_str self fuel
        (AtStart s start_arguments resume)
        (emit [mkSignal (Workflow_id self) WorkflowExecutionStart None]
           (set_execution_id execution_id st))
    with
    | Yielded workflow_result _ st' => Return workflow_result st'
    | Raised e st' => Raise e st'
    | OutOfFuel => Diverge
    end.
Proof.
  intros Hvalid Hstart. unfold Workflow.execute. rewrite Hvalid, Hstart.
  reflexivity.
Qed.

(** C1, as the code has it.  At every node boundary (an iteration of the
    loop of [__execute] on a node) the paused flag is checked first: if it
    is set it is cleared, [WorkflowPaused] is sent and ['Paused'] is
    yielded, and the abort flag is left as it was.  Only when the paused
    flag is not set is the abort flag checked: if it is set it is cleared,
    [WorkflowAborted] is sent and ['Aborted'] is yielded.  A call of
    [execute] that meets such a boundary at its first node returns that one
    yielded value, after [WorkflowExecutionStart] and exactly one of the
    two signals; when both flags are set it returns ['Paused'] and the
    abort flag is still set.  Every call of [execute] on a valid workflow
    that returns has stopped at exactly one [yield] of the generator: after
    [WorkflowExecutionStart] it has sent evaluator signals only, and then
    the one signal of that [yield] ([WorkflowPaused], [WorkflowAborted] or
    [WorkflowShutdown]; none for ['Triggered']). *)
Theorem paused_is_checked_before_abort (fuel : nat) (action : Action)
    (locals : Locals) (st : State) :
  let boundary := set_executing_action (Some (Action_id action)) st in
  (_is_paused st = true ->
   Workflow.loop validator strategy UUID_str self (S fuel) (Some action) locals st
   = Yielded (VStr "Paused") (AfterPaused action locals)
       (emit [mkSignal (Workflow_id self) WorkflowPaused None]
          (set_is_paused false boundary))) /\
  (_is_paused st = false -> _abort st = true ->
   Workflow.loop validator strategy UUID_str self (S fuel) (Some action) locals st
   = Yielded (VStr "Aborted") (AfterAborted action locals)
       (emit [mkSignal (Workflow_id self) WorkflowAborted None]
          (set_abort false boundary))) /\
  (forall execution_id start start_arguments resume s,
     Workflow_is_valid self = true ->
     match start with Some s => Some s | None => Workflow_start self end = Some s ->
     Workflow.first_executable self s = Some action ->
     let started :=
       set_executing_action (Some (Action_id action))
         (emit [mkSignal (Workflow_id self) WorkflowExecutionStart None]
            (set_execution_id execution_id st)) in
     (_is_paused st = true ->
      exists st',
        Workflow.execute validator strategy UUID_str self (S fuel) execution_id
          start start_arguments resume st = Return (VStr "Paused") st' /\
        st' = emit [mkSignal (Workflow_id self) WorkflowPaused None]
                (set_is_paused false started) /\
        _is_paused st' = false /\ _abort st' = _abort st) /\
     (_is_paused st = false -> _abort st = true ->
      exists st',
        Workflow.execute validator strategy UUID_str self (S fuel) execution_id
          start start_arguments resume st = Return (VStr "Aborted") st' /\
        st' = emit [mkSignal (Workflow_id self) WorkflowAborted None]
                (set_abort false started) /\
        _is_paused st' = false /\ _abort st' = false)) /\
  (forall fuel' execution_id start start_arguments resume v st',
     Workflow_is_valid self = true ->
     Workflow.execute validator strategy UUID_str self fuel' execution_id start
       start_arguments resume st = Return v st' ->
     exists frame sent,
       stop_value frame v /\ quiet sent /\
       signals st'
       = signals st ++
         mkSignal (Workflow_id self) WorkflowExecutionStart None :: sent ++
         stop_signals self UUID_str frame st').
Proof.
  intros boundary. split; [ | split; [ | split]].
  4:{ intros fuel' execution_id start start_arguments resume v st' Hvalid.
      unfold Workflow.execute. rewrite Hvalid.
      destruct (match start with Some s => Some s | None => Workflow_start self end)
        as [s | ]; [ | discriminate].
      unfold Workflow.__execute_next.
      match goal with
      | |- context [Workflow.loop ?a ?b ?c ?d ?f ?n ?l ?t] =>
          pose proof (loop_yields a b c d f n l t) as Hloop;
          destruct (Workflow.loop a b c d f n l t) as [v0 frame st0 | | ]
      end; try discriminate.
      intros [= <- <-].
      destruct (Hloop v0 frame st0 eq_refl) as (Hv & sent & Hq & Hsig).
      exists frame, sent. split; [exact Hv | split; [exact Hq | ]].
      rewrite Hsig. simpl. rewrite <- app_assoc. reflexivity. }
  - apply loop_paused.
  - apply loop_aborted.
  - intros execution_id start start_arguments resume s Hvalid Hstart Hfirst started.
    split.
    + intros Hp. eexists. split; [ | split; [reflexivity | split; reflexivity]].
      rewrite (execute_valid _ _ _ _ _ _ s Hvalid Hstart).
      unfold Workflow.__execute_next. rewrite Hfirst.
      rewrite loop_paused by exact Hp. reflexivity.
    + intros Hp Ha. eexists.
      split; [ | split; [reflexivity | split; [exact Hp | reflexivity]]].
      rewrite (execute_valid _ _ _ _ _ _ s Hvalid Hstart).
      unfold Workflow.__execute_next. rewrite Hfirst.
      rewrite loop_aborted by assumption. reflexivity.
Qed.

(** C7.  [execute] on a workflow that is not valid runs nothing: it returns
    [None] and leaves the runtime fields and the signal log as they
    were. *)
Theorem invalid_workflow_is_refused (fuel : nat) (execution_id : string)
    (start : option UUID) (start_arguments : option (list Argument))
    (resume : bool) (st : State) :
  Workflow_is_valid self = false ->
  Workflow.execute validator strategy UUID_str self fuel execution_id start
    start_arguments resume st
  = Return VNone st.
Proof. intros H. unfold Workflow.execute. rewrite H. reflexivity. Qed.
End BoundaryProperties.

(** C1 as stated fails: with both flags set at the first node boundary the
    run ends with ['Paused'], [WorkflowAborted] is not sent and the abort
    flag stays set. *)
Lemma abort_is_checked_first_counterexample :
  let st := Workflow.abort (Workflow.pause (Workflow.init_on_load two_actions)) in
  _is_paused st = true /\ _abort st = true /\
  exists st',
    Workflow.execute accept_all (constant_strategy (VBool true)) sample_str
      two_actions 5 "e1" None None false st
    = Return (VStr "Paused") st' /\
    List.map sig_event (signals st')
    = [WorkflowExecutionStart; WorkflowPaused] /\
    _abort st' = true.
Proof.
  split; [reflexivity | split; [reflexivity | ]].
  eexists. split; [reflexivity | split; reflexivity].
Qed.

(** C1 as the code has it, on the same run. *)
Lemma paused_is_checked_before_abort_witness :
  let st := Workflow.abort (Workflow.pause (Workflow.init_on_load two_actions)) in
  exists st',
    Workflow.execute accept_all (constant_strategy (VBool true)) sample_str
      two_actions 1 "e1" None None false st
    = Return (VStr "Paused") st' /\
    _abort st' = true.
Proof.
  intros st.
  destruct (proj1 (proj2 (proj2 (paused_is_checked_before_abort accept_all
              (constant_strategy (VBool true)) sample_str two_actions 0
              (constant_action 1 (VStr "hello")) (mkLocals None false VNone) st)))
              "e1" None None false 1%N eq_refl eq_refl eq_refl) as [Hp _].
  destruct (Hp eq_refl) as (st' & Hexec & _ & _ & Habort).
  exists st'. split; [exact Hexec | exact Habort].
Defined.

(** C7 at the sample invalid workflow. *)
Lemma invalid_workflow_is_refused_witness :
  Workflow.execute accept_all (constant_strategy (VBool true)) sample_str
    invalid_workflow 5 "e1" None None false (Workflow.init_on_load invalid_workflow)
  = Return VNone (Workflow.init_on_load invalid_workflow).
Proof.
  apply (invalid_workflow_is_refused accept_all (constant_strategy (VBool true))
           sample_str invalid_workflow 5 "e1" None None false
           (Workflow.init_on_load invalid_workflow)).
  reflexivity.
Defined.

(** ** C3: the next node *)

Lemma insert_by_priority_perm (b : Branch) (l : list Branch) :
  Permutation (insert_by_priority b l) (b :: l).
Proof.
  induction l as [ | x l IH]; simpl.
  - apply Permutation_refl.
  - destruct (Branch_priority b <=? Branch_priority x)%Z.
    + apply Permutation_refl.
    + eapply Permutation_trans; [apply perm_skip, IH | apply perm_swap].
Qed.

Lemma sorted_perm (l : list Branch) : Permutation (sorted l) l.
Proof.
  induction l as [ | b l IH]; simpl.
  - apply perm_nil.
  - eapply Permutation_trans; [apply insert_by_priority_perm | ].
    apply perm_skip, IH.
Qed.

Lemma insert_by_priority_Forall (P : Branch -> Prop) (b : Branch) (l : list Branch) :
  P b -> Forall P l -> Forall P (insert_by_priority b l).
Proof.
  intros Hb Hl.
  eapply Permutation_Forall; [apply Permutation_sym, insert_by_priority_perm | ].
  constructor; assumption.
Qed.

Lemma insert_by_priority_sorted (b : Branch) (l : list Branch) :
  StronglySorted priority_le l ->
  StronglySorted priority_le (insert_by_priority b l).
Proof.
  induction 1 as [ | x l Hs IH Hx]; simpl.
  - repeat constructor.
  - destruct (Branch_priority b <=? Branch_priority x)%Z eqn:Hle.
    + apply Z.leb_le in Hle. constructor.
      * constructor; assumption.
      * constructor; [exact Hle | ].
        eapply Forall_impl; [exact Hx | ].
        intros y Hy. unfold priority_le in *. lia.
    + apply Z.leb_gt in Hle. constructor; [exact IH | ].
      apply insert_by_priority_Forall; [ | exact Hx].
      unfold priority_le. lia.
Qed.

Lemma sorted_sorted (l : list Branch) : StronglySorted priority_le (sorted l).
Proof.
  induction l as [ | b l IH]; simpl.
  - constructor.
  - apply insert_by_priority_sorted, IH.
Qed.

(** The sort is stable: the branches of one priority keep their order. *)
Lemma insert_by_priority_stable (p : Z) (b : Branch) (l : list Branch) :
  List.filter (fun x => Z.eqb (Branch_priority x) p) (insert_by_priority b l)
  = List.filter (fun x => Z.eqb (Branch_priority x) p) (b :: l).
Proof.
  induction l as [ | x l IH]; simpl.
  - reflexivity.
  - destruct (Branch_priority b <=? Branch_priority x)%Z eqn:Hle.
    + reflexivity.
    + apply Z.leb_gt in Hle. simpl. simpl in IH. rewrite IH.
      destruct (Z.eqb (Branch_priority b) p) eqn:Hb;
        destruct (Z.eqb (Branch_priority x) p) eqn:Hx; try reflexivity.
      apply Z.eqb_eq in Hb, Hx. lia.
Qed.

Lemma sorted_stable (p : Z) (l : list Branch) :
  List.filter (fun x => Z.eqb (Branch_priority x) p) (sorted l)
  = List.filter (fun x => Z.eqb (Branch_priority x) p) l.
Proof.
  induction l as [ | b l IH]; simpl.
  - reflexivity.
  - rewrite insert_by_priority_stable. simpl. rewrite IH. reflexivity.
Qed.

Section BranchProperties.
Variable validator : Validator.
Variable strategy : ActionExecutionStrategy.
Variable UUID_str : UUID -> string.
Variable self : Workflow.

Lemma Branch_execute_eq (branch : Branch) (output : ActionResult)
    (accumulator : gmap N value) :
  Branch.execute validator strategy branch output accumulator
  = ((if branch_passes validator strategy output accumulator branch
      then (Some (Branch_destination_id branch),
            Some (Branch_destination_type branch))
      else (None, None)),
     branch_signals validator strategy output accumulator branch).
Proof.
  unfold Branch.execute, branch_passes, branch_signals.
  destruct (Branch_condition branch) as [condition | ]; [ | reflexivity].
  destruct (ConditionalExpression.execute validator strategy condition
              (ActionResult_result output) accumulator) as [b sent].
  simpl. destruct b; simpl; rewrite app_nil_r; reflexivity.
Qed.

(** The branches in front of the first passing one are evaluated and fail;
    the passing one is evaluated and chosen; what follows it plays no
    part. *)
Lemma try_branches_first_match (pre post : list Branch) (branch : Branch)
    (output : ActionResult) (accumulator : gmap N value) :
  Forall (fun x => branch_passes validator strategy output accumulator x = false) pre ->
  branch_passes validator strategy output accumulator branch = true ->
  Workflow.try_branches validator strategy (pre ++ branch :: post) output accumulator
  = ((Some (Branch_destination_id branch), Some (Branch_destination_type branch)),
     concat (List.map (branch_signals validator strategy output accumulator) pre)
     ++ branch_signals validator strategy output accumulator branch).
Proof.
  intros Hpre Hb. induction Hpre as [ | x pre Hx Hpre IH]; simpl.
  - rewrite Branch_execute_eq, Hb. simpl. rewrite app_nil_r. reflexivity.
  - rewrite Branch_execute_eq, Hx. simpl. rewrite IH. simpl.
    rewrite app_assoc. reflexivity.
Qed.

Lemma try_branches_no_match (branches : list Branch) (output : ActionResult)
    (accumulator : gmap N value) :
  Forall (fun x => branch_passes validator strategy output accumulator x = false)
         branches ->
  Workflow.try_branches validator strategy branches output accumulator
  = ((None, None),
     concat (List.map (branch_signals validator strategy output accumulator) branches)).
Proof.
  induction 1 as [ | x l Hx Hl IH]; simpl.
  - reflexivity.
  - rewrite Branch_execute_eq, Hx. simpl. rewrite IH. reflexivity.
Qed.

(** A list of branches either has a first passing branch or none at all. *)
Lemma first_passing_branch (branches : list Branch) (output : ActionResult)
    (accumulator : gmap N value) :
  (exists pre branch post,
     branches = pre ++ branch :: post /\
     Forall (fun x => branch_passes validator strategy output accumulator x = false)
            pre /\
     branch_passes validator strategy output accumulator branch = true) \/
  Forall (fun x => branch_passes validator strategy output accumulator x = false)
         branches.
Proof.
  induction branches as [ | x l IH].
  - right. constructor.
  - destruct (branch_passes validator strategy output accumulator x) eqn:Hx.
    + left. exists [], x, l. repeat split; [constructor | exact Hx].
    + destruct IH as [(pre & b & post & -> & Hpre & Hb) | Hall].
      * left. exists (x :: pre), b, post.
        repeat split; [constructor; assumption | exact Hb].
      * right. constructor; assumption.
Qed.

Lemma get_branch_eq (current_action : Action) (output : ActionResult)
    (accumulator : gmap N value) :
  Workflow.get_branch validator strategy self current_action output accumulator
  = Workflow.try_branches validator strategy
      (sorted (Workflow.__get_branches_by_action_id self (Action_id current_action)))
      output accumulator.
Proof.
  unfold Workflow.get_branch, Workflow.__get_branches_by_action_id.
  destruct (Workflow_branches self); reflexivity.
Qed.

Lemma get_branches_by_action_id_In (id_ : UUID) (branch : Branch) :
  In branch (Workflow.__get_branches_by_action_id self id_) <->
  In branch (Workflow_branches self) /\ Branch_source_id branch = id_.
Proof.
  unfold Workflow.__get_branches_by_action_id. rewrite filter_In.
  rewrite N.eqb_eq. reflexivity.
Qed.

(** After the result of a node is recorded: the node found from the chosen
    destination is the next one, and without a destination the loop is
    over, the instances are shut down, [WorkflowShutdown] is sent and the
    last result is yielded. *)
Lemma record_result_eq (fuel : nat) (action : Action) (output : ActionResult)
    (locals : Locals) (st : State) (repo : list UUID) :
  _instance_repo st = Some repo ->
  let accumulator :=
    <[Action_id action := ActionResult_result output]> (_accumulator st) in
  let chosen :=
    Workflow.get_branch validator strategy self action output accumulator in
  let st' := emit (snd chosen) (set_accumulator accumulator st) in
  let locals' :=
    mkLocals (start_arguments locals) (resume locals) (ActionResult_result output) in
  Workflow.record_result validator strategy self
    (Workflow.loop validator strategy UUID_str self fuel) action output locals st
  = match fst (fst chosen) with
    | None =>
        Yielded (ActionResult_result output) AfterResult
          (emit [mkSignal (Workflow_id self) WorkflowShutdown
                   (Some (Workflow.snapshot UUID_str accumulator))]
             (set_instance_repo (Some []) st'))
    | Some id =>
        Workflow.loop validator strategy UUID_str self fuel
          (if bool_decide (snd (fst chosen) = Some "action")
           then Workflow.get_action_by_id self id
           else Workflow.get_child_workflow_by_id self id)
          locals' st'
    end.
Proof.
  intros Hrepo accumulator chosen st' locals'.
  unfold Workflow.record_result, Workflow.next_executable_after. simpl.
  fold accumulator. fold chosen.
  destruct chosen as [[next_id next_type] sent]. simpl.
  destruct next_id as [id | ].
  - subst st'. simpl. destruct (bool_decide (next_type = Some "action")); reflexivity.
  - subst st'. simpl. destruct fuel; simpl;
      unfold Workflow.after_loop, Workflow.__shutdown; simpl;
      rewrite Hrepo; reflexivity.
Qed.

(** C3.  The branches considered after a node are exactly those of the
    workflow whose source is the node, in ascending order of priority
    (branches of equal priority in their order in the workflow).  They are
    evaluated in that order up to the first whose conditional expression
    evaluates true: its destination id and kind are chosen, the signals
    sent are those of the branches up to and including it, and the branches
    behind it are not evaluated.  The next iteration of the loop is then on
    the first action with that destination id (the first child workflow,
    for a destination of another kind); when there is none with that id the
    loop ends.  When no branch passes, the loop ends: the run is
    completed, [WorkflowShutdown] is sent and the last result is
    yielded. *)
Theorem next_node_is_first_passing_branch (current_action : Action)
    (output : ActionResult) (accumulator : gmap N value) :
  let branches :=
    sorted (Workflow.__get_branches_by_action_id self (Action_id current_action)) in
  let passes := branch_passes validator strategy output accumulator in
  let sent := branch_signals validator strategy output accumulator in
  (forall branch,
     In branch branches <->
     In branch (Workflow_branches self) /\
     Branch_source_id branch = Action_id current_action) /\
  Permutation branches
    (List.filter (fun branch => N.eqb (Branch_source_id branch) (Action_id current_action))
                 (Workflow_branches self)) /\
  StronglySorted priority_le branches /\
  (forall p,
     List.filter (fun x => Z.eqb (Branch_priority x) p) branches
     = List.filter (fun x => Z.eqb (Branch_priority x) p)
         (List.filter (fun branch => N.eqb (Branch_source_id branch) (Action_id current_action))
                      (Workflow_branches self))) /\
  ((exists pre branch post,
      branches = pre ++ branch :: post /\
      Forall (fun x => passes x = false) pre /\
      passes branch = true /\
      Workflow.get_branch validator strategy self current_action output accumulator
      = ((Some (Branch_destination_id branch), Some (Branch_destination_type branch)),
         concat (List.map sent pre) ++ sent branch) /\
      Workflow.try_branches validator strategy (pre ++ [branch]) output accumulator
      = Workflow.get_branch validator strategy self current_action output accumulator) \/
   (Forall (fun x => passes x = false) branches /\
    Workflow.get_branch validator strategy self current_action output accumulator
    = ((None, None), concat (List.map sent branches)))) /\
  (forall fuel locals st repo,
     _instance_repo st = Some repo ->
     accumulator
     = <[Action_id current_action := ActionResult_result output]> (_accumulator st) ->
     let next :=
       Workflow.record_result validator strategy self
         (Workflow.loop validator strategy UUID_str self fuel)
         current_action output locals st in
     let locals' :=
       mkLocals (start_arguments locals) (resume locals) (ActionResult_result output) in
     let after_branches evaluated :=
       emit (concat (List.map sent evaluated)) (set_accumulator accumulator st) in
     let completed evaluated :=
       Yielded (ActionResult_result output) AfterResult
         (emit [mkSignal (Workflow_id self) WorkflowShutdown
                  (Some (Workflow.snapshot UUID_str accumulator))]
            (set_instance_repo (Some []) (after_branches evaluated))) in
     (forall pre branch post,
        branches = pre ++ branch :: post ->
        Forall (fun x => passes x = false) pre ->
        passes branch = true ->
        let candidates :=
          if String.eqb (Branch_destination_type branch) "action"
          then Workflow_actions self else Workflow_child_workflows self in
        (forall before node behind,
           candidates = before ++ node :: behind ->
           Forall (fun x => Action_id x <> Branch_destination_id branch) before ->
           Action_id node = Branch_destination_id branch ->
           next
           = Workflow.loop validator strategy UUID_str self fuel (Some node) locals'
               (after_branches (pre ++ [branch]))) /\
        (Forall (fun x => Action_id x <> Branch_destination_id branch) candidates ->
         next = completed (pre ++ [branch]))) /\
     (Forall (fun x => passes x = false) branches ->
      next = completed branches)).
Proof.
  intros branches passes sent.
  split; [ | split; [ | split; [ | split; [ | split]]]].
  - intros branch. unfold branches.
    rewrite <- get_branches_by_action_id_In. split; intros H.
    + eapply Permutation_in; [apply sorted_perm | exact H].
    + eapply Permutation_in; [apply Permutation_sym, sorted_perm | exact H].
  - apply sorted_perm.
  - apply sorted_sorted.
  - intros p. apply sorted_stable.
  - rewrite get_branch_eq. fold branches.
    destruct (first_passing_branch branches output accumulator)
      as [(pre & b & post & Heq & Hpre & Hb) | Hall].
    + left. exists pre, b, post. rewrite Heq.
      rewrite (try_branches_first_match pre post b) by assumption.
      rewrite (try_branches_first_match pre [] b) by assumption.
      repeat split; assumption.
    + right. split; [exact Hall | ]. apply try_branches_no_match, Hall.
  - intros fuel locals st repo Hrepo Hacc next locals' after_branches completed.
    assert (Hnext := record_result_eq fuel current_action output locals st repo Hrepo).
    cbv zeta in Hnext. rewrite <- Hacc in Hnext. fold next locals' in Hnext.
    assert (Hend : forall sent0,
              Workflow.loop validator strategy UUID_str self fuel None locals'
                (emit sent0 (set_accumulator accumulator st))
              = Yielded (ActionResult_result output) AfterResult
                  (emit [mkSignal (Workflow_id self) WorkflowShutdown
                           (Some (Workflow.snapshot UUID_str accumulator))]
                     (set_instance_repo (Some [])
                        (emit sent0 (set_accumulator accumulator st))))).
    { intros sent0. destruct fuel; simpl;
        unfold Workflow.after_loop, Workflow.__shutdown; simpl;
        rewrite Hrepo; reflexivity. }
    split.
    + intros pre branch post Heq Hpre Hb candidates.
      assert (Hsent : concat (List.map sent (pre ++ [branch]))
                      = concat (List.map sent pre) ++ sent branch).
      { rewrite map_app, concat_app. simpl. rewrite app_nil_r. reflexivity. }
      rewrite get_branch_eq in Hnext. fold branches in Hnext.
      rewrite Heq, (try_branches_first_match pre post branch) in Hnext
        by assumption.
      simpl in Hnext. fold sent in Hnext. rewrite <- Hsent in Hnext.
      fold (after_branches (pre ++ [branch])) in Hnext.
      assert (Hkind : bool_decide (Some (Branch_destination_type branch)
                                   = Some "action")
                      = String.eqb (Branch_destination_type branch) "action").
      { destruct (String.eqb_spec (Branch_destination_type branch) "action")
          as [-> | Hne].
        - apply bool_decide_eq_true_2. reflexivity.
        - apply bool_decide_eq_false_2. congruence. }
      rewrite Hkind in Hnext.
      assert (Hfind :
                (if String.eqb (Branch_destination_type branch) "action"
                 then Workflow.get_action_by_id self (Branch_destination_id branch)
                 else Workflow.get_child_workflow_by_id self
                        (Branch_destination_id branch))
                = List.find (fun x => N.eqb (Action_id x) (Branch_destination_id branch))
                            candidates).
      { unfold candidates.
        destruct (String.eqb (Branch_destination_type branch) "action");
          reflexivity. }
      rewrite Hfind in Hnext. split.
      * intros before node behind Hc Hbefore Hid. rewrite Hnext, Hc. f_equal.
        clear - Hbefore Hid. induction Hbefore as [ | x l Hx Hl IH]; simpl.
        -- rewrite Hid, N.eqb_refl. reflexivity.
        -- apply N.eqb_neq in Hx. rewrite Hx. exact IH.
      * intros Hnone. rewrite Hnext.
        assert (Hf : List.find
                       (fun x => N.eqb (Action_id x) (Branch_destination_id branch))
                       candidates = None).
        { clear - Hnone. induction Hnone as [ | x l Hx Hl IH]; simpl;
            [reflexivity | ].
          apply N.eqb_neq in Hx. rewrite Hx. exact IH. }
        rewrite Hf. apply Hend.
    + intros Hall. rewrite get_branch_eq in Hnext. fold branches in Hnext.
      rewrite (try_branches_no_match branches) in Hnext by exact Hall.
      exact Hnext.
Qed.
End BranchProperties.

(** Branches of priorities 5, 1 and 3 that all pass: the destination of the
    branch of priority 1 is chosen and only that branch is evaluated. *)
Example three_branches_choice :
  Workflow.get_branch accept_all (constant_strategy (VBool true)) three_branches
    (constant_action 1 (VInt 0)) (mkActionResult (VInt 0) "Success") ∅
  = ((Some 6%N, Some "action"), [mkSignal 31%N ConditionalExpressionTrue None]).
Proof. reflexivity. Qed.

(** The whole run of [three_branches]: the first action, then the
    destination of the branch of priority 1, where the run completes. *)
Example three_branches_run :
  exists st',
    Workflow.execute accept_all (constant_strategy (VBool true)) sample_str
      three_branches 5 "e1" None None false (Workflow.init_on_load three_branches)
    = Return (VInt 6) st' /\
    _executing_action st' = Some 6%N /\
    _accumulator st' !! 1%N = Some (VInt 0) /\
    _accumulator st' !! 6%N = Some (VInt 6) /\
    _accumulator st' !! 5%N = None /\
    _accumulator st' !! 7%N = None.
Proof. eexists. repeat split; vm_compute; reflexivity. Qed.

(** C3 on the sample run: after the first action of [two_actions] its
    branch passes and the loop goes on at the second action. *)
Lemma next_node_is_first_passing_branch_witness :
  Workflow.record_result accept_all (constant_strategy (VBool true)) two_actions
    (Workflow.loop accept_all (constant_strategy (VBool true)) sample_str
       two_actions 1)
    (constant_action 1 (VStr "hello")) (mkActionResult (VStr "hello") "Success")
    (mkLocals None false VNone) (Workflow.init_on_load two_actions)
  = Workflow.loop accept_all (constant_strategy (VBool true)) sample_str
      two_actions 1 (Some (constant_action 2 (VInt 46)))
      (mkLocals None false (VStr "hello"))
      (emit [mkSignal 11%N ConditionalExpressionTrue None]
         (set_accumulator
            (<[1%N := VStr "hello"]> (branch_counters (Workflow_branches two_actions)))
            (Workflow.init_on_load two_actions))).
Proof.
  apply (proj1
           (proj1
              (proj2 (proj2 (proj2 (proj2 (proj2
                 (next_node_is_first_passing_branch accept_all
                    (constant_strategy (VBool true)) sample_str two_actions
                    (constant_action 1 (VStr "hello"))
                    (mkActionResult (VStr "hello") "Success")
                    (<[1%N := VStr "hello"]>
                       (branch_counters (Workflow_branches two_actions))))))))
                 1%nat (mkLocals None false VNone)
                 (Workflow.init_on_load two_actions) [] eq_refl eq_refl)
              [] (mkBranch 10 1 2 "action" 1%Z (Some (empty_and 11))) []
              eq_refl ltac:(constructor) eq_refl)
           [constant_action 1 (VStr "hello")] (constant_action 2 (VInt 46)) []
           eq_refl ltac:(repeat constructor; discriminate) eq_refl).
Defined.

(** ** C8: the receive loop *)

Section ReceiverProperties.
Variable to_event_callback :
  list Byte.byte ->
  Exception + (option WalkoffEvent * option (gmap string value) * value).

Lemma send_callback_eq (self : ZmqWorkflowResultsReceiver.t)
    (message_bytes : list Byte.byte) :
  ZmqWorkflowResultsReceiver._send_callback to_event_callback self message_bytes
  = match to_event_callback message_bytes with
    | inl e => inl e
    | inr _ =>
        inr match received_event to_event_callback message_bytes with
            | Some received =>
                ZmqWorkflowResultsReceiver.mk
                  (ZmqWorkflowResultsReceiver.thread_exit self)
                  (ZmqWorkflowResultsReceiver.workflows_executed self
                   + (if ends_execution received then 1 else 0))
                  (ZmqWorkflowResultsReceiver.republished self ++ [received])
                  (ZmqWorkflowResultsReceiver.socket_closed self)
            | None => self
            end
    end.
Proof.
  unfold ZmqWorkflowResultsReceiver._send_callback, received_event.
  destruct (to_event_callback message_bytes)
    as [e | [[[event | ] [sender | ]] data]]; try reflexivity.
  destruct self as [ex n rep cl].
  destruct event; simpl; rewrite ?Z.add_0_r; reflexivity.
Qed.

Lemma until_raise_cons (message_bytes : list Byte.byte)
    (rest : list (list Byte.byte)) :
  until_raise to_event_callback (message_bytes :: rest)
  = match to_event_callback message_bytes with
    | inl e => ([], Some e)
    | inr _ =>
        (message_bytes :: fst (until_raise to_event_callback rest),
         snd (until_raise to_event_callback rest))
    end.
Proof.
  simpl. destruct (to_event_callback message_bytes); [reflexivity | ].
  destruct (until_raise to_event_callback rest). reflexivity.
Qed.

Lemma until_raise_None (message_list : list (list Byte.byte)) :
  snd (until_raise to_event_callback message_list) = None <->
  forall message_bytes,
    In message_bytes message_list ->
    exists triple, to_event_callback message_bytes = inr triple.
Proof.
  induction message_list as [ | m l IH]; [simpl; split; [intros _ x [] | reflexivity] | ].
  rewrite until_raise_cons. destruct (to_event_callback m) as [e | triple] eqn:E; simpl.
  - split; [discriminate | ]. intros H.
    destruct (H m (or_introl eq_refl)) as [t Ht]. congruence.
  - rewrite IH. split.
    + intros H x [<- | Hx]; [exists triple; exact E | apply H, Hx].
    + intros H x Hx. apply H. right. exact Hx.
Qed.

Lemma receive_results_polling (env : list Tick) (self : ZmqWorkflowResultsReceiver.t) :
  ZmqWorkflowResultsReceiver.thread_exit self = false ->
  Forall (fun tick => exit_requested tick = false) env ->
  let converted := fst (until_raise to_event_callback (messages env)) in
  let raised := snd (until_raise to_event_callback (messages env)) in
  let received := omap (received_event to_event_callback) converted in
  ZmqWorkflowResultsReceiver.receive_results to_event_callback env self
  = (match raised with None => Polling | Some e => Propagated e end,
     ZmqWorkflowResultsReceiver.mk false
       (ZmqWorkflowResultsReceiver.workflows_executed self
        + Z.of_nat (length (List.filter ends_execution received)))
       (ZmqWorkflowResultsReceiver.republished self ++ received)
       (ZmqWorkflowResultsReceiver.socket_closed self)).
Proof.
  intros Hexit Henv. revert self Hexit.
  induction Henv as [ | tick env Htick Henv IH]; intros self Hexit; simpl.
  - destruct self as [ex n rep cl]. simpl in *. subst ex.
    rewrite Z.add_0_r, app_nil_r. reflexivity.
  - rewrite Htick, Hexit. unfold messages. simpl. fold (messages env).
    destruct (poll tick) as [ | message_bytes].
    + apply IH, Hexit.
    + rewrite until_raise_cons, send_callback_eq.
      destruct (to_event_callback message_bytes) as [e | triple] eqn:E.
      * simpl. destruct self as [ex n rep cl]. simpl in *. subst ex.
        rewrite Z.add_0_r, app_nil_r. reflexivity.
      * rewrite IH.
        2:{ destruct (received_event to_event_callback message_bytes);
              simpl; exact Hexit. }
        simpl.
        destruct (received_event to_event_callback message_bytes) as [received | ];
          simpl; [ | reflexivity].
        rewrite <- app_assoc. simpl.
        destruct (ends_execution received); simpl; f_equal; f_equal;
          unfold omap; rewrite ?Nat2Z.inj_succ; lia.
Qed.

(** C8.  While no exit is requested, the receive loop goes through its
    iterations for as long as the converter returns, and is then still
    polling.  A message for which the converter returns no event or no
    sender is discarded: it changes nothing.  The other messages are
    republished in order, and the count of executed workflows grows by one
    exactly for the received events [WorkflowShutdown] and
    [WorkflowAborted].  An exception that the converter raises on a message
    is not caught: it leaves [receive_results] at that message, whatever
    comes behind it; nothing of that message is republished or counted and
    the socket is not closed. *)
Theorem receive_loop_continues_while_converter_returns (env : list Tick)
    (self : ZmqWorkflowResultsReceiver.t) :
  ZmqWorkflowResultsReceiver.thread_exit self = false ->
  Forall (fun tick => exit_requested tick = false) env ->
  let converted := fst (until_raise to_event_callback (messages env)) in
  let raised := snd (until_raise to_event_callback (messages env)) in
  let received := omap (received_event to_event_callback) converted in
  ZmqWorkflowResultsReceiver.receive_results to_event_callback env self
  = (match raised with None => Polling | Some e => Propagated e end,
     ZmqWorkflowResultsReceiver.mk false
       (ZmqWorkflowResultsReceiver.workflows_executed self
        + Z.of_nat (length (List.filter ends_execution received)))
       (ZmqWorkflowResultsReceiver.republished self ++ received)
       (ZmqWorkflowResultsReceiver.socket_closed self)) /\
  (raised = None <->
   forall message_bytes,
     In message_bytes (messages env) ->
     exists triple, to_event_callback message_bytes = inr triple) /\
  (forall message_bytes triple,
     to_event_callback message_bytes = inr triple ->
     received_event to_event_callback message_bytes = None ->
     ZmqWorkflowResultsReceiver._send_callback to_event_callback self message_bytes
     = inr self) /\
  (forall message_bytes e rest,
     to_event_callback message_bytes = inl e ->
     ZmqWorkflowResultsReceiver._send_callback to_event_callback self message_bytes
     = inl e /\
     ZmqWorkflowResultsReceiver.receive_results to_event_callback
       (mkTick false (Received message_bytes) :: rest) self
     = (Propagated e, self)) /\
  (forall message_bytes self',
     ZmqWorkflowResultsReceiver._send_callback to_event_callback self message_bytes
     = inr self' ->
     (ZmqWorkflowResultsReceiver.workflows_executed self'
      = (ZmqWorkflowResultsReceiver.workflows_executed self + 1)%Z <->
      exists event sender data,
        to_event_callback message_bytes = inr (Some event, Some sender, data) /\
        (event = WorkflowShutdown \/ event = WorkflowAborted)) /\
     (ZmqWorkflowResultsReceiver.workflows_executed self'
      = (ZmqWorkflowResultsReceiver.workflows_executed self + 1)%Z \/
      ZmqWorkflowResultsReceiver.workflows_executed self'
      = ZmqWorkflowResultsReceiver.workflows_executed self)).
Proof.
  intros Hexit Henv converted raised received.
  split; [ | split; [ | split; [ | split]]].
  - apply receive_results_polling; assumption.
  - apply until_raise_None.
  - intros message_bytes triple Hconv H. rewrite send_callback_eq, Hconv, H.
    reflexivity.
  - intros message_bytes e rest Hconv.
    assert (Hsend : ZmqWorkflowResultsReceiver._send_callback to_event_callback self
                      message_bytes = inl e)
      by (rewrite send_callback_eq, Hconv; reflexivity).
    split; [exact Hsend | ]. simpl. rewrite Hexit, Hsend. reflexivity.
  - intros message_bytes self'. rewrite send_callback_eq. unfold received_event.
    destruct (to_event_callback message_bytes)
      as [e | [[[event | ] [sender | ]] data]]; [discriminate | | | | ];
      intros [= <-]; simpl.
    + unfold ends_execution. simpl. split.
      * split.
        -- intros H. exists event, sender, data. split; [reflexivity | ].
           destruct event; simpl in H; try lia; auto.
        -- intros (ev & s & d & Heq & He). inversion Heq; subst.
           destruct He; subst; reflexivity.
      * destruct event; simpl; auto; right; lia.
    + split; [ | right; reflexivity].
      split; [lia | intros (ev & s & d & Heq & _); discriminate].
    + split; [ | right; reflexivity].
      split; [lia | intros (ev & s & d & Heq & _); discriminate].
    + split; [ | right; reflexivity].
      split; [lia | intros (ev & s & d & Heq & _); discriminate].
Qed.
End ReceiverProperties.

(** C8 as stated fails: with a converter that raises on bytes that are no
    message, the exception leaves the loop at the first message, and the
    shutdown event behind it is never received. *)
Lemma malformed_message_ends_receive_loop_counterexample :
  ZmqWorkflowResultsReceiver.receive_results strict_converter
    [mkTick false (Received [Byte.xff; Byte.x00]);
     mkTick false (Received [Byte.x01])]
    ZmqWorkflowResultsReceiver.__init__
  = (Propagated (DecodeError "Error parsing message"),
     ZmqWorkflowResultsReceiver.__init__).
Proof. reflexivity. Qed.

(** C8 on five iterations: an empty poll, a shutdown event, a message for
    which the converter returns no event, a paused event and an aborted
    event. *)
Lemma receive_loop_continues_while_converter_returns_witness :
  ZmqWorkflowResultsReceiver.receive_results sample_converter
    [mkTick false ZMQError;
     mkTick false (Received [Byte.x01]);
     mkTick false (Received [Byte.xff; Byte.x00]);
     mkTick false (Received [Byte.x03]);
     mkTick false (Received [Byte.x02])]
    ZmqWorkflowResultsReceiver.__init__
  = (Polling,
     ZmqWorkflowResultsReceiver.mk false 2
       [(WorkflowShutdown, ∅, VNone); (WorkflowPaused, ∅, VNone);
        (WorkflowAborted, ∅, VNone)]
       false).
Proof.
  apply (proj1 (receive_loop_continues_while_converter_returns sample_converter
                  [mkTick false ZMQError;
                   mkTick false (Received [Byte.x01]);
                   mkTick false (Received [Byte.xff; Byte.x00]);
                   mkTick false (Received [Byte.x03]);
                   mkTick false (Received [Byte.x02])]
                  ZmqWorkflowResultsReceiver.__init__ eq_refl
                  ltac:(repeat constructor))).
Defined.

(** ** C9: pausing an execution *)

Lemma pause_workflow_without_status (self : MultiprocessedExecutor.t)
    (execution_id : string) :
  MultiprocessedExecutor.query_first self execution_id = None ->
  MultiprocessedExecutor.pause_workflow self execution_id
  = MultiprocessedExecutor.Raises
      (AttributeError "'NoneType' object has no attribute '__dict__'") self.
Proof.
  intros H. unfold MultiprocessedExecutor.pause_workflow. rewrite H. reflexivity.
Qed.

Lemma pause_workflow_with_status (self : MultiprocessedExecutor.t)
    (execution_id : string) (row : WorkflowStatus) :
  MultiprocessedExecutor.query_first self execution_id = Some row ->
  MultiprocessedExecutor.pause_workflow self execution_id
  = if bool_decide (WorkflowStatus_status row = running)
    then MultiprocessedExecutor.Returns true
           (MultiprocessedExecutor.manager_pause_workflow self execution_id)
    else MultiprocessedExecutor.Returns false self.
Proof.
  intros H. unfold MultiprocessedExecutor.pause_workflow. rewrite H. reflexivity.
Qed.

(** C9 at an execution id without a status row: [pause_workflow] does not
    return [False], it raises [AttributeError] from the [print] in front of
    the test of the row. *)
Theorem pause_workflow_unknown_execution_raises :
  MultiprocessedExecutor.pause_workflow (MultiprocessedExecutor.mk [] []) "e1"
  = MultiprocessedExecutor.Raises
      (AttributeError "'NoneType' object has no attribute '__dict__'")
      (MultiprocessedExecutor.mk [] []).
Proof. apply pause_workflow_without_status. reflexivity. Qed.

(** ** C10: the accumulator starts with the branch counters *)

Lemma branch_counters_from (l : list Branch) (m : gmap N value) (k : N) :
  foldl (fun acc branch => <[Branch_id branch := VInt 0]> acc) m l !! k
  = if existsb (fun b => N.eqb (Branch_id b) k) l then Some (VInt 0) else m !! k.
Proof.
  revert m. induction l as [ | b l IH]; intros m; simpl; [reflexivity | ].
  rewrite IH. destruct (existsb _ l); [rewrite orb_true_r; reflexivity | ].
  rewrite orb_false_r. destruct (N.eqb_spec (Branch_id b) k) as [-> | Hne].
  - apply lookup_insert_eq.
  - apply lookup_insert_ne. exact Hne.
Qed.

Lemma branch_counters_lookup (l : list Branch) (k : N) :
  branch_counters l !! k
  = if existsb (fun b => N.eqb (Branch_id b) k) l then Some (VInt 0) else None.
Proof. unfold branch_counters. rewrite branch_counters_from. reflexivity. Qed.

Lemma branch_counters_In (l : list Branch) (b : Branch) :
  In b l -> branch_counters l !! Branch_id b = Some (VInt 0).
Proof.
  intros Hin. rewrite branch_counters_lookup.
  assert (H : existsb (fun x => N.eqb (Branch_id x) (Branch_id b)) l = true).
  { apply existsb_exists. exists b. split; [exact Hin | apply N.eqb_refl]. }
  rewrite H. reflexivity.
Qed.

Section AccumulatorProperties.
Variable validator : Validator.
Variable strategy : ActionExecutionStrategy.
Variable UUID_str : UUID -> string.
Variable self : Workflow.

Lemma get_action_by_id_In (id : UUID) (action : Action) :
  Workflow.get_action_by_id self id = Some action ->
  In action (nodes self).
Proof.
  intros H. apply find_some in H. apply in_or_app. left. apply H.
Qed.

Lemma get_child_workflow_by_id_In (id : UUID) (workflow : Action) :
  Workflow.get_child_workflow_by_id self id = Some workflow ->
  In workflow (nodes self).
Proof.
  intros H. apply find_some in H. apply in_or_app. right. apply H.
Qed.

Lemma first_executable_In (start : UUID) (action : Action) :
  Workflow.first_executable self start = Some action ->
  In action (nodes self).
Proof.
  unfold Workflow.first_executable.
  destruct (Workflow.get_action_by_id self start) as [a | ] eqn:Ha.
  - intros [= <-]. eapply get_action_by_id_In, Ha.
  - apply get_child_workflow_by_id_In.
Qed.

(** Resolving the next node only sends signals. *)
Lemma next_executable_after_spec (action : Action) (output : ActionResult)
    (st : State) :
  let r := Workflow.next_executable_after validator strategy self action output st in
  _accumulator (snd r) = _accumulator st /\
  _executing_action (snd r) = _executing_action st /\
  (exists sent, signals (snd r) = signals st ++ sent) /\
  (forall next, fst r = Some next -> In next (nodes self)).
Proof.
  unfold Workflow.next_executable_after.
  destruct (Workflow.get_branch validator strategy self action output
              (_accumulator st)) as [[next_id next_type] sent].
  destruct next_id as [id | ]; simpl.
  - destruct (bool_decide (next_type = Some "action")); simpl;
      (split; [reflexivity | split; [reflexivity | split; [eexists; reflexivity | ]]]).
    + intros next. apply get_action_by_id_In.
    + intros next. apply get_child_workflow_by_id_In.
  - split; [reflexivity | split; [reflexivity | split; [eexists; reflexivity | ]]].
    intros next [=].
Qed.

(** An iteration that ends in the last [yield] has called its node and
    recorded the output. *)
Lemma body_completed (loop : option Action -> Locals -> State -> Next)
    (action : Action) (locals : Locals) (st : State) (v : value) (st' : State) :
  Workflow.body validator strategy self loop action locals st
  = Yielded v AfterResult st' ->
  exists repo inst locals1,
    let output :=
      snd (Action_execute action (_accumulator st) (start_arguments locals)
             (resume locals) inst) in
    Workflow.record_result validator strategy self loop action output locals1
      (set_instance_repo (Some repo)
         (set_executing_action (Some (Action_id action)) st))
    = Yielded v AfterResult st'.
Proof.
  unfold Workflow.body. simpl.
  destruct (_is_paused st); [discriminate | ].
  unfold Workflow.check_abort. simpl.
  destruct (_abort st); [discriminate | ].
  unfold Workflow.invoke. simpl.
  destruct (_instance_repo st) as [repo | ]; [ | discriminate].
  destruct (setup_app_instance repo action) as [device_id repo'].
  simpl.
  destruct (Action_execute action (_accumulator st) (start_arguments locals)
              (resume locals) device_id) as [result output] eqn:Hcall.
  assert (Hout : output
                 = snd (Action_execute action (_accumulator st)
                          (start_arguments locals) (resume locals) device_id))
    by (rewrite Hcall; reflexivity).
  destruct result as [r | ].
  - destruct (bool_decide (ActionResult_status r = "trigger")); [discriminate | ].
    intros H. eexists repo', device_id, _. simpl. rewrite <- Hout. exact H.
  - intros H. eexists repo', device_id, _. simpl. rewrite <- Hout. exact H.
Qed.

Lemma seeded_or_result_insert (accumulator : gmap N value) (action : Action)
    (acc_in : gmap N value) (args : option (list Argument)) (r : bool)
    (inst : option UUID) :
  In action (nodes self) ->
  seeded_or_result self accumulator ->
  seeded_or_result self
    (<[Action_id action :=
         ActionResult_result (snd (Action_execute action acc_in args r inst))]>
       accumulator).
Proof.
  intros Hin Hacc k. destruct (N.eq_dec (Action_id action) k) as [<- | Hne].
  - right. exists action, acc_in, args, r, inst.
    split; [exact Hin | split; [reflexivity | apply lookup_insert_eq]].
  - rewrite lookup_insert_ne by exact Hne. apply Hacc.
Qed.

(** A run that reaches the last [yield]: what the accumulator holds and
    what has been sent. *)
Lemma loop_completed (P : Prop) (fuel : nat) :
  forall (next_executable : option Action) (locals : Locals) (st : State)
         (v : value) (st' : State),
    (forall action, next_executable = Some action -> In action (nodes self)) ->
    seeded_or_result self (_accumulator st) ->
    (P -> next_executable = None ->
     forall id, _executing_action st = Some id ->
                _accumulator st !! id = Some (last_result locals)) ->
    Workflow.loop validator strategy UUID_str self fuel next_executable locals st
    = Yielded v AfterResult st' ->
    seeded_or_result self (_accumulator st') /\
    (forall k, is_Some (_accumulator st !! k) -> is_Some (_accumulator st' !! k)) /\
    (exists sent,
       signals st'
       = signals st ++ sent ++
         [mkSignal (Workflow_id self) WorkflowShutdown
            (Some (Workflow.snapshot UUID_str (_accumulator st')))]) /\
    (P -> forall id, _executing_action st' = Some id ->
                     _accumulator st' !! id = Some v).
Proof.
  induction fuel as [ | fuel IH]; intros next_executable locals st v st' Hnode Hacc Hlast.
  - destruct next_executable as [action | ]; simpl; [discriminate | ].
    unfold Workflow.after_loop, Workflow.__shutdown.
    destruct (_instance_repo st); [ | discriminate].
    intros [= <- <-]. simpl.
    split; [exact Hacc | split; [auto | split; [exists []; reflexivity | ]]].
    intros HP. apply Hlast; [exact HP | reflexivity].
  - destruct next_executable as [action | ]; simpl.
    + intros H. apply body_completed in H.
      destruct H as (repo & inst & locals1 & H). simpl in H.
      unfold Workflow.record_result in H.
      match type of H with
      | context [Workflow.next_executable_after ?v ?s ?w ?a ?o ?t] =>
          pose proof (next_executable_after_spec a o t) as Hnext;
          destruct (Workflow.next_executable_after v s w a o t) as [next st1]
      end.
      simpl in Hnext. destruct Hnext as (Hacc1 & Hexe1 & [sent1 Hsig1] & Hnode1).
      apply IH in H.
      * destruct H as (Hseed & Hmono & [sent Hsig] & Hres).
        split; [exact Hseed | split; [ | split; [ | exact Hres]]].
        -- intros k Hk. apply Hmono. rewrite Hacc1.
           apply lookup_insert_is_Some'. right. exact Hk.
        -- exists (sent1 ++ sent). rewrite Hsig, Hsig1. simpl.
           rewrite <- !app_assoc. reflexivity.
      * exact Hnode1.
      * rewrite Hacc1. apply seeded_or_result_insert; [ | exact Hacc].
        apply Hnode. reflexivity.
      * intros _ _ id. rewrite Hexe1, Hacc1. simpl. intros [= <-].
        apply lookup_insert_eq.
    + unfold Workflow.after_loop, Workflow.__shutdown.
      destruct (_instance_repo st); [ | discriminate].
      intros [= <- <-]. simpl.
      split; [exact Hacc | split; [auto | split; [exists []; reflexivity | ]]].
      intros HP. apply Hlast; [exact HP | reflexivity].
Qed.

Lemma snapshot_kmap (accumulator : gmap N value) :
  Workflow.snapshot UUID_str accumulator = kmap UUID_str accumulator.
Proof. reflexivity. Qed.

Lemma snapshot_is_Some (accumulator : gmap N value) (k : N) :
  is_Some (accumulator !! k) ->
  is_Some (Workflow.snapshot UUID_str accumulator !! UUID_str k).
Proof.
  intros [x Hx]. apply not_eq_None_Some. intros Hnone.
  unfold Workflow.snapshot in Hnone. apply not_elem_of_list_to_map in Hnone.
  apply Hnone. rewrite <- list_fmap_compose. apply list_elem_of_fmap.
  exists (k, x). split; [reflexivity | ]. apply elem_of_map_to_list. exact Hx.
Qed.

Lemma snapshot_lookup (accumulator : gmap N value) (k : N) :
  (forall x y, UUID_str x = UUID_str y -> x = y) ->
  Workflow.snapshot UUID_str accumulator !! UUID_str k = accumulator !! k.
Proof.
  intros Hinj. rewrite snapshot_kmap.
  apply (lookup_kmap (M1 := gmap N) (M2 := gmap string) UUID_str (Inj0 := Hinj)).
Qed.
End AccumulatorProperties.

Lemma recorded_mono (trace : list (Action * ActionResult))
    (accumulator : gmap N value) (k : N) :
  is_Some (accumulator !! k) -> is_Some (recorded trace accumulator !! k).
Proof.
  revert accumulator. induction trace as [ | step trace IH]; intros accumulator H;
    [exact H | ].
  change (recorded (step :: trace) accumulator)
    with (recorded trace
            (<[Action_id (fst step) := ActionResult_result (snd step)]> accumulator)).
  apply IH. apply lookup_insert_is_Some'. right. exact H.
Qed.

Lemma recorded_is_Some (trace : list (Action * ActionResult))
    (accumulator : gmap N value) (step : Action * ActionResult) :
  In step trace -> is_Some (recorded trace accumulator !! Action_id (fst step)).
Proof.
  revert accumulator.
  induction trace as [ | x trace IH]; intros accumulator; [intros [] | ].
  change (recorded (x :: trace) accumulator)
    with (recorded trace
            (<[Action_id (fst x) := ActionResult_result (snd x)]> accumulator)).
  intros [-> | Hin].
  - apply recorded_mono. apply lookup_insert_is_Some'. left. reflexivity.
  - apply IH, Hin.
Qed.

Lemma recorded_other (trace : list (Action * ActionResult))
    (accumulator : gmap N value) (k : N) :
  (forall step, In step trace -> Action_id (fst step) <> k) ->
  recorded trace accumulator !! k = accumulator !! k.
Proof.
  revert accumulator. induction trace as [ | x trace IH]; intros accumulator H;
    [reflexivity | ].
  change (recorded (x :: trace) accumulator)
    with (recorded trace
            (<[Action_id (fst x) := ActionResult_result (snd x)]> accumulator)).
  rewrite IH by (intros step Hstep; apply H; right; exact Hstep).
  apply lookup_insert_ne. apply H. left. reflexivity.
Qed.

Lemma recorded_last (pre post : list (Action * ActionResult)) (node : Action)
    (output : ActionResult) (accumulator : gmap N value) :
  Forall (fun step => Action_id (fst step) <> Action_id node) post ->
  recorded (pre ++ (node, output) :: post) accumulator !! Action_id node
  = Some (ActionResult_result output).
Proof.
  intros Hpost. unfold recorded. rewrite foldl_app. simpl.
  match goal with
  | |- foldl _ ?m post !! _ = _ => fold (recorded post m)
  end.
  rewrite recorded_other.
  - apply lookup_insert_eq.
  - intros step Hstep. rewrite List.Forall_forall in Hpost. apply Hpost, Hstep.
Qed.

Lemma last_cons_default {A : Type} (l : list A) :
  forall (x d : A), List.last (x :: l) d = List.last l x.
Proof.
  induction l as [ | y l IH]; intros x d; [reflexivity | ].
  change (List.last (x :: y :: l) d) with (List.last (y :: l) d).
  rewrite !IH. reflexivity.
Qed.

Section ExecutedNodes.
Variable validator : Validator.
Variable strategy : ActionExecutionStrategy.
Variable UUID_str : UUID -> string.
Variable self : Workflow.

(** The node that follows depends on the accumulator only. *)
Lemma next_executable_after_next_node (node : Action) (output : ActionResult)
    (st : State) :
  fst (Workflow.next_executable_after validator strategy self node output st)
  = next_node validator strategy self node output (_accumulator st).
Proof.
  unfold next_node, Workflow.next_executable_after. simpl.
  destruct (Workflow.get_branch validator strategy self node output
              (_accumulator st)) as [[next_id next_type] sent].
  destruct next_id as [id | ]; [ | reflexivity].
  destruct (bool_decide (next_type = Some "action")); reflexivity.
Qed.

(** An iteration that ends in the last [yield] has called its node on the
    accumulator as it was, with the device of the node as instance, and
    gone on to record the output. *)
Lemma body_recorded (loop : option Action -> Locals -> State -> Next)
    (action : Action) (locals : Locals) (st : State) (v : value) (st' : State) :
  Workflow.body validator strategy self loop action locals st
  = Yielded v AfterResult st' ->
  exists repo locals1,
    start_arguments locals1
    = match start_arguments locals with
      | Some (_ :: _) => None
      | _ => start_arguments locals
      end /\
    resume locals1 = resume locals /\
    Workflow.record_result validator strategy self loop action
      (snd (Action_execute action (_accumulator st) (start_arguments locals)
              (resume locals) (Action_device_id action)))
      locals1
      (set_instance_repo (Some repo)
         (set_executing_action (Some (Action_id action)) st))
    = Yielded v AfterResult st'.
Proof.
  unfold Workflow.body. simpl.
  destruct (_is_paused st); [discriminate | ].
  unfold Workflow.check_abort. simpl.
  destruct (_abort st); [discriminate | ].
  unfold Workflow.invoke. simpl.
  destruct (_instance_repo st) as [repo | ]; [ | discriminate].
  assert (Hdev : fst (setup_app_instance repo action) = Action_device_id action).
  { unfold setup_app_instance. destruct (Action_device_id action); reflexivity. }
  destruct (setup_app_instance repo action) as [device_id repo'].
  simpl in Hdev. subst device_id. simpl.
  destruct (Action_execute action (_accumulator st) (start_arguments locals)
              (resume locals) (Action_device_id action)) as [result output].
  simpl.
  set (locals1 := match start_arguments locals with
                  | Some (_ :: _) => mkLocals None (resume locals) (last_result locals)
                  | _ => locals
                  end).
  assert (H1 : start_arguments locals1
               = match start_arguments locals with
                 | Some (_ :: _) => None
                 | _ => start_arguments locals
                 end /\ resume locals1 = resume locals).
  { unfold locals1. destruct (start_arguments locals) as [[ | a l] | ] eqn:E;
      split; try reflexivity; exact E. }
  destruct result as [r | ].
  - destruct (bool_decide (ActionResult_status r = "trigger")); [discriminate | ].
    intros H. exists repo', locals1. split; [apply H1 | split; [apply H1 | exact H]].
  - intros H. exists repo', locals1. split; [apply H1 | split; [apply H1 | exact H]].
Qed.

(** A run that reaches the last [yield] has walked through its nodes and
    recorded the output of each. *)
Lemma loop_walk (fuel : nat) :
  forall (next_executable : option Action) (locals : Locals) (st : State)
         (v : value) (st' : State),
    Workflow.loop validator strategy UUID_str self fuel next_executable locals st
    = Yielded v AfterResult st' ->
    exists trace,
      walk validator strategy self next_executable (start_arguments locals)
        (resume locals) (_accumulator st) trace /\
      _accumulator st' = recorded trace (_accumulator st) /\
      v = List.last (List.map (fun step => ActionResult_result (snd step)) trace)
                    (last_result locals).
Proof.
  induction fuel as [ | fuel IH]; intros next_executable locals st v st'.
  - destruct next_executable as [action | ]; simpl; [discriminate | ].
    unfold Workflow.after_loop, Workflow.__shutdown.
    destruct (_instance_repo st); [ | discriminate].
    intros [= <- <-]. exists []. split; [constructor | split; reflexivity].
  - destruct next_executable as [action | ]; simpl.
    2:{ unfold Workflow.after_loop, Workflow.__shutdown.
        destruct (_instance_repo st); [ | discriminate].
        intros [= <- <-]. exists []. split; [constructor | split; reflexivity]. }
    intros H. apply body_recorded in H.
    destruct H as (repo & locals1 & Hargs & Hres & H).
    set (output := snd (Action_execute action (_accumulator st)
                          (start_arguments locals) (resume locals)
                          (Action_device_id action))) in *.
    unfold Workflow.record_result in H.
    match type of H with
    | context [Workflow.next_executable_after ?v ?s ?w ?a ?o ?t] =>
        pose proof (next_executable_after_next_node a o t) as Hnode;
        pose proof (next_executable_after_spec v s w a o t) as Hspec;
        destruct (Workflow.next_executable_after v s w a o t) as [next st1]
    end.
    simpl in Hnode, Hspec. destruct Hspec as (Hacc1 & _).
    apply IH in H. destruct H as (trace & Hwalk & Hacc & Hv).
    simpl in Hwalk, Hv. rewrite Hacc1 in Hwalk, Hacc. rewrite Hargs, Hres in Hwalk.
    exists ((action, output) :: trace). split; [ | split].
    + apply walk_node; [reflexivity | ]. rewrite <- Hnode. exact Hwalk.
    + exact Hacc.
    + rewrite Hv. simpl List.map. rewrite last_cons_default. reflexivity.
Qed.
End ExecutedNodes.

Section SeededAccumulator.
Variable validator : Validator.
Variable strategy : ActionExecutionStrategy.
Variable UUID_str : UUID -> string.
Variable self : Workflow.

Lemma accumulator_kept_same (st st' : State) :
  _accumulator st' = _accumulator st -> accumulator_kept self st st'.
Proof. intros H. unfold accumulator_kept. rewrite H. split; auto. Qed.

Lemma accumulator_kept_trans (st1 st2 st3 : State) :
  accumulator_kept self st1 st2 -> accumulator_kept self st2 st3 ->
  accumulator_kept self st1 st3.
Proof. intros [H1 H2] [H3 H4]. split; auto. Qed.

(** An iteration either stops without touching the accumulator, or calls
    its node and goes on to record the output. *)
Lemma body_cases (loop : option Action -> Locals -> State -> Next)
    (action : Action) (locals : Locals) (st : State) :
  (exists st',
     state_after (Workflow.body validator strategy self loop action locals st)
     = Some st' /\
     _accumulator st' = _accumulator st) \/
  (exists repo inst locals1,
     Workflow.body validator strategy self loop action locals st
     = Workflow.record_result validator strategy self loop action
         (snd (Action_execute action (_accumulator st) (start_arguments locals)
                 (resume locals) inst))
         locals1
         (set_instance_repo (Some repo)
            (set_executing_action (Some (Action_id action)) st))).
Proof.
  unfold Workflow.body. simpl.
  destruct (_is_paused st); [left; eexists; split; reflexivity | ].
  unfold Workflow.check_abort. simpl.
  destruct (_abort st); [left; eexists; split; reflexivity | ].
  unfold Workflow.invoke. simpl.
  destruct (_instance_repo st) as [repo | ];
    [ | left; eexists; split; reflexivity].
  destruct (setup_app_instance repo action) as [device_id repo'].
  simpl.
  destruct (Action_execute action (_accumulator st) (start_arguments locals)
              (resume locals) device_id) as [result output] eqn:Hcall.
  assert (Hout : output
                 = snd (Action_execute action (_accumulator st)
                          (start_arguments locals) (resume locals) device_id))
    by (rewrite Hcall; reflexivity).
  destruct result as [r | ].
  - destruct (bool_decide (ActionResult_status r = "trigger"));
      [left; eexists; split; reflexivity | ].
    right. eexists repo', device_id, _. rewrite <- Hout. reflexivity.
  - right. eexists repo', device_id, _. rewrite <- Hout. reflexivity.
Qed.

Lemma after_loop_kept (locals : Locals) (st st' : State) :
  state_after (Workflow.after_loop UUID_str self locals st) = Some st' ->
  _accumulator st' = _accumulator st.
Proof.
  unfold Workflow.after_loop, Workflow.__shutdown.
  destruct (_instance_repo st); simpl; intros [= <-]; reflexivity.
Qed.

(** Whatever way the loop stops, the accumulator is kept. *)
Lemma loop_kept (fuel : nat) :
  forall (next_executable : option Action) (locals : Locals) (st st' : State),
    (forall action, next_executable = Some action -> In action (nodes self)) ->
    state_after
      (Workflow.loop validator strategy UUID_str self fuel next_executable locals st)
    = Some st' ->
    accumulator_kept self st st'.
Proof.
  induction fuel as [ | fuel IH]; intros next_executable locals st st' Hnode.
  - destruct next_executable as [action | ]; simpl; [discriminate | ].
    intros H. apply accumulator_kept_same. eapply after_loop_kept, H.
  - destruct next_executable as [action | ]; simpl.
    2:{ intros H. apply accumulator_kept_same. eapply after_loop_kept, H. }
    destruct (body_cases (Workflow.loop validator strategy UUID_str self fuel)
                action locals st)
      as [(st0 & Hst0 & Hacc0) | (repo & inst & locals1 & Heq)].
    + rewrite Hst0. intros [= <-]. apply accumulator_kept_same, Hacc0.
    + rewrite Heq. unfold Workflow.record_result.
      match goal with
      | |- context [Workflow.next_executable_after ?v ?s ?w ?a ?o ?t] =>
          pose proof (next_executable_after_spec v s w a o t) as Hnext;
          destruct (Workflow.next_executable_after v s w a o t) as [next st1]
      end.
      simpl in Hnext. destruct Hnext as (Hacc1 & _ & _ & Hnode1).
      intros H. apply IH in H; [ | exact Hnode1].
      eapply accumulator_kept_trans; [ | exact H].
      unfold accumulator_kept. rewrite Hacc1. split.
      * apply seeded_or_result_insert. apply Hnode. reflexivity.
      * intros k Hk. apply lookup_insert_is_Some'. right. exact Hk.
Qed.

Lemma execute_kept (fuel : nat) (execution_id : string) (start : option UUID)
    (start_arguments : option (list Argument)) (resume : bool) (st st' : State) :
  outcome_state
    (Workflow.execute validator strategy UUID_str self fuel execution_id start
       start_arguments resume st) = Some st' ->
  accumulator_kept self st st'.
Proof.
  unfold Workflow.execute.
  destruct (Workflow_is_valid self).
  2:{ simpl. intros [= <-]. apply accumulator_kept_same. reflexivity. }
  destruct (match start with Some s => Some s | None => Workflow_start self end)
    as [s | ].
  2:{ simpl. intros [= <-]. apply accumulator_kept_same. reflexivity. }
  unfold Workflow.__execute_next.
  match goal with
  | |- context [Workflow.loop ?v ?s0 ?u ?w ?f ?n ?l ?t] =>
      pose proof (loop_kept f n l t) as Hloop;
      destruct (Workflow.loop v s0 u w f n l t) as [v0 fr st0 | e st0 | ]
  end; simpl; intros [= <-].
  - eapply accumulator_kept_trans; [ | apply Hloop; [ | reflexivity]].
    + apply accumulator_kept_same. reflexivity.
    + intros action. apply first_executable_In.
  - eapply accumulator_kept_trans; [ | apply Hloop; [ | reflexivity]].
    + apply accumulator_kept_same. reflexivity.
    + intros action. apply first_executable_In.
Qed.

(** Through every sequence of calls the accumulator has an entry for each
    branch id and is made of branch counters and results of nodes. *)
Lemma reachable_seeded (st : State) :
  reachable validator strategy UUID_str self st ->
  seeded_or_result self (_accumulator st) /\
  (forall b, In b (Workflow_branches self) ->
             is_Some (_accumulator st !! Branch_id b)).
Proof.
  assert (Hinit : seeded_or_result self (branch_counters (Workflow_branches self)) /\
                  (forall b, In b (Workflow_branches self) ->
                     is_Some (branch_counters (Workflow_branches self) !! Branch_id b))).
  { split; [intros k; left; reflexivity | ].
    intros b Hb. rewrite (branch_counters_In _ _ Hb). eexists; reflexivity. }
  induction 1 as [ | | st Hst IH | st Hst IH
                   | st fuel eid start args res v st' Hst IH Hexec
                   | st fuel eid start args res e st' Hst IH Hexec];
    try exact Hinit; try exact IH.
  - assert (Hk : accumulator_kept self st st')
      by (eapply execute_kept; rewrite Hexec; reflexivity).
    destruct Hk as [Hk1 Hk2]. destruct IH as [IH1 IH2].
    split; [apply Hk1, IH1 | intros b Hb; apply Hk2, IH2, Hb].
  - assert (Hk : accumulator_kept self st st')
      by (eapply execute_kept; rewrite Hexec; reflexivity).
    destruct Hk as [Hk1 Hk2]. destruct IH as [IH1 IH2].
    split; [apply Hk1, IH1 | intros b Hb; apply Hk2, IH2, Hb].
Qed.
End SeededAccumulator.

Section CompletedRun.
Variable validator : Validator.
Variable strategy : ActionExecutionStrategy.
Variable UUID_str : UUID -> string.
Variable self : Workflow.

(** C10.  A workflow object starts, after [__init__] and after
    [init_on_load], with an accumulator that maps the id of every branch
    to 0 and holds nothing else; it is empty exactly when the workflow has
    no branch.  [execute] does not reset the accumulator: in every state
    the object reaches, so at the start of every run, the accumulator has
    an entry for each branch id, and each of its entries is either a branch
    counter, still 0, or the result of a node under the node's id.  When a
    run goes to the last [yield] of the generator (the completed run), the
    last signal is [WorkflowShutdown] with the string-keyed snapshot of the
    accumulator: the snapshot has an entry for every branch id, the entry
    of a branch id that is not also the id of a node is 0, and the value
    returned is stored under the id of the node executed last.  With an
    injective [str] the snapshot holds under [str(k)] what the accumulator
    holds under [k].  The accumulator of the snapshot is the one the run
    started from with the results of the executed nodes recorded in order:
    every executed node has an entry under its id, which holds the result
    of the last execution of a node of that id, and every other entry,
    the branch counters among them, is as it was when the run started. *)
Theorem accumulator_is_seeded_with_branch_counters :
  (_accumulator (Workflow.__init__ self) = branch_counters (Workflow_branches self) /\
   _accumulator (Workflow.init_on_load self) = branch_counters (Workflow_branches self) /\
   (forall k,
      branch_counters (Workflow_branches self) !! k
      = if existsb (fun b => N.eqb (Branch_id b) k) (Workflow_branches self)
        then Some (VInt 0) else None) /\
   (branch_counters (Workflow_branches self) = ∅ <->
    Workflow_branches self = [])) /\
  (forall st,
     reachable validator strategy UUID_str self st ->
     seeded_or_result self (_accumulator st) /\
     (forall b, In b (Workflow_branches self) ->
                is_Some (_accumulator st !! Branch_id b))) /\
  (forall fuel execution_id start start_arguments resume st s v st',
     reachable validator strategy UUID_str self st ->
     Workflow_is_valid self = true ->
     match start with Some s => Some s | None => Workflow_start self end = Some s ->
     Workflow.__execute_next validator strategy UUID_str self fuel
       (AtStart s start_arguments resume)
       (emit [mkSignal (Workflow_id self) WorkflowExecutionStart None]
          (set_execution_id execution_id st))
     = Yielded v AfterResult st' ->
     Workflow.execute validator strategy UUID_str self fuel execution_id start
       start_arguments resume st = Return v st' /\
     (exists sent,
        signals st'
        = signals st ++
          mkSignal (Workflow_id self) WorkflowExecutionStart None :: sent ++
          [mkSignal (Workflow_id self) WorkflowShutdown
             (Some (Workflow.snapshot UUID_str (_accumulator st')))]) /\
     (forall b, In b (Workflow_branches self) ->
        is_Some (Workflow.snapshot UUID_str (_accumulator st')
                 !! UUID_str (Branch_id b))) /\
     (forall b, In b (Workflow_branches self) ->
        (forall node, In node (nodes self) -> Action_id node <> Branch_id b) ->
        _accumulator st' !! Branch_id b = Some (VInt 0)) /\
     (Workflow.first_executable self s <> None \/ _executing_action st = None ->
      forall id, _executing_action st' = Some id ->
                 _accumulator st' !! id = Some v) /\
     ((forall x y, UUID_str x = UUID_str y -> x = y) ->
      forall k, Workflow.snapshot UUID_str (_accumulator st') !! UUID_str k
                = _accumulator st' !! k) /\
     (exists trace,
        walk validator strategy self (Workflow.first_executable self s)
          start_arguments resume (_accumulator st) trace /\
        _accumulator st' = recorded trace (_accumulator st) /\
        v = List.last (List.map (fun step => ActionResult_result (snd step)) trace)
                      VNone /\
        (forall node output,
           In (node, output) trace ->
           is_Some (Workflow.snapshot UUID_str (_accumulator st')
                    !! UUID_str (Action_id node))) /\
        (forall pre node output post,
           trace = pre ++ (node, output) :: post ->
           Forall (fun step => Action_id (fst step) <> Action_id node) post ->
           _accumulator st' !! Action_id node = Some (ActionResult_result output)) /\
        (forall k,
           (forall step, In step trace -> Action_id (fst step) <> k) ->
           _accumulator st' !! k = _accumulator st !! k))).
Proof.
  split; [ | split].
  - split; [reflexivity | split; [reflexivity | split]].
    + apply branch_counters_lookup.
    + split.
      * intros Hempty. destruct (Workflow_branches self) as [ | b l] eqn:Hl;
          [reflexivity | ].
        pose proof (branch_counters_In (b :: l) b (or_introl eq_refl)) as Hb.
        rewrite Hempty, lookup_empty in Hb. discriminate.
      * intros ->. reflexivity.
  - apply reachable_seeded.
  - intros fuel execution_id start start_arguments resume st s v st'
      Hreach Hvalid Hstart Hrun.
    split.
    { rewrite (execute_valid _ _ _ _ _ _ _ _ _ _ s Hvalid Hstart), Hrun.
      reflexivity. }
    assert (Hreach' : reachable validator strategy UUID_str self st').
    { eapply reachable_return; [exact Hreach | ].
      rewrite (execute_valid _ _ _ _ _ _ _ _ _ _ s Hvalid Hstart), Hrun.
      reflexivity. }
    destruct (reachable_seeded _ _ _ _ _ Hreach) as [Hseed _].
    destruct (reachable_seeded _ _ _ _ _ Hreach') as [Hseed' Hbranch'].
    unfold Workflow.__execute_next in Hrun.
    pose proof (loop_walk validator strategy UUID_str self _ _ _ _ _ _ Hrun)
      as (trace & Hwalk & Hacc & Hv).
    apply (loop_completed _ _ _ _
             (Workflow.first_executable self s <> None \/ _executing_action st = None))
      in Hrun.
    + destruct Hrun as (_ & _ & [sent Hsig] & Hres). simpl in *.
      split; [ | split; [ | split; [ | split; [ | split]]]].
      * exists sent. rewrite Hsig, <- app_assoc. reflexivity.
      * intros b Hb. apply snapshot_is_Some, Hbranch', Hb.
      * intros b Hb Hfresh. destruct (Hseed' (Branch_id b)) as [Heq | Hnode].
        -- rewrite Heq. apply branch_counters_In, Hb.
        -- destruct Hnode as (node & _ & _ & _ & _ & Hin & Hid & _).
           exfalso. exact (Hfresh node Hin Hid).
      * exact Hres.
      * intros Hinj k. apply snapshot_lookup, Hinj.
      * exists trace.
        split; [exact Hwalk | split; [exact Hacc | split; [exact Hv | ]]].
        rewrite Hacc. split; [ | split].
        -- intros node output Hin. apply snapshot_is_Some.
           apply (recorded_is_Some trace _ (node, output) Hin).
        -- intros pre node output post -> Hpost. apply recorded_last, Hpost.
        -- intros k Hk. apply recorded_other, Hk.
    + intros action. apply first_executable_In.
    + exact Hseed.
    + simpl. intros [Hfirst | Hnone] Hnil id Hid.
      * contradiction.
      * rewrite Hnone in Hid. discriminate.
Qed.
End CompletedRun.

(** C10 as stated fails: a workflow without branches is valid, both ways
    of setting it up leave the accumulator empty, and the accumulator of
    its completed run holds the result of its action alone. *)
Lemma accumulator_starts_empty_counterexample :
  Workflow_is_valid one_action = true /\
  _accumulator (Workflow.__init__ one_action) = ∅ /\
  _accumulator (Workflow.init_on_load one_action) = ∅ /\
  exists st',
    Workflow.execute accept_all (constant_strategy (VBool true)) sample_str
      one_action 1 "e1" None None false (Workflow.init_on_load one_action)
    = Return (VInt 7) st' /\
    _accumulator st' = {[ 1%N := VInt 7 ]} /\
    List.map sig_event (signals st') = [WorkflowExecutionStart; WorkflowShutdown].
Proof.
  split; [reflexivity | split; [reflexivity | split; [reflexivity | ]]].
  eexists. split; [reflexivity | split; reflexivity].
Qed.

(** C10 on the sample run: both actions of [two_actions] are executed, in
    that order, and the snapshot sent with [WorkflowShutdown] holds the
    counter of the branch and the two results. *)
Lemma accumulator_is_seeded_with_branch_counters_witness :
  exists st',
    Workflow.execute accept_all (constant_strategy (VBool true)) sample_str
      two_actions 5 "e1" None None false (Workflow.init_on_load two_actions)
    = Return (VInt 46) st' /\
    _accumulator st' !! 10%N = Some (VInt 0) /\
    Workflow.snapshot sample_str (_accumulator st') !! sample_str 10%N
    = Some (VInt 0) /\
    Workflow.snapshot sample_str (_accumulator st') !! sample_str 1%N
    = Some (VStr "hello") /\
    Workflow.snapshot sample_str (_accumulator st') !! sample_str 2%N
    = Some (VInt 46) /\
    exists trace,
      walk accept_all (constant_strategy (VBool true)) two_actions
        (Some (constant_action 1 (VStr "hello"))) None false
        (branch_counters (Workflow_branches two_actions)) trace /\
      _accumulator st'
      = recorded trace (branch_counters (Workflow_branches two_actions)).
Proof.
  edestruct (proj2 (proj2 (accumulator_is_seeded_with_branch_counters accept_all
                      (constant_strategy (VBool true)) sample_str two_actions))
               5%nat "e1" None None false (Workflow.init_on_load two_actions) 1%N)
    as (Hexec & _ & _ & Hzero & _ & Hsnap & (trace & Hwalk & Hacc & _)).
  - apply reachable_load.
  - reflexivity.
  - reflexivity.
  - vm_compute. reflexivity.
  - eexists. split; [exact Hexec | ].
    rewrite !(Hsnap (pretty_N_inj)).
    split; [vm_compute; reflexivity | ].
    split; [vm_compute; reflexivity | ].
    split; [vm_compute; reflexivity | ].
    split; [vm_compute; reflexivity | ].
    exists trace. split; [exact Hwalk | exact Hacc].
Defined.


(** * Further properties of the code *)

(** ** conditionalexpression.py: what the operators compute *)

Lemma all_map {A : Type} (f : A -> Emit bool) (l : list A) :
  all f l = all (fun m => m) (List.map f l).
Proof.
  induction l as [ | x l IH]; simpl; [reflexivity | ].
  apply bind_ext. intros [ | ]; [exact IH | reflexivity].
Qed.

Lemma any_map {A : Type} (f : A -> Emit bool) (l : list A) :
  any f l = any (fun m => m) (List.map f l).
Proof.
  induction l as [ | x l IH]; simpl; [reflexivity | ].
  apply bind_ext. intros [ | ]; [reflexivity | exact IH].
Qed.

Lemma xor_group_map {A : Type} (f : A -> Emit bool) (l : list A) (found : bool) :
  xor_group f l found = xor_group (fun m => m) (List.map f l) found.
Proof.
  revert found. induction l as [ | x l IH]; intros found; simpl; [reflexivity | ].
  apply bind_ext. intros [ | ]; [destruct found; [reflexivity | apply IH] | apply IH].
Qed.

Lemma all_items (items : list (Emit bool)) :
  all (fun m => m) items
  = (forallb fst items,
     List.concat (List.map snd (evaluated_until (fun m => negb (fst m)) items))).
Proof.
  induction items as [ | [b sent] items IH]; simpl; [reflexivity | ].
  destruct b; simpl.
  - rewrite IH. reflexivity.
  - rewrite app_nil_r. reflexivity.
Qed.

Lemma any_items (items : list (Emit bool)) :
  any (fun m => m) items
  = (existsb fst items,
     List.concat (List.map snd (evaluated_until fst items))).
Proof.
  induction items as [ | [b sent] items IH]; simpl; [reflexivity | ].
  destruct b; simpl.
  - rewrite app_nil_r. reflexivity.
  - rewrite IH. reflexivity.
Qed.

Lemma all_app (l1 l2 : list (Emit bool)) :
  bind (all (fun m => m) l1)
       (fun b => if b then all (fun m => m) l2 else ret false)
  = all (fun m => m) (l1 ++ l2).
Proof.
  induction l1 as [ | [b sent] l1 IH]; simpl.
  - destruct (all (fun m => m) l2). reflexivity.
  - destruct b; simpl.
    + rewrite <- IH.
      destruct (all (fun m => m) l1) as [b1 s1]. simpl.
      destruct b1; simpl.
      * destruct (all (fun m => m) l2) as [b2 s2]. rewrite app_assoc. reflexivity.
      * rewrite !app_nil_r. reflexivity.
    + rewrite !app_nil_r. reflexivity.
Qed.

Lemma any_app (l1 l2 : list (Emit bool)) :
  bind (any (fun m => m) l1)
       (fun b => if b then ret true else any (fun m => m) l2)
  = any (fun m => m) (l1 ++ l2).
Proof.
  induction l1 as [ | [b sent] l1 IH]; simpl.
  - destruct (any (fun m => m) l2). reflexivity.
  - destruct b; simpl.
    + rewrite !app_nil_r. reflexivity.
    + rewrite <- IH.
      destruct (any (fun m => m) l1) as [b1 s1]. simpl.
      destruct b1; simpl.
      * rewrite !app_nil_r. reflexivity.
      * destruct (any (fun m => m) l2) as [b2 s2]. rewrite app_assoc. reflexivity.
Qed.

Lemma xor_group_app (l1 l2 : list (Emit bool)) (found : bool) :
  bind (xor_group (fun m => m) l1 found)
       (fun r => match r with
                 | None => ret None
                 | Some found' => xor_group (fun m => m) l2 found'
                 end)
  = xor_group (fun m => m) (l1 ++ l2) found.
Proof.
  revert found. induction l1 as [ | [b sent] l1 IH]; intros found; simpl.
  - destruct (xor_group (fun m => m) l2 found). reflexivity.
  - destruct b; simpl.
    + destruct found; simpl; [rewrite !app_nil_r; reflexivity | ].
      rewrite <- IH.
      destruct (xor_group (fun m => m) l1 true) as [[f1 | ] s1]; simpl.
      * destruct (xor_group (fun m => m) l2 f1). rewrite app_assoc. reflexivity.
      * rewrite !app_nil_r. reflexivity.
    + rewrite <- IH.
      destruct (xor_group (fun m => m) l1 found) as [[f1 | ] s1]; simpl.
      * destruct (xor_group (fun m => m) l2 f1). rewrite app_assoc. reflexivity.
      * rewrite !app_nil_r. reflexivity.
Qed.

Ltac solve_count :=
  repeat match goal with
         | |- context [(?a <=? ?b)%nat] => destruct (Nat.leb_spec a b)
         | |- context [(?a =? ?b)%nat] => destruct (Nat.eqb_spec a b)
         end;
  try lia; try reflexivity.

Lemma xor_group_items (items : list (Emit bool)) (found : bool) :
  xor_group (fun m => m) items found
  = (if (count_true items + (if found then 1 else 0) <=? 1)%nat
     then Some (count_true items + (if found then 1 else 0) =? 1)%nat
     else None,
     List.concat
       (List.map snd
          (if found then evaluated_until fst items
           else evaluated_until_second fst items))).
Proof.
  unfold count_true. revert found.
  induction items as [ | [b sent] items IH]; intros found; simpl.
  - destruct found; reflexivity.
  - destruct b; simpl.
    + destruct found; simpl.
      * rewrite app_nil_r. f_equal. solve_count.
      * rewrite IH. simpl. f_equal. solve_count.
    + rewrite IH. destruct found; reflexivity.
Qed.

Section OperatorProperties.
Variable validator : Validator.
Variable strategy : ActionExecutionStrategy.

(** The operator of an expression, over its operands. *)
Lemma operator_lookup_operands (self : ConditionalExpression) (data_in : value)
    (accumulator : gmap N value) :
  let items := operands validator strategy self data_in accumulator in
  ConditionalExpression.__operator_lookup validator strategy
    (fun child =>
       ConditionalExpression.execute validator strategy child data_in accumulator)
    data_in accumulator self
  = match ConditionalExpression_operator self with
    | op_and =>
        (forallb fst items,
         List.concat (List.map snd (evaluated_until (fun m => negb (fst m)) items)))
    | op_or =>
        match items with
        | [] => (true, [])
        | _ :: _ =>
            (existsb fst items,
             List.concat (List.map snd (evaluated_until fst items)))
        end
    | op_xor =>
        match items with
        | [] => (true, [])
        | _ :: _ =>
            ((count_true items =? 1)%nat,
             List.concat (List.map snd (evaluated_until_second fst items)))
        end
    end.
Proof.
  intros items. subst items. unfold operands.
  unfold ConditionalExpression.__operator_lookup.
  destruct self as [id op neg children conditions]. simpl.
  destruct op.
  - unfold ConditionalExpression._and. simpl.
    rewrite (all_map _ conditions), (all_map _ children), all_app.
    apply all_items.
  - unfold ConditionalExpression._or. simpl.
    destruct conditions as [ | c cs]; [destruct children as [ | e es] | ];
      [reflexivity | | ].
    + rewrite (any_map _ (e :: es)). simpl List.map at 1.
      change (any _ []) with (ret (A := bool) false). rewrite bind_ret_l.
      apply any_items.
    + rewrite (any_map _ (c :: cs)), (any_map _ children), any_app.
      apply any_items.
  - unfold ConditionalExpression._xor. simpl.
    assert (Hgen : forall cs es,
      (r1 <~ xor_group (ConditionalExpression.condition_holds validator strategy
                          data_in accumulator) cs false ;;
       match r1 with
       | None => ret false
       | Some is_one_found =>
           r2 <~ xor_group
                   (fun child =>
                      ConditionalExpression.execute validator strategy child
                        data_in accumulator) es is_one_found ;;
           match r2 with
           | None => ret false
           | Some is_one_found' => ret is_one_found'
           end
       end)
      = bind (xor_group (fun m => m)
                (List.map (ConditionalExpression.condition_holds validator strategy
                             data_in accumulator) cs ++
                 List.map (fun child =>
                             ConditionalExpression.execute validator strategy child
                               data_in accumulator) es) false)
             (fun r => match r with None => ret false | Some b => ret b end)).
    { intros cs es. rewrite <- xor_group_app, bind_assoc.
      rewrite (xor_group_map _ cs). apply bind_ext. intros [f1 | ].
      - rewrite (xor_group_map _ es). reflexivity.
      - rewrite bind_ret_l. reflexivity. }
    destruct conditions as [ | c cs]; [destruct children as [ | e es] | ];
      [reflexivity | | ]; rewrite Hgen, xor_group_items.
    all: match goal with
         | |- context [count_true ?l] => generalize (count_true l)
         end; intros n.
    all: match goal with
         | |- context [List.concat ?l] => generalize (List.concat l)
         end; intros sent.
    all: unfold bind, ret; solve_count; rewrite ?app_nil_r; try reflexivity.
Qed.

(** X1.  The value of an expression: with [and], all operands are true;
    with [or], some operand is true, or there is no operand; with [xor],
    exactly one operand is true, or there is no operand; the negation flag
    is applied to that. *)
Theorem expression_value (self : ConditionalExpression) (data_in : value)
    (accumulator : gmap N value) :
  let items := operands validator strategy self data_in accumulator in
  fst (ConditionalExpression.execute validator strategy self data_in accumulator)
  = xorb (ConditionalExpression_is_negated self)
      match ConditionalExpression_operator self with
      | op_and => forallb fst items
      | op_or => match items with [] => true | _ :: _ => existsb fst items end
      | op_xor =>
          match items with [] => true | _ :: _ => (count_true items =? 1)%nat end
      end.
Proof.
  intros items. rewrite ConditionalExpression_execute_eq, bind_fst.
  rewrite finish_eq. simpl. f_equal.
  rewrite operator_lookup_operands. fold items.
  destruct (ConditionalExpression_operator self); [reflexivity | | ];
    destruct items; reflexivity.
Qed.

(** X2.  The operands are executed in order, the conditions before the
    child expressions, and only as far as the operator needs: [and] stops
    at the first operand that is false, [or] at the first that is true,
    [xor] at the second that is true.  The signals of an expression are
    those of the operands executed, followed by its verdict. *)
Theorem expression_stops_early (self : ConditionalExpression) (data_in : value)
    (accumulator : gmap N value) :
  let items := operands validator strategy self data_in accumulator in
  let executed :=
    match ConditionalExpression_operator self with
    | op_and => evaluated_until (fun m => negb (fst m)) items
    | op_or => evaluated_until fst items
    | op_xor => evaluated_until_second fst items
    end in
  snd (ConditionalExpression.execute validator strategy self data_in accumulator)
  = List.concat (List.map snd executed) ++
    [verdict self
       (fst (ConditionalExpression.execute validator strategy self data_in
               accumulator))].
Proof.
  intros items executed. subst executed.
  rewrite ConditionalExpression_execute_eq, bind_fst, bind_snd.
  rewrite !finish_eq. simpl. f_equal.
  rewrite operator_lookup_operands. fold items.
  destruct (ConditionalExpression_operator self); [reflexivity | | ];
    destruct items; reflexivity.
Qed.
End OperatorProperties.

(** ** workflow.py: the branch that is chosen *)

Lemma StronglySorted_middle (pre post : list Branch) (b : Branch) :
  StronglySorted priority_le (pre ++ b :: post) ->
  Forall (priority_le b) post.
Proof.
  induction pre as [ | x pre IH]; simpl; intros H.
  - apply StronglySorted_inv in H. apply H.
  - apply StronglySorted_inv in H. apply IH, H.
Qed.

Section ChosenBranch.
Variable validator : Validator.
Variable strategy : ActionExecutionStrategy.
Variable self : Workflow.

(** X3.  When [get_branch] gives a destination, it is that of a branch of
    the workflow that leaves the node and passes, and no passing branch
    that leaves the node has a lower priority.  When it gives none, no
    branch that leaves the node passes. *)
Theorem chosen_branch_has_least_priority (current_action : Action)
    (output : ActionResult) (accumulator : gmap N value) :
  let chosen :=
    fst (Workflow.get_branch validator strategy self current_action output
           accumulator) in
  let passes := branch_passes validator strategy output accumulator in
  match fst chosen with
  | Some id =>
      exists branch,
        In branch (Workflow_branches self) /\
        Branch_source_id branch = Action_id current_action /\
        passes branch = true /\
        Branch_destination_id branch = id /\
        snd chosen = Some (Branch_destination_type branch) /\
        forall other,
          In other (Workflow_branches self) ->
          Branch_source_id other = Action_id current_action ->
          passes other = true ->
          (Branch_priority branch <= Branch_priority other)%Z
  | None =>
      forall branch,
        In branch (Workflow_branches self) ->
        Branch_source_id branch = Action_id current_action ->
        passes branch = false
  end.
Proof.
  intros chosen passes. subst chosen passes.
  rewrite get_branch_eq.
  set (branches :=
         sorted (Workflow.__get_branches_by_action_id self (Action_id current_action))).
  assert (Hin : forall b, In b branches <->
                  In b (Workflow_branches self) /\
                  Branch_source_id b = Action_id current_action).
  { intros b. unfold branches. rewrite <- get_branches_by_action_id_In.
    split; intros H.
    - eapply Permutation_in; [apply sorted_perm | exact H].
    - eapply Permutation_in; [apply Permutation_sym, sorted_perm | exact H]. }
  pose proof (sorted_sorted
                (Workflow.__get_branches_by_action_id self (Action_id current_action)))
    as Hsorted.
  fold branches in Hsorted.
  destruct (first_passing_branch validator strategy branches output accumulator)
    as [(pre & b & post & Heq & Hpre & Hb) | Hall].
  - rewrite Heq, (try_branches_first_match validator strategy pre post b)
      by assumption.
    simpl. exists b.
    assert (Hbin : In b branches) by (rewrite Heq; apply in_elt).
    apply Hin in Hbin. destruct Hbin as [Hb1 Hb2].
    split; [exact Hb1 | split; [exact Hb2 | split; [exact Hb | ]]].
    split; [reflexivity | split; [reflexivity | ]].
    intros other Ho1 Ho2 Ho3.
    assert (Hoin : In other branches) by (apply Hin; split; assumption).
    rewrite Heq in Hoin, Hsorted. apply in_app_or in Hoin.
    destruct Hoin as [Hopre | [<- | Hopost]].
    + rewrite List.Forall_forall in Hpre. rewrite (Hpre other Hopre) in Ho3.
      discriminate.
    + lia.
    + apply StronglySorted_middle in Hsorted.
      rewrite List.Forall_forall in Hsorted. apply (Hsorted other Hopost).
  - rewrite (try_branches_no_match validator strategy branches) by exact Hall.
    simpl. intros b Hb1 Hb2.
    rewrite List.Forall_forall in Hall. apply Hall, Hin. split; assumption.
Qed.
End ChosenBranch.

(** ** condition.py and transform.py: the arguments handed to the validator *)

Lemma filter_other_names_count (name : string) (arguments : list Argument) :
  length (List.filter (fun a => String.eqb (Argument_name a) name)
            (filter (fun argument => Argument_name argument <> name) arguments))
  = 0%nat.
Proof.
  induction arguments as [ | a l IH]; [reflexivity | ].
  rewrite filter_cons. destruct (decide (Argument_name a <> name)) as [Hne | Heq].
  - simpl. destruct (String.eqb_spec (Argument_name a) name); [contradiction | exact IH].
  - exact IH.
Qed.

(** X4.  When the arguments of a condition or a transform are put together
    with the data, the data is the last argument, under the name of the
    data parameter, and it is the only argument of that name: an argument
    of that name given by the author is left out, the other arguments are
    kept in their order. *)
Theorem data_argument_replaces_its_namesake :
  (forall (self : Condition) (data : value) (arguments : list Argument),
     Condition.__update_arguments_with_data self data = inr arguments ->
     arguments
     = filter (fun argument =>
                 Argument_name argument <> Condition__data_param_name self)
              (Condition_arguments self) ++
       [mkArgument (Condition__data_param_name self) (Some data) None] /\
     length (List.filter
               (fun a => String.eqb (Argument_name a) (Condition__data_param_name self))
               arguments) = 1%nat) /\
  (forall (self : Transform) (data : value) (arguments : list Argument),
     Transform.__update_arguments_with_data self data = inr arguments ->
     arguments
     = filter (fun argument =>
                 Argument_name argument <> Transform__data_param_name self)
              (Transform_arguments self) ++
       [mkArgument (Transform__data_param_name self) (Some data) None] /\
     length (List.filter
               (fun a => String.eqb (Argument_name a) (Transform__data_param_name self))
               arguments) = 1%nat).
Proof.
  split; intros self data arguments.
  - unfold Condition.__update_arguments_with_data, Argument_init.
    destruct data; intros [= <-]; (split; [reflexivity | ]);
      rewrite List.filter_app, length_app, filter_other_names_count; simpl;
      rewrite String.eqb_refl; reflexivity.
  - unfold Transform.__update_arguments_with_data, Argument_init.
    destruct data; intros [= <-]; (split; [reflexivity | ]);
      rewrite List.filter_app, length_app, filter_other_names_count; simpl;
      rewrite String.eqb_refl; reflexivity.
Qed.

(** X4 at the sample condition given an argument named like its data
    parameter. *)
Lemma data_argument_replaces_its_namesake_witness :
  Condition.__update_arguments_with_data
    (mkCondition 22 "HelloWorld" "regMatch" false
       [mkArgument "regex" (Some (VStr "a+")) None;
        mkArgument "value" (Some (VStr "ignored")) None]
       [] "value" [])
    (VStr "aaa")
  = inr [mkArgument "regex" (Some (VStr "a+")) None;
         mkArgument "value" (Some (VStr "aaa")) None].
Proof.
  assert (H : Condition.__update_arguments_with_data
                (mkCondition 22 "HelloWorld" "regMatch" false
                   [mkArgument "regex" (Some (VStr "a+")) None;
                    mkArgument "value" (Some (VStr "ignored")) None]
                   [] "value" [])
                (VStr "aaa")
              = inr [mkArgument "regex" (Some (VStr "a+")) None;
                     mkArgument "value" (Some (VStr "aaa")) None])
    by reflexivity.
  destruct (proj1 data_argument_replaces_its_namesake _ _ _ H) as [Heq _].
  rewrite Heq in H. exact H.
Defined.

(** ** apiutil.py: the schema without the data parameter *)

(** X5.  [split_api_params] keeps exactly the parameters whose name is not
    the data parameter's, in their order; it changes nothing when no
    parameter has that name, and applying it again changes nothing. *)
Theorem split_api_params_removes_data_parameter (api : list ParameterApi)
    (data_param_name : string) :
  apiutil.split_api_params api data_param_name
  = List.filter (fun p => negb (String.eqb (param_name p) data_param_name)) api /\
  (forall p, In p (apiutil.split_api_params api data_param_name) <->
             In p api /\ param_name p <> data_param_name) /\
  ((forall p, In p api -> param_name p <> data_param_name) ->
   apiutil.split_api_params api data_param_name = api) /\
  apiutil.split_api_params (apiutil.split_api_params api data_param_name)
    data_param_name
  = apiutil.split_api_params api data_param_name.
Proof.
  assert (Heq : forall l,
            apiutil.split_api_params l data_param_name
            = List.filter (fun p => negb (String.eqb (param_name p) data_param_name)) l).
  { induction l as [ | p l IH]; simpl; [reflexivity | ].
    destruct (String.eqb (param_name p) data_param_name); simpl; rewrite IH;
      reflexivity. }
  split; [apply Heq | split; [ | split]].
  - intros p. rewrite Heq, filter_In, negb_true_iff.
    destruct (String.eqb_spec (param_name p) data_param_name); split;
      intros [H1 H2]; (split; [exact H1 | congruence]).
  - intros H. rewrite Heq. induction api as [ | p l IH]; simpl; [reflexivity | ].
    destruct (String.eqb_spec (param_name p) data_param_name) as [He | Hne].
    + exfalso. apply (H p); [left; reflexivity | exact He].
    + simpl. f_equal. apply IH. intros q Hq. apply H. right. exact Hq.
  - rewrite !Heq. induction api as [ | p l IH]; simpl; [reflexivity | ].
    destruct (String.eqb (param_name p) data_param_name) eqn:E; simpl.
    + exact IH.
    + rewrite E. simpl. f_equal. exact IH.
Qed.

(** X5 at a schema with and without the data parameter. *)
Lemma split_api_params_removes_data_parameter_witness :
  apiutil.split_api_params
    [mkParameterApi "regex" "string" true; mkParameterApi "count" "integer" false]
    "value"
  = [mkParameterApi "regex" "string" true; mkParameterApi "count" "integer" false].
Proof.
  apply (proj1 (proj2 (proj2 (split_api_params_removes_data_parameter
           [mkParameterApi "regex" "string" true;
            mkParameterApi "count" "integer" false] "value")))).
  intros p [<- | [<- | []]]; discriminate.
Defined.

(** X3 at the three branches of priorities 5, 1 and 3. *)
Lemma chosen_branch_has_least_priority_witness :
  exists branch,
    Branch_destination_id branch = 6%N /\ (Branch_priority branch <= 5)%Z.
Proof.
  pose proof (chosen_branch_has_least_priority accept_all
                (constant_strategy (VBool true)) three_branches
                (constant_action 1 (VInt 0)) (mkActionResult (VInt 0) "Success") ∅)
    as H.
  assert (E : fst (Workflow.get_branch accept_all (constant_strategy (VBool true))
                     three_branches (constant_action 1 (VInt 0))
                     (mkActionResult (VInt 0) "Success") ∅)
              = (Some 6%N, Some "action")) by reflexivity.
  cbv zeta in H. rewrite E in H. simpl fst in H.
  destruct H as (b & _ & _ & _ & Hdest & _ & Hmin).
  exists b. split; [exact Hdest | ].
  apply (Hmin (mkBranch 15 1 5 "action" 5%Z (Some (empty_and 35)))).
  - left. reflexivity.
  - reflexivity.
  - reflexivity.
Defined.

(** ** workflow.py: validation and the removal of an action *)

Lemma existsb_eqb_In (x : N) (l : list N) : existsb (N.eqb x) l = true <-> In x l.
Proof.
  rewrite existsb_exists. split.
  - intros (y & Hy & Heq). apply N.eqb_eq in Heq. subst. exact Hy.
  - intros H. exists x. split; [exact H | apply N.eqb_refl].
Qed.

Lemma concat_nil_iff {A : Type} (ll : list (list A)) :
  List.concat ll = [] <-> forall l, In l ll -> l = [].
Proof.
  induction ll as [ | l ll IH]; simpl.
  - split; [intros _ l [] | reflexivity].
  - split.
    + intros H. apply app_eq_nil in H. destruct H as [H1 H2].
      intros l' [<- | Hin]; [exact H1 | apply IH; assumption].
    + intros H. rewrite (H l (or_introl eq_refl)). simpl. apply IH.
      intros l' Hin. apply H. right. exact Hin.
Qed.

Lemma validate_nil_iff (UUID_str : UUID -> string) (self : Workflow) :
  let action_ids := List.map Action_id (Workflow_actions self) in
  Workflow.validate UUID_str self = [] <->
  (Workflow_actions self = [] \/
   exists start, Workflow_start self = Some start /\ In start action_ids) /\
  (forall branch, In branch (Workflow_branches self) ->
     In (Branch_source_id branch) action_ids /\
     In (Branch_destination_id branch) action_ids).
Proof.
  intros action_ids. unfold Workflow.validate. fold action_ids.
  split.
  - intros H. apply app_eq_nil in H. destruct H as [Hstart Hbranches].
    split.
    + destruct (Workflow_actions self) as [ | a l] eqn:Ha; [left; reflexivity | ].
      right. destruct (Workflow_start self) as [start | ]; [ | discriminate].
      exists start. split; [reflexivity | ].
      destruct (existsb (N.eqb start) action_ids) eqn:E; [ | discriminate].
      apply existsb_eqb_In, E.
    + intros branch Hb.
      rewrite concat_nil_iff in Hbranches.
      specialize (Hbranches _ (in_map _ _ _ Hb)). simpl in Hbranches.
      apply app_eq_nil in Hbranches. destruct Hbranches as [H1 H2].
      split.
      * destruct (existsb (N.eqb (Branch_source_id branch)) action_ids) eqn:E;
          [apply existsb_eqb_In, E | discriminate].
      * destruct (existsb (N.eqb (Branch_destination_id branch)) action_ids) eqn:E;
          [apply existsb_eqb_In, E | discriminate].
  - intros [Hstart Hbranches].
    assert (H1 : match Workflow_start self, Workflow_actions self with
                 | None, _ :: _ => ["Workflows with actions require a start parameter"]
                 | Some start, _ :: _ =>
                     if existsb (N.eqb start) action_ids then []
                     else [String.append "Workflow start ID "
                             (String.append (UUID_str start) " not found in actions")]
                 | _, [] => []
                 end = []).
    { destruct Hstart as [-> | (start & -> & Hin)].
      - destruct (Workflow_start self); reflexivity.
      - apply existsb_eqb_In in Hin. rewrite Hin.
        destruct (Workflow_actions self); reflexivity. }
    rewrite H1. simpl. apply concat_nil_iff. intros l Hl.
    apply in_map_iff in Hl. destruct Hl as (branch & <- & Hb).
    destruct (Hbranches branch Hb) as [Hs Hd].
    apply existsb_eqb_In in Hs, Hd. rewrite Hs, Hd. reflexivity.
Qed.

(** X6.  [validate] finds no error exactly when the start is the id of an
    action (or the workflow has no action at all) and the source and the
    destination of every branch are ids of actions.  The child workflows
    are not looked at: a branch to a child workflow is an error unless an
    action has the same id. *)
Theorem validate_finds_no_error_iff (UUID_str : UUID -> string) (self : Workflow) :
  let action_ids := List.map Action_id (Workflow_actions self) in
  Workflow.validate UUID_str self = [] <->
  (Workflow_actions self = [] \/
   exists start, Workflow_start self = Some start /\ In start action_ids) /\
  (forall branch, In branch (Workflow_branches self) ->
     In (Branch_source_id branch) action_ids /\
     In (Branch_destination_id branch) action_ids).
Proof. apply validate_nil_iff. Qed.

Lemma remove_first_In (id : UUID) (action : Action) (actions : list Action) :
  In action (Workflow.remove_first id actions) -> In action actions.
Proof.
  induction actions as [ | a l IH]; simpl; [tauto | ].
  destruct (N.eqb (Action_id a) id); [tauto | ].
  intros [<- | H]; [left; reflexivity | right; apply IH, H].
Qed.

Lemma remove_first_keeps_other_ids (id id' : UUID) (actions : list Action) :
  id' <> id ->
  In id' (List.map Action_id actions) ->
  In id' (List.map Action_id (Workflow.remove_first id actions)).
Proof.
  intros Hne. induction actions as [ | a l IH]; simpl; [tauto | ].
  destruct (N.eqb_spec (Action_id a) id) as [He | Hn].
  - intros [H | H]; [congruence | exact H].
  - simpl. intros [H | H]; [left; exact H | right; apply IH, H].
Qed.

Lemma remove_first_find_other (id id' : UUID) (actions : list Action) :
  id' <> id ->
  List.find (fun action => N.eqb (Action_id action) id')
            (Workflow.remove_first id actions)
  = List.find (fun action => N.eqb (Action_id action) id') actions.
Proof.
  intros Hne. induction actions as [ | a l IH]; simpl; [reflexivity | ].
  destruct (N.eqb_spec (Action_id a) id) as [He | Hn].
  - destruct (N.eqb_spec (Action_id a) id'); [congruence | reflexivity].
  - simpl. destruct (N.eqb (Action_id a) id'); [reflexivity | exact IH].
Qed.

Lemma remove_first_length (id : UUID) (actions : list Action) :
  In id (List.map Action_id actions) ->
  S (length (Workflow.remove_first id actions)) = length actions.
Proof.
  induction actions as [ | a l IH]; simpl; [tauto | ].
  destruct (N.eqb_spec (Action_id a) id) as [He | Hn]; [reflexivity | ].
  intros [H | H]; [congruence | ]. simpl. f_equal. apply IH, H.
Qed.

Lemma remove_first_unique (id : UUID) (actions : list Action) :
  NoDup (List.map Action_id actions) ->
  ~ In id (List.map Action_id (Workflow.remove_first id actions)).
Proof.
  induction actions as [ | a l IH]; simpl; [tauto | ].
  intros Hnd. apply NoDup_cons in Hnd. destruct Hnd as [Hnotin Hnd].
  rewrite list_elem_of_In in Hnotin.
  destruct (N.eqb_spec (Action_id a) id) as [He | Hn].
  - subst. exact Hnotin.
  - simpl. intros [H | H]; [congruence | exact (IH Hnd H)].
Qed.

Lemma get_action_by_id_None_iff (self : Workflow) (id : UUID) :
  Workflow.get_action_by_id self id = None <->
  ~ In id (List.map Action_id (Workflow_actions self)).
Proof.
  unfold Workflow.get_action_by_id. split.
  - intros H Hin. apply in_map_iff in Hin. destruct Hin as (a & Ha & Hin).
    apply (find_none _ _ H) in Hin. rewrite Ha, N.eqb_refl in Hin. discriminate.
  - intros H. destruct (List.find _ _) as [a | ] eqn:E; [ | reflexivity].
    apply find_some in E. destruct E as [Hin Heq]. apply N.eqb_eq in Heq.
    exfalso. apply H. rewrite <- Heq. apply in_map, Hin.
Qed.

Lemma remove_action_Some (self self' : Workflow) (id : UUID) :
  Workflow.remove_action self id = Some self' ->
  In id (List.map Action_id (Workflow_actions self)) /\
  Workflow_actions self' = Workflow.remove_first id (Workflow_actions self) /\
  (forall branch,
     In branch (Workflow_branches self') <->
     In branch (Workflow_branches self) /\
     Branch_source_id branch <> id /\ Branch_destination_id branch <> id) /\
  Workflow_start self' = Workflow_start self.
Proof.
  unfold Workflow.remove_action.
  destruct (Workflow.get_action_by_id self id) as [a | ] eqn:Hfind; [ | discriminate].
  intros [= <-]. simpl. split.
  - destruct (in_dec N.eq_dec id (List.map Action_id (Workflow_actions self)))
      as [H | H]; [exact H | ].
    apply get_action_by_id_None_iff in H. congruence.
  - split; [reflexivity | ]. split; [ | reflexivity].
    intros branch. rewrite filter_In, andb_true_iff, !negb_true_iff, !N.eqb_neq.
    reflexivity.
Qed.

(** X7.  [remove_action] fails exactly when no action has the id.  When it
    succeeds, one action is gone; the branches left are those that neither
    leave nor reach the id, so nothing leaves the id any more; the actions
    of other ids are found as before; with unique action ids, no action
    has the id any more.  The start of the workflow is not touched. *)
Theorem remove_action_removes_action_and_branches (self : Workflow) (id : UUID) :
  (Workflow.remove_action self id = None <->
   ~ In id (List.map Action_id (Workflow_actions self))) /\
  (forall self',
     Workflow.remove_action self id = Some self' ->
     (forall branch,
        In branch (Workflow_branches self') <->
        In branch (Workflow_branches self) /\
        Branch_source_id branch <> id /\ Branch_destination_id branch <> id) /\
     Workflow.__get_branches_by_action_id self' id = [] /\
     S (length (Workflow_actions self')) = length (Workflow_actions self) /\
     (forall action, In action (Workflow_actions self') ->
                     In action (Workflow_actions self)) /\
     (forall id', id' <> id ->
        Workflow.get_action_by_id self' id' = Workflow.get_action_by_id self id') /\
     (NoDup (List.map Action_id (Workflow_actions self)) ->
      Workflow.get_action_by_id self' id = None) /\
     Workflow_start self' = Workflow_start self).
Proof.
  split.
  - rewrite <- get_action_by_id_None_iff. unfold Workflow.remove_action.
    destruct (Workflow.get_action_by_id self id); split; congruence.
  - intros self' Hrem.
    destruct (remove_action_Some self self' id Hrem)
      as (Hin & Hactions & Hbranches & Hstart).
    split; [exact Hbranches | ].
    split.
    { unfold Workflow.__get_branches_by_action_id.
      destruct (List.filter _ (Workflow_branches self')) as [ | b l] eqn:E;
        [reflexivity | ].
      assert (Hb : In b (b :: l)) by (left; reflexivity).
      rewrite <- E in Hb. apply filter_In in Hb. destruct Hb as [Hb1 Hb2].
      apply Hbranches in Hb1. apply N.eqb_eq in Hb2. tauto. }
    rewrite Hactions.
    split; [apply remove_first_length, Hin | ].
    split; [intros action; apply remove_first_In | ].
    split.
    { intros id' Hne. unfold Workflow.get_action_by_id. rewrite Hactions.
      apply remove_first_find_other, Hne. }
    split; [ | exact Hstart].
    intros Hnd. apply get_action_by_id_None_iff. rewrite Hactions.
    apply remove_first_unique, Hnd.
Qed.

(** X7 at the second action of [two_actions]: its only branch goes with
    it. *)
Lemma remove_action_removes_action_and_branches_witness :
  exists self',
    Workflow.remove_action two_actions 2 = Some self' /\
    Workflow_branches self' = [] /\
    Workflow.get_action_by_id self' 2 = None.
Proof.
  eexists. split; [reflexivity | ]. split; [reflexivity | ].
  refine (proj1 (proj2 (proj2 (proj2 (proj2 (proj2
            (proj2 (remove_action_removes_action_and_branches two_actions 2)
               _ eq_refl)))))) _).
  repeat constructor; rewrite ?list_elem_of_In; simpl; intuition discriminate.
Defined.

(** X8.  A workflow in which [validate] finds no error stays so when an
    action other than its start is removed.  When the start itself is
    removed and other actions remain, [validate] finds an error: the start
    is left pointing at the removed action. *)
Theorem remove_action_and_validate (UUID_str : UUID -> string)
    (self self' : Workflow) (id : UUID) :
  Workflow.remove_action self id = Some self' ->
  (Workflow.validate UUID_str self = [] ->
   Workflow_start self <> Some id ->
   Workflow.validate UUID_str self' = []) /\
  (Workflow_start self = Some id ->
   NoDup (List.map Action_id (Workflow_actions self)) ->
   Workflow_actions self' <> [] ->
   Workflow.validate UUID_str self' <> []).
Proof.
  intros Hrem.
  destruct (remove_action_Some self self' id Hrem)
    as (_ & Hactions & Hbr & Hstart).
  split.
  - intros Hvalid Hnot. apply validate_nil_iff in Hvalid.
    destruct Hvalid as [Hs Hb].
    apply validate_nil_iff. rewrite Hstart, Hactions. split.
    + destruct Hs as [Hnil | (start & Hst & Hin)].
      * left. rewrite Hnil. reflexivity.
      * right. exists start. split; [exact Hst | ].
        apply remove_first_keeps_other_ids; [congruence | exact Hin].
    + intros branch Hbranch. apply Hbr in Hbranch.
      destruct Hbranch as (Hin & Hsrc & Hdst).
      destruct (Hb branch Hin) as [H1 H2].
      split; apply remove_first_keeps_other_ids; assumption.
  - intros Hst Hnd Hne Hvalid. apply validate_nil_iff in Hvalid.
    destruct Hvalid as [[Hnil | (start & Hst' & Hin)] _]; [contradiction | ].
    rewrite Hstart, Hst in Hst'. injection Hst' as <-.
    rewrite Hactions in Hin. exact (remove_first_unique id _ Hnd Hin).
Qed.

(** X8 at [two_actions] without its second action. *)
Lemma remove_action_and_validate_witness :
  exists self',
    Workflow.remove_action two_actions 2 = Some self' /\
    Workflow.validate sample_str self' = [].
Proof.
  eexists. split; [reflexivity | ].
  apply (proj1 (remove_action_and_validate sample_str two_actions _ 2 eq_refl)).
  - reflexivity.
  - discriminate.
Defined.

(** ** workflow.py: runs that do not get to a result *)

Section DegenerateRuns.
Variable validator : Validator.
Variable strategy : ActionExecutionStrategy.
Variable UUID_str : UUID -> string.
Variable self : Workflow.

Lemma first_executable_None_iff (start : UUID) :
  Workflow.first_executable self start = None <->
  ~ In start (List.map Action_id (nodes self)).
Proof.
  unfold Workflow.first_executable, nodes. rewrite map_app, in_app_iff.
  pose proof (get_action_by_id_None_iff self start) as Ha.
  assert (Hc : Workflow.get_child_workflow_by_id self start = None <->
               ~ In start (List.map Action_id (Workflow_child_workflows self))).
  { unfold Workflow.get_child_workflow_by_id. split.
    - intros H Hin. apply in_map_iff in Hin. destruct Hin as (a & Hid & Hin).
      apply (find_none _ _ H) in Hin. rewrite Hid, N.eqb_refl in Hin. discriminate.
    - intros H. destruct (List.find _ _) as [a | ] eqn:E; [ | reflexivity].
      apply find_some in E. destruct E as [Hin Heq]. apply N.eqb_eq in Heq.
      exfalso. apply H. rewrite <- Heq. apply in_map, Hin. }
  destruct (Workflow.get_action_by_id self start) as [a | ].
  - split; [discriminate | ]. intros H. exfalso. apply H. left.
    destruct (in_dec N.eq_dec start (List.map Action_id (Workflow_actions self)))
      as [Hin | Hnot]; [exact Hin | ].
    apply Ha in Hnot. discriminate.
  - rewrite Hc. assert (Hn := proj1 Ha eq_refl). tauto.
Qed.

(** X9.  When the start is the id of no action and no child workflow of a
    valid workflow, [execute] completes at once, with any fuel: it returns
    [None] and sends [WorkflowExecutionStart] and [WorkflowShutdown] with
    the snapshot of the accumulator as it was.  No node is executed and
    the flags are not looked at: a pause or an abort that is pending stays
    pending. *)
Theorem unknown_start_completes_at_once (fuel : nat) (execution_id : string)
    (start : option UUID) (start_arguments : option (list Argument))
    (resume : bool) (st : State) (s : UUID) (repo : list UUID) :
  Workflow_is_valid self = true ->
  match start with Some s => Some s | None => Workflow_start self end = Some s ->
  ~ In s (List.map Action_id (nodes self)) ->
  _instance_repo st = Some repo ->
  exists st',
    Workflow.execute validator strategy UUID_str self fuel execution_id start
      start_arguments resume st = Return VNone st' /\
    signals st'
    = signals st ++
      [mkSignal (Workflow_id self) WorkflowExecutionStart None;
       mkSignal (Workflow_id self) WorkflowShutdown
         (Some (Workflow.snapshot UUID_str (_accumulator st)))] /\
    _accumulator st' = _accumulator st /\
    _is_paused st' = _is_paused st /\
    _abort st' = _abort st /\
    _executing_action st' = _executing_action st /\
    _instance_repo st' = Some [].
Proof.
  intros Hvalid Hstart Hnone Hrepo.
  apply first_executable_None_iff in Hnone.
  rewrite (execute_valid validator strategy UUID_str self fuel execution_id start
             start_arguments resume st s Hvalid Hstart).
  unfold Workflow.__execute_next. rewrite Hnone.
  assert (Hloop : forall locals st0,
            Workflow.loop validator strategy UUID_str self fuel None locals st0
            = Workflow.after_loop UUID_str self locals st0)
    by (intros; destruct fuel; reflexivity).
  rewrite Hloop. unfold Workflow.after_loop, Workflow.__shutdown. simpl.
  rewrite Hrepo. simpl. eexists. split; [reflexivity | ]. simpl.
  rewrite <- app_assoc. repeat split; reflexivity.
Qed.


(** X11.  A node that reports the status ["trigger"] suspends the run at
    that node: the loop yields ['Triggered'], sends nothing, and the
    output of the node is not recorded, so the accumulator is as it was
    before the node.  At the first node of a run, [execute] returns
    ['Triggered'] after [WorkflowExecutionStart] alone. *)
Theorem triggered_node_is_not_recorded (fuel : nat) (action : Action)
    (locals : Locals) (st : State) (repo : list UUID)
    (result output : ActionResult) :
  _is_paused st = false ->
  _abort st = false ->
  _instance_repo st = Some repo ->
  Action_execute action (_accumulator st) (start_arguments locals) (resume locals)
    (fst (setup_app_instance repo action)) = (Some result, output) ->
  ActionResult_status result = "trigger" ->
  (exists frame st',
     Workflow.loop validator strategy UUID_str self (S fuel) (Some action) locals st
     = Yielded (VStr "Triggered") frame st' /\
     signals st' = signals st /\
     _accumulator st' = _accumulator st /\
     _executing_action st' = Some (Action_id action)) /\
  (forall execution_id start s,
     Workflow_is_valid self = true ->
     match start with Some s => Some s | None => Workflow_start self end = Some s ->
     Workflow.first_executable self s = Some action ->
     exists st',
       Workflow.execute validator strategy UUID_str self (S fuel) execution_id
         start (start_arguments locals) (resume locals) st
       = Return (VStr "Triggered") st' /\
       signals st'
       = signals st ++ [mkSignal (Workflow_id self) WorkflowExecutionStart None] /\
       _accumulator st' = _accumulator st).
Proof.
  intros Hp Ha Hrepo Hcall Htrigger.
  assert (Hgen : forall st0 last,
            _is_paused st0 = false -> _abort st0 = false ->
            _instance_repo st0 = Some repo ->
            _accumulator st0 = _accumulator st ->
            exists frame st',
              Workflow.loop validator strategy UUID_str self (S fuel) (Some action)
                (mkLocals (start_arguments locals) (resume locals) last) st0
              = Yielded (VStr "Triggered") frame st' /\
              signals st' = signals st0 /\
              _accumulator st' = _accumulator st0 /\
              _executing_action st' = Some (Action_id action)).
  { intros st0 last Hp0 Ha0 Hrepo0 Hacc0. simpl.
    unfold Workflow.body. simpl. rewrite Hp0.
    unfold Workflow.check_abort. simpl. rewrite Ha0.
    unfold Workflow.invoke. simpl. rewrite Hrepo0.
    destruct (setup_app_instance repo action) as [device_id repo'] eqn:Hsetup.
    simpl in Hcall. simpl. rewrite Hacc0, Hcall. rewrite Htrigger. simpl.
    eexists _, _. split; [reflexivity | ].
    repeat split; try reflexivity. simpl. exact Hacc0. }
  split.
  - destruct locals as [args res last]. apply Hgen; auto.
  - intros execution_id start s Hvalid Hstart Hfirst.
    rewrite (execute_valid validator strategy UUID_str self (S fuel) execution_id
               start (start_arguments locals) (resume locals) st s Hvalid Hstart).
    unfold Workflow.__execute_next. rewrite Hfirst.
    destruct (Hgen (emit [mkSignal (Workflow_id self) WorkflowExecutionStart None]
                      (set_execution_id execution_id st)) VNone)
      as (frame & st' & Hloop & Hsig & Hacc & _); auto.
    rewrite Hloop. exists st'. split; [reflexivity | ].
    split; [rewrite Hsig; reflexivity | rewrite Hacc; reflexivity].
Qed.
End DegenerateRuns.

(** X9 at [two_actions] started at an id it does not have. *)
Lemma unknown_start_completes_at_once_witness :
  exists st',
    Workflow.execute accept_all (constant_strategy VNone) sample_str two_actions 0
      "e1" (Some 9%N) None false (loaded true true) = Return VNone st' /\
    signals st'
    = [mkSignal 100%N WorkflowExecutionStart None;
       mkSignal 100%N WorkflowShutdown
         (Some (Workflow.snapshot sample_str (branch_counters
                                                (Workflow_branches two_actions))))] /\
    _is_paused st' = true /\ _abort st' = true.
Proof.
  destruct (unknown_start_completes_at_once accept_all (constant_strategy VNone)
              sample_str two_actions 0 "e1" (Some 9%N) None false (loaded true true)
              9%N [] eq_refl eq_refl
              ltac:(simpl; intros [H | [H | []]]; discriminate) eq_refl)
    as (st' & Hrun & Hsig & _ & Hp & Ha & _).
  exists st'. repeat split; assumption.
Defined.


(** X11 at [awaiting_trigger]. *)
Lemma triggered_node_is_not_recorded_witness :
  exists st',
    Workflow.execute accept_all (constant_strategy VNone) sample_str awaiting_trigger
      1 "e1" None None false (Workflow.init_on_load awaiting_trigger)
    = Return (VStr "Triggered") st' /\
    _accumulator st' = ∅.
Proof.
  destruct (proj2 (triggered_node_is_not_recorded accept_all (constant_strategy VNone)
                     sample_str awaiting_trigger 0 (trigger_action 1)
                     (mkLocals None false VNone)
                     (Workflow.init_on_load awaiting_trigger) []
                     (mkActionResult VNone "trigger") (mkActionResult VNone "trigger")
                     eq_refl eq_refl eq_refl eq_refl eq_refl)
             "e1" None 1%N eq_refl eq_refl eq_refl)
    as (st' & Hrun & _ & Hacc).
  exists st'. split; assumption.
Defined.

(** ** workflow.py: pausing and resuming *)

Section PauseAndResume.
Variable validator : Validator.
Variable strategy : ActionExecutionStrategy.
Variable UUID_str : UUID -> string.
Variable self : Workflow.

Lemma first_executable_id (start : UUID) (action : Action) :
  Workflow.first_executable self start = Some action -> Action_id action = start.
Proof.
  unfold Workflow.first_executable, Workflow.get_action_by_id,
    Workflow.get_child_workflow_by_id.
  destruct (List.find _ (Workflow_actions self)) as [a | ] eqn:Ha.
  - intros [= <-]. apply find_some in Ha. apply N.eqb_eq, Ha.
  - intros H. apply find_some in H. apply N.eqb_eq, H.
Qed.

(** X12.  With both flags set, the call of [execute] that pauses consumes
    the pause only.  The abort is still pending in the state it leaves:
    the next call, from the checkpoint, returns ['Aborted'] without
    executing the node, and only then are both flags clear. *)
Theorem pending_abort_survives_pause (fuel fuel' : nat)
    (execution_id execution_id' : string) (start : option UUID)
    (start_arguments start_arguments' : option (list Argument))
    (resume resume' : bool) (st : State) (s : UUID) (action : Action) :
  Workflow_is_valid self = true ->
  match start with Some s => Some s | None => Workflow_start self end = Some s ->
  Workflow.first_executable self s = Some action ->
  _is_paused st = true ->
  _abort st = true ->
  exists st1 st2,
    Workflow.execute validator strategy UUID_str self (S fuel) execution_id start
      start_arguments resume st = Return (VStr "Paused") st1 /\
    Workflow.get_executing_action_id st1 = inr (Action_id action) /\
    Workflow.execute validator strategy UUID_str self (S fuel') execution_id'
      (Some (Action_id action)) start_arguments' resume' st1
    = Return (VStr "Aborted") st2 /\
    _is_paused st2 = false /\ _abort st2 = false /\
    _accumulator st2 = _accumulator st /\
    signals st2
    = signals st ++
      [mkSignal (Workflow_id self) WorkflowExecutionStart None;
       mkSignal (Workflow_id self) WorkflowPaused None;
       mkSignal (Workflow_id self) WorkflowExecutionStart None;
       mkSignal (Workflow_id self) WorkflowAborted None].
Proof.
  intros Hvalid Hstart Hfirst Hp Ha.
  pose proof (first_executable_id s action Hfirst) as Hid.
  eexists _, _. split.
  { rewrite (execute_valid validator strategy UUID_str self (S fuel) execution_id
               start start_arguments resume st s Hvalid Hstart).
    unfold Workflow.__execute_next. rewrite Hfirst.
    rewrite loop_paused by exact Hp. reflexivity. }
  split; [reflexivity | ].
  split.
  { rewrite (execute_valid validator strategy UUID_str self (S fuel') execution_id'
               (Some (Action_id action)) start_arguments' resume' _ s Hvalid)
      by (rewrite Hid; reflexivity).
    unfold Workflow.__execute_next. rewrite Hfirst.
    rewrite loop_aborted by (simpl; auto). reflexivity. }
  simpl. rewrite <- !app_assoc. repeat split; reflexivity.
Qed.

(** Running with signals in front of the log: the run is the same and the
    signals stay in front. *)
Lemma emit_prefix_log (p l : list Signal) (st : State) :
  emit l (prefix_log p st) = prefix_log p (emit l st).
Proof. unfold emit, prefix_log. simpl. rewrite app_assoc. reflexivity. Qed.

Lemma after_loop_prefix (p : list Signal) (locals : Locals) (st : State) :
  Workflow.after_loop UUID_str self locals (prefix_log p st)
  = prefix_next p (Workflow.after_loop UUID_str self locals st).
Proof.
  unfold Workflow.after_loop, Workflow.__shutdown. simpl.
  destruct (_instance_repo st); simpl; [ | reflexivity].
  f_equal. unfold emit, prefix_log. simpl. rewrite app_assoc. reflexivity.
Qed.

Lemma next_executable_after_prefix (p : list Signal) (action : Action)
    (output : ActionResult) (st : State) :
  Workflow.next_executable_after validator strategy self action output
    (prefix_log p st)
  = (fst (Workflow.next_executable_after validator strategy self action output st),
     prefix_log p
       (snd (Workflow.next_executable_after validator strategy self action output
               st))).
Proof.
  unfold Workflow.next_executable_after. simpl.
  destruct (Workflow.get_branch validator strategy self action output
              (_accumulator st)) as [[next_id next_type] sent].
  rewrite emit_prefix_log.
  destruct next_id as [id | ]; [ | reflexivity].
  destruct (bool_decide (next_type = Some "action")); reflexivity.
Qed.

Section BodyPrefix.
Variable p : list Signal.
Variable loop : option Action -> Locals -> State -> Next.
Hypothesis loop_prefix :
  forall next locals st,
    loop next locals (prefix_log p st) = prefix_next p (loop next locals st).

Lemma record_result_prefix (action : Action) (output : ActionResult)
    (locals : Locals) (st : State) :
  Workflow.record_result validator strategy self loop action output locals
    (prefix_log p st)
  = prefix_next p
      (Workflow.record_result validator strategy self loop action output locals st).
Proof.
  unfold Workflow.record_result.
  change (set_accumulator
            (<[Action_id action := ActionResult_result output]>
               (_accumulator (prefix_log p st))) (prefix_log p st))
    with (prefix_log p
            (set_accumulator
               (<[Action_id action := ActionResult_result output]> (_accumulator st))
               st)).
  rewrite next_executable_after_prefix.
  destruct (Workflow.next_executable_after validator strategy self action output _)
    as [next st1].
  simpl. apply loop_prefix.
Qed.

Lemma body_prefix (action : Action) (locals : Locals) (st : State) :
  Workflow.body validator strategy self loop action locals (prefix_log p st)
  = prefix_next p (Workflow.body validator strategy self loop action locals st).
Proof.
  unfold Workflow.body. simpl.
  destruct (_is_paused st).
  { simpl. f_equal. unfold emit, prefix_log. simpl. rewrite app_assoc.
    reflexivity. }
  unfold Workflow.check_abort. simpl.
  destruct (_abort st).
  { simpl. f_equal. unfold emit, prefix_log. simpl. rewrite app_assoc.
    reflexivity. }
  unfold Workflow.invoke. simpl.
  destruct (_instance_repo st) as [repo | ]; [ | reflexivity].
  destruct (setup_app_instance repo action) as [device_id repo'].
  simpl.
  destruct (Action_execute action (_accumulator st) (start_arguments locals)
              (resume locals) device_id) as [result output].
  destruct result as [r | ].
  - destruct (bool_decide (ActionResult_status r = "trigger")); [reflexivity | ].
    apply (record_result_prefix action output _
             (set_instance_repo (Some repo')
                (set_executing_action (Some (Action_id action)) st))).
  - apply (record_result_prefix action output _
             (set_instance_repo (Some repo')
                (set_executing_action (Some (Action_id action)) st))).
Qed.
End BodyPrefix.

Lemma loop_prefix (p : list Signal) (fuel : nat) :
  forall (next : option Action) (locals : Locals) (st : State),
    Workflow.loop validator strategy UUID_str self fuel next locals (prefix_log p st)
    = prefix_next p
        (Workflow.loop validator strategy UUID_str self fuel next locals st).
Proof.
  induction fuel as [ | fuel IH]; intros next locals st.
  - destruct next; simpl; [reflexivity | apply after_loop_prefix].
  - destruct next as [action | ]; simpl; [ | apply after_loop_prefix].
    apply body_prefix. exact IH.
Qed.

Lemma body_forgets_executing_action
    (loop : option Action -> Locals -> State -> Next) (action : Action)
    (locals : Locals) (st : State) (x : option UUID) :
  Workflow.body validator strategy self loop action locals
    (set_executing_action x st)
  = Workflow.body validator strategy self loop action locals st.
Proof. reflexivity. Qed.

(** X13.  A pause leaves no trace but its signals.  After [execute] has
    returned ['Paused'], the executing action is the node that has not
    run; a call of [execute] from that checkpoint gives the same outcome
    (the value returned or the exception, and the state it leaves) as the
    call would have given without the pause, up to the signals
    [WorkflowPaused] and [WorkflowExecutionStart] that the pause and the
    new call have put in the log. *)
Theorem pause_and_resume_is_transparent (fuel fuel' : nat)
    (execution_id execution_id' : string) (start : option UUID)
    (start_arguments start_arguments' : option (list Argument))
    (resume resume' : bool) (st : State) (s : UUID) (action : Action) :
  Workflow_is_valid self = true ->
  match start with Some s => Some s | None => Workflow_start self end = Some s ->
  Workflow.first_executable self s = Some action ->
  _is_paused st = true ->
  exists st1,
    Workflow.execute validator strategy UUID_str self (S fuel) execution_id start
      start_arguments resume st = Return (VStr "Paused") st1 /\
    Workflow.get_executing_action_id st1 = inr (Action_id action) /\
    exists o,
      Workflow.execute validator strategy UUID_str self fuel' execution_id'
        (Some (Action_id action)) start_arguments' resume' st1
      = prefix_outcome
          (signals st ++
           [mkSignal (Workflow_id self) WorkflowExecutionStart None;
            mkSignal (Workflow_id self) WorkflowPaused None;
            mkSignal (Workflow_id self) WorkflowExecutionStart None]) o /\
      Workflow.execute validator strategy UUID_str self fuel' execution_id' start
        start_arguments' resume' (set_is_paused false st)
      = prefix_outcome
          (signals st ++ [mkSignal (Workflow_id self) WorkflowExecutionStart None]) o.
Proof.
  intros Hvalid Hstart Hfirst Hp.
  pose proof (first_executable_id s action Hfirst) as Hid.
  eexists. split.
  { rewrite (execute_valid validator strategy UUID_str self (S fuel) execution_id
               start start_arguments resume st s Hvalid Hstart).
    unfold Workflow.__execute_next. rewrite Hfirst.
    rewrite loop_paused by exact Hp. reflexivity. }
  split; [reflexivity | ].
  set (locals := mkLocals start_arguments' resume' VNone).
  set (core := clear_log (set_execution_id execution_id' (set_is_paused false st))).
  exists (match Workflow.loop validator strategy UUID_str self fuel' (Some action)
                  locals core with
          | Yielded v _ st' => Return v st'
          | Raised e st' => Raise e st'
          | OutOfFuel => Diverge
          end).
  assert (Hforget : forall x,
            Workflow.loop validator strategy UUID_str self fuel' (Some action) locals
              (set_executing_action x core)
            = Workflow.loop validator strategy UUID_str self fuel' (Some action)
                locals core).
  { intros x. destruct fuel'; [reflexivity | ]. simpl.
    apply body_forgets_executing_action. }
  split.
  - rewrite (execute_valid validator strategy UUID_str self fuel' execution_id'
               (Some (Action_id action)) start_arguments' resume' _ s Hvalid)
      by (rewrite Hid; reflexivity).
    unfold Workflow.__execute_next. rewrite Hfirst. fold locals.
    match goal with
    | |- context [Workflow.loop _ _ _ _ _ _ _ ?t] =>
        replace t
          with (prefix_log
                  (signals st ++
                   [mkSignal (Workflow_id self) WorkflowExecutionStart None;
                    mkSignal (Workflow_id self) WorkflowPaused None;
                    mkSignal (Workflow_id self) WorkflowExecutionStart None])
                  (set_executing_action (Some (Action_id action)) core))
    end.
    2:{ unfold prefix_log, emit, core, clear_log. simpl.
        rewrite app_nil_r, <- !app_assoc. reflexivity. }
    rewrite loop_prefix, Hforget.
    destruct (Workflow.loop validator strategy UUID_str self fuel' (Some action)
                locals core); reflexivity.
  - rewrite (execute_valid validator strategy UUID_str self fuel' execution_id'
               start start_arguments' resume' _ s Hvalid Hstart).
    unfold Workflow.__execute_next. rewrite Hfirst. fold locals.
    match goal with
    | |- context [Workflow.loop _ _ _ _ _ _ _ ?t] =>
        replace t
          with (prefix_log
                  (signals st ++
                   [mkSignal (Workflow_id self) WorkflowExecutionStart None])
                  (set_executing_action (_executing_action st) core))
    end.
    2:{ unfold prefix_log, emit, core, clear_log. simpl.
        rewrite app_nil_r. reflexivity. }
    rewrite loop_prefix, Hforget.
    destruct (Workflow.loop validator strategy UUID_str self fuel' (Some action)
                locals core); reflexivity.
Qed.
End PauseAndResume.

(** X12 at [two_actions] with both flags set. *)
Lemma pending_abort_survives_pause_witness :
  exists st1 st2,
    Workflow.execute accept_all (constant_strategy VNone) sample_str two_actions 1
      "e1" None None false (loaded true true) = Return (VStr "Paused") st1 /\
    Workflow.execute accept_all (constant_strategy VNone) sample_str two_actions 1
      "e1" (Some 1%N) None true st1 = Return (VStr "Aborted") st2 /\
    _is_paused st2 = false /\ _abort st2 = false.
Proof.
  destruct (pending_abort_survives_pause accept_all (constant_strategy VNone)
              sample_str two_actions 0 0 "e1" "e1" None None None false true
              (loaded true true) 1%N (constant_action 1 (VStr "hello"))
              eq_refl eq_refl eq_refl eq_refl eq_refl)
    as (st1 & st2 & H1 & _ & H2 & Hp & Ha & _).
  exists st1, st2. repeat split; assumption.
Defined.

(** X13 at [two_actions] with the pause flag set. *)
Lemma pause_and_resume_is_transparent_witness :
  exists st1 o,
    Workflow.execute accept_all (constant_strategy VNone) sample_str two_actions 1
      "e1" None None false (loaded true false) = Return (VStr "Paused") st1 /\
    Workflow.execute accept_all (constant_strategy VNone) sample_str two_actions 3
      "e1" (Some 1%N) None true st1
    = prefix_outcome
        [mkSignal 100%N WorkflowExecutionStart None;
         mkSignal 100%N WorkflowPaused None;
         mkSignal 100%N WorkflowExecutionStart None] o /\
    Workflow.execute accept_all (constant_strategy VNone) sample_str two_actions 3
      "e1" None None true (loaded false false)
    = prefix_outcome [mkSignal 100%N WorkflowExecutionStart None] o.
Proof.
  destruct (pause_and_resume_is_transparent accept_all (constant_strategy VNone)
              sample_str two_actions 0 3 "e1" "e1" None None None false true
              (loaded true false) 1%N (constant_action 1 (VStr "hello"))
              eq_refl eq_refl eq_refl eq_refl)
    as (st1 & H1 & _ & o & H2 & H3).
  exists st1, o. repeat split; assumption.
Defined.

(** ** zmq_receivers.py: the loop over time *)

Section ReceiverOverTime.
Variable to_event_callback :
  list Byte.byte ->
  Exception + (option WalkoffEvent * option (gmap string value) * value).

(** The receive loop carries nothing but its fields from one iteration to
    the next: going through [env1] and then, if the loop is still polling,
    through [env2] is going through [env1 ++ env2]. *)
Lemma receive_results_app (env1 env2 : list Tick)
    (self : ZmqWorkflowResultsReceiver.t) :
  ZmqWorkflowResultsReceiver.receive_results to_event_callback (env1 ++ env2) self
  = match ZmqWorkflowResultsReceiver.receive_results to_event_callback env1 self with
    | (Polling, self1) =>
        ZmqWorkflowResultsReceiver.receive_results to_event_callback env2 self1
    | stopped => stopped
    end.
Proof.
  revert self. induction env1 as [ | tick env1 IH]; intros self; simpl.
  - reflexivity.
  - destruct (ZmqWorkflowResultsReceiver.thread_exit
                (if exit_requested tick
                 then ZmqWorkflowResultsReceiver.set_thread_exit self else self));
      [reflexivity | ].
    destruct (poll tick); [apply IH | ].
    destruct (ZmqWorkflowResultsReceiver._send_callback _ _ _);
      [reflexivity | apply IH].
Qed.

(** X14.  When an exit is requested, the loop returns at its next
    iteration and closes the socket.  The message waiting at that
    iteration and all later ones are not received: what has been
    republished and counted is what the iterations before had.  The one
    way not to get there is an exception of the converter at an earlier
    message, which has left the loop then. *)
Theorem receive_loop_returns_on_exit (env1 env2 : list Tick) (tick : Tick)
    (self : ZmqWorkflowResultsReceiver.t) :
  ZmqWorkflowResultsReceiver.thread_exit self = false ->
  Forall (fun t => exit_requested t = false) env1 ->
  exit_requested tick = true ->
  let converted := fst (until_raise to_event_callback (messages env1)) in
  let raised := snd (until_raise to_event_callback (messages env1)) in
  let received := omap (received_event to_event_callback) converted in
  let workflows_executed :=
    (ZmqWorkflowResultsReceiver.workflows_executed self
     + Z.of_nat (length (List.filter ends_execution received)))%Z in
  let republished := ZmqWorkflowResultsReceiver.republished self ++ received in
  ZmqWorkflowResultsReceiver.receive_results to_event_callback
    (env1 ++ tick :: env2) self
  = match raised with
    | None =>
        (Returned,
         ZmqWorkflowResultsReceiver.mk true workflows_executed republished true)
    | Some e =>
        (Propagated e,
         ZmqWorkflowResultsReceiver.mk false workflows_executed republished
           (ZmqWorkflowResultsReceiver.socket_closed self))
    end.
Proof.
  intros Hexit Henv Htick converted raised received workflows_executed republished.
  rewrite receive_results_app.
  rewrite (receive_results_polling to_event_callback env1 self Hexit Henv).
  fold converted raised received workflows_executed republished.
  destruct raised; [reflexivity | ]. simpl. rewrite Htick. reflexivity.
Qed.

(** X15.  Whatever the environment does, the count of executed workflows
    never decreases and grows by at most one for each message, and what
    has been republished stays, in order, in front of what is republished
    later. *)
Theorem receive_results_only_adds (env : list Tick)
    (self : ZmqWorkflowResultsReceiver.t) :
  let after :=
    snd (ZmqWorkflowResultsReceiver.receive_results to_event_callback env self) in
  (ZmqWorkflowResultsReceiver.workflows_executed self
   <= ZmqWorkflowResultsReceiver.workflows_executed after
   <= ZmqWorkflowResultsReceiver.workflows_executed self
      + Z.of_nat (length (messages env)))%Z /\
  exists later,
    ZmqWorkflowResultsReceiver.republished after
    = ZmqWorkflowResultsReceiver.republished self ++ later /\
    (length later <= length (messages env))%nat.
Proof.
  revert self. induction env as [ | tick env IH]; intros self; simpl.
  - split; [lia | exists []; rewrite app_nil_r; split; [reflexivity | simpl; lia]].
  - destruct (ZmqWorkflowResultsReceiver.thread_exit
                (if exit_requested tick
                 then ZmqWorkflowResultsReceiver.set_thread_exit self else self))
      eqn:Hexit.
    + simpl. split.
      * destruct (exit_requested tick); simpl; lia.
      * exists []. rewrite app_nil_r.
        split; [destruct (exit_requested tick); reflexivity | simpl; lia].
    + assert (Hself : (if exit_requested tick
                       then ZmqWorkflowResultsReceiver.set_thread_exit self
                       else self) = self).
      { destruct (exit_requested tick); [discriminate | reflexivity]. }
      rewrite Hself. unfold messages. simpl. fold (messages env).
      destruct (poll tick) as [ | message_bytes].
      * apply IH.
      * destruct (ZmqWorkflowResultsReceiver._send_callback to_event_callback
                    self message_bytes) as [e | self1] eqn:Hsend.
        -- simpl. split; [lia | ]. exists []. rewrite app_nil_r.
           split; [reflexivity | simpl; lia].
        -- destruct (IH self1) as [Hcount (later & Hrep & Hlen)].
           rewrite send_callback_eq in Hsend.
           destruct (to_event_callback message_bytes); [discriminate | ].
           injection Hsend as <-.
           destruct (received_event to_event_callback message_bytes)
             as [received | ]; simpl in *.
           ++ split.
              ** destruct (ends_execution received); lia.
              ** exists (received :: later). rewrite Hrep, <- app_assoc.
                 split; [reflexivity | simpl; lia].
           ++ split; [lia | ]. exists later. split; [exact Hrep | lia].
Qed.
End ReceiverOverTime.

(** X14 on three iterations: a shutdown event, the exit, an aborted event
    that is never received. *)
Lemma receive_loop_returns_on_exit_witness :
  ZmqWorkflowResultsReceiver.receive_results sample_converter
    [mkTick false (Received [Byte.x01]);
     mkTick true (Received [Byte.x02]);
     mkTick false (Received [Byte.x02])]
    ZmqWorkflowResultsReceiver.__init__
  = (Returned,
     ZmqWorkflowResultsReceiver.mk true 1 [(WorkflowShutdown, ∅, VNone)] true).
Proof.
  apply (receive_loop_returns_on_exit sample_converter
           [mkTick false (Received [Byte.x01])]
           [mkTick false (Received [Byte.x02])]
           (mkTick true (Received [Byte.x02]))
           ZmqWorkflowResultsReceiver.__init__ eq_refl
           ltac:(repeat constructor) eq_refl).
Defined.

(** ** multiprocessedexecutor.py: the commands on an execution *)

(** X16.  [pause_workflow] and [get_workflow_status] agree: the pause is
    accepted exactly when the status is [running]; it is then forwarded
    once to the load balancer, and otherwise nothing is forwarded.  Both
    raise [AttributeError] for an execution id without a status row, so
    [get_workflow_status] never gives its 0.  The status rows are not
    written: pausing does not itself mark the execution paused. *)
Theorem pause_workflow_agrees_with_status (self : MultiprocessedExecutor.t)
    (execution_id : string) :
  match MultiprocessedExecutor.pause_workflow self execution_id with
  | MultiprocessedExecutor.Returns b self' =>
      (exists status,
         MultiprocessedExecutor.get_workflow_status self execution_id = inr status /\
         (b = true <-> status = running)) /\
      MultiprocessedExecutor.workflow_statuses self'
      = MultiprocessedExecutor.workflow_statuses self /\
      MultiprocessedExecutor.manager_paused self'
      = MultiprocessedExecutor.manager_paused self ++
        (if b then [execution_id] else [])
  | MultiprocessedExecutor.Raises e self' =>
      self' = self /\
      (exists msg, e = AttributeError msg) /\
      (exists msg,
         MultiprocessedExecutor.get_workflow_status self execution_id
         = inl (AttributeError msg)) /\
      forall row, In row (MultiprocessedExecutor.workflow_statuses self) ->
                  WorkflowStatus_execution_id row <> execution_id
  end.
Proof.
  unfold MultiprocessedExecutor.pause_workflow,
    MultiprocessedExecutor.get_workflow_status.
  destruct (MultiprocessedExecutor.query_first self execution_id) as [row | ] eqn:Hq;
    simpl.
  - destruct (bool_decide (WorkflowStatus_status row = running)) eqn:Hb.
    + apply bool_decide_eq_true in Hb. simpl.
      split; [exists (WorkflowStatus_status row); split; [reflexivity | tauto] | ].
      split; reflexivity.
    + apply bool_decide_eq_false in Hb.
      split; [exists (WorkflowStatus_status row); split;
                [reflexivity | split; [discriminate | contradiction]] | ].
      split; [reflexivity | rewrite app_nil_r; reflexivity].
  - split; [reflexivity | ]. split; [eexists; reflexivity | ].
    split; [eexists; reflexivity | ].
    intros row Hin Heq. unfold MultiprocessedExecutor.query_first in Hq.
    apply (find_none _ _ Hq) in Hin. apply String.eqb_neq in Hin. contradiction.
Qed.

Lemma query_first_unique (self : MultiprocessedExecutor.t) (row : WorkflowStatus) :
  NoDup (List.map WorkflowStatus_execution_id
           (MultiprocessedExecutor.workflow_statuses self)) ->
  In row (MultiprocessedExecutor.workflow_statuses self) ->
  MultiprocessedExecutor.query_first self (WorkflowStatus_execution_id row)
  = Some row.
Proof.
  unfold MultiprocessedExecutor.query_first.
  induction (MultiprocessedExecutor.workflow_statuses self) as [ | r l IH]; simpl.
  - intros _ [].
  - intros Hnd Hin. apply NoDup_cons in Hnd. destruct Hnd as [Hnotin Hnd].
    destruct Hin as [-> | Hin].
    + rewrite String.eqb_refl. reflexivity.
    + destruct (String.eqb_spec (WorkflowStatus_execution_id r)
                  (WorkflowStatus_execution_id row)) as [Heq | Hne].
      * exfalso. apply Hnotin. rewrite Heq. apply list_elem_of_In.
        apply in_map, Hin.
      * apply IH; assumption.
Qed.

(** X17.  With one status row for each execution id, the executions that
    [get_waiting_workflows] lists are exactly those whose status is
    [awaiting_data], and none of them can be paused: [pause_workflow]
    returns [False] for each and forwards nothing. *)
Theorem waiting_workflows_cannot_be_paused (self : MultiprocessedExecutor.t)
    (execution_id : string) :
  NoDup (List.map WorkflowStatus_execution_id
           (MultiprocessedExecutor.workflow_statuses self)) ->
  (In execution_id (MultiprocessedExecutor.get_waiting_workflows self) <->
   MultiprocessedExecutor.get_workflow_status self execution_id = inr awaiting_data) /\
  (In execution_id (MultiprocessedExecutor.get_waiting_workflows self) ->
   MultiprocessedExecutor.pause_workflow self execution_id
   = MultiprocessedExecutor.Returns false self).
Proof.
  intros Hnd.
  assert (Hiff : In execution_id (MultiprocessedExecutor.get_waiting_workflows self) <->
                 exists row,
                   MultiprocessedExecutor.query_first self execution_id = Some row /\
                   WorkflowStatus_status row = awaiting_data).
  { unfold MultiprocessedExecutor.get_waiting_workflows. rewrite in_map_iff. split.
    - intros (row & Hid & Hin). apply filter_In in Hin. destruct Hin as [Hin Hst].
      apply bool_decide_eq_true in Hst. exists row. split; [ | exact Hst].
      rewrite <- Hid. apply query_first_unique; assumption.
    - intros (row & Hq & Hst). exists row.
      unfold MultiprocessedExecutor.query_first in Hq. apply find_some in Hq.
      destruct Hq as [Hin Heq]. apply String.eqb_eq in Heq.
      split; [exact Heq | ]. apply filter_In. split; [exact Hin | ].
      apply bool_decide_eq_true. exact Hst. }
  split.
  - rewrite Hiff. unfold MultiprocessedExecutor.get_workflow_status. split.
    + intros (row & -> & ->). reflexivity.
    + destruct (MultiprocessedExecutor.query_first self execution_id) as [row | ];
        [ | discriminate].
      intros [= H]. exists row. split; [reflexivity | exact H].
  - intros Hin. apply Hiff in Hin. destruct Hin as (row & Hq & Hst).
    rewrite (pause_workflow_with_status self execution_id row Hq), Hst.
    reflexivity.
Qed.

(** X17 at the sample executor: the third execution waits. *)
Lemma waiting_workflows_cannot_be_paused_witness :
  MultiprocessedExecutor.pause_workflow sample_executor "e3"
  = MultiprocessedExecutor.Returns false sample_executor.
Proof.
  apply (proj2 (waiting_workflows_cannot_be_paused sample_executor "e3"
                  ltac:(repeat constructor; rewrite ?list_elem_of_In; simpl;
                        intuition discriminate))).
  simpl. tauto.
Defined.

(** X18.  When [resume_workflow] returns [True], the status of the
    execution is [paused] and its workflow and checkpoint have been found.
    The workflow is then handed to the load balancer once, under the same
    execution id (no new id is drawn), to start at the checkpoint, with the
    resume flag set and no start arguments.  When it returns [False] the
    status is not [paused] and nothing is sent or handed over; when it
    raises nothing is handed over. *)
Theorem resume_workflow_resubmits_at_checkpoint (self : MultiprocessedExecutor.t)
    (saved_workflows : list MultiprocessedExecutor.SavedWorkflow)
    (workflows : list Workflow) (uuid4 execution_id : string)
    (out : MultiprocessedExecutor.Outbox) :
  match MultiprocessedExecutor.resume_workflow self saved_workflows workflows uuid4
          execution_id out with
  | MultiprocessedExecutor.ResumeReturns true out' =>
      exists row workflow saved,
        MultiprocessedExecutor.query_first self execution_id = Some row /\
        WorkflowStatus_status row = paused /\
        In workflow workflows /\
        Workflow_id workflow = WorkflowStatus_workflow_id row /\
        In saved saved_workflows /\
        MultiprocessedExecutor.SavedWorkflow_workflow_execution_id saved
        = execution_id /\
        MultiprocessedExecutor.outbox_added out'
        = MultiprocessedExecutor.outbox_added out ++
          [MultiprocessedExecutor.mkAddWorkflow (Workflow_id workflow) execution_id
             (Some (MultiprocessedExecutor.SavedWorkflow_action_id saved)) None true] /\
        MultiprocessedExecutor.outbox_events out'
        = MultiprocessedExecutor.outbox_events out ++
          [MultiprocessedExecutor.WorkflowResumed (Workflow_id workflow);
           MultiprocessedExecutor.WorkflowExecutionPending (Workflow_id workflow);
           MultiprocessedExecutor.SchedulerJobExecuted]
  | MultiprocessedExecutor.ResumeReturns false out' =>
      out' = out /\
      exists row,
        MultiprocessedExecutor.query_first self execution_id = Some row /\
        WorkflowStatus_status row <> paused
  | MultiprocessedExecutor.ResumeRaises e out' =>
      MultiprocessedExecutor.outbox_added out'
      = MultiprocessedExecutor.outbox_added out /\
      exists msg, e = AttributeError msg
  end.
Proof.
  unfold MultiprocessedExecutor.resume_workflow.
  destruct (MultiprocessedExecutor.query_first self execution_id) as [row | ] eqn:Hq;
    simpl; [ | split; [reflexivity | eexists; reflexivity]].
  destruct (bool_decide (WorkflowStatus_status row = paused)) eqn:Hb.
  2:{ apply bool_decide_eq_false in Hb. split; [reflexivity | ].
      exists row. split; [reflexivity | exact Hb]. }
  apply bool_decide_eq_true in Hb.
  destruct (List.find _ workflows) as [workflow | ] eqn:Hw;
    [ | split; [reflexivity | eexists; reflexivity]].
  destruct (List.find _ saved_workflows) as [saved | ] eqn:Hs;
    [ | split; [reflexivity | eexists; reflexivity]].
  apply find_some in Hw. destruct Hw as [Hw1 Hw2]. apply N.eqb_eq in Hw2.
  apply find_some in Hs. destruct Hs as [Hs1 Hs2]. apply String.eqb_eq in Hs2.
  simpl. exists row, workflow, saved.
  repeat split; try assumption; try reflexivity.
  rewrite <- !app_assoc. reflexivity.
Qed.

(** X19.  No execution can be both paused and resumed on the same status
    rows: when [pause_workflow] returns [True], [resume_workflow] returns
    [False] and hands nothing over. *)
Theorem paused_and_resumed_are_exclusive (self self' : MultiprocessedExecutor.t)
    (saved_workflows : list MultiprocessedExecutor.SavedWorkflow)
    (workflows : list Workflow) (uuid4 execution_id : string)
    (out : MultiprocessedExecutor.Outbox) :
  MultiprocessedExecutor.pause_workflow self execution_id
  = MultiprocessedExecutor.Returns true self' ->
  MultiprocessedExecutor.resume_workflow self' saved_workflows workflows uuid4
    execution_id out
  = MultiprocessedExecutor.ResumeReturns false out.
Proof.
  unfold MultiprocessedExecutor.pause_workflow,
    MultiprocessedExecutor.resume_workflow.
  destruct (MultiprocessedExecutor.query_first self execution_id) as [row | ] eqn:Hq;
    simpl; [ | discriminate].
  destruct (bool_decide (WorkflowStatus_status row = running)) eqn:Hb;
    [ | discriminate].
  apply bool_decide_eq_true in Hb. intros [= <-].
  unfold MultiprocessedExecutor.query_first in *. simpl. rewrite Hq. simpl.
  rewrite Hb. reflexivity.
Qed.

(** X19 at the sample executor: the first execution runs. *)
Lemma paused_and_resumed_are_exclusive_witness :
  MultiprocessedExecutor.resume_workflow
    (MultiprocessedExecutor.manager_pause_workflow sample_executor "e1")
    [MultiprocessedExecutor.mkSavedWorkflow "e1" 1%N] [two_actions] "fresh" "e1"
    (MultiprocessedExecutor.mkOutbox [] [])
  = MultiprocessedExecutor.ResumeReturns false (MultiprocessedExecutor.mkOutbox [] []).
Proof.
  apply (paused_and_resumed_are_exclusive sample_executor
           (MultiprocessedExecutor.manager_pause_workflow sample_executor "e1")
           [MultiprocessedExecutor.mkSavedWorkflow "e1" 1%N] [two_actions] "fresh"
           "e1" (MultiprocessedExecutor.mkOutbox [] []) eq_refl).
Defined.

(** ** apiutil.py: reading the API of an app from the cache *)

Lemma json_truthy_dict (d : gmap string json) (key : string) (v : json) :
  d !! key = Some v -> json_truthy (JDict d) = true.
Proof.
  intros H. simpl. apply negb_true_iff, bool_decide_eq_false.
  intros ->. rewrite lookup_empty in H. discriminate.
Qed.

Ltac case_subscripts :=
  repeat match goal with
         | |- context [match getitem ?j ?k with _ => _ end] =>
             let E := fresh "E" in destruct (getitem j k) eqn:E
         | |- context [match get_default ?j ?k ?d with _ => _ end] =>
             let E := fresh "E" in destruct (get_default j k d) eqn:E
         | |- context [match contains ?j ?k with _ => _ end] =>
             let E := fresh "E" in destruct (contains j k) as [[ | ] | ] eqn:E
         end.

Lemma getitem_Value (j : json) (key : string) (v : json) :
  getitem j key = Value v <-> exists d, j = JDict d /\ d !! key = Some v.
Proof.
  split.
  - destruct j; try discriminate. simpl.
    destruct (d !! key) as [x | ] eqn:E; [ | discriminate].
    intros [= <-]. exists d. split; [reflexivity | exact E].
  - intros (d & -> & H). simpl. rewrite H. reflexivity.
Qed.

Section CacheProperties.
Variable redis_cache : gmap string json.

(** X20.  [get_condition_api] returns exactly when the entry of the app is
    a dict whose ["conditions"] is a dict that has the condition as a dict
    with a ["run"] and a ["data_in"]; it returns the data parameter, the
    function and the parameters, which are the empty list when none are
    declared.  [get_transform_api] does the same under ["transforms"]. *)
Theorem get_condition_api_returns_iff (app name : string)
    (data_in run parameters : json) :
  (apiutil.get_condition_api redis_cache app name = inr (data_in, run, parameters) <->
   exists app_api conditions condition_api,
     redis_cache !! app = Some (JDict app_api) /\
     app_api !! "conditions" = Some (JDict conditions) /\
     conditions !! name = Some (JDict condition_api) /\
     condition_api !! "run" = Some run /\
     condition_api !! "data_in" = Some data_in /\
     parameters = default (JList []) (condition_api !! "parameters")) /\
  (apiutil.get_transform_api redis_cache app name = inr (data_in, run, parameters) <->
   exists app_api transforms transform_api,
     redis_cache !! app = Some (JDict app_api) /\
     app_api !! "transforms" = Some (JDict transforms) /\
     transforms !! name = Some (JDict transform_api) /\
     transform_api !! "run" = Some run /\
     transform_api !! "data_in" = Some data_in /\
     parameters = default (JList []) (transform_api !! "parameters")).
Proof.
  split.
  - unfold apiutil.get_condition_api, apiutil.load_app_api, apiutil.subscript.
    split.
    + destruct (redis_cache !! app) as [app_api | ]; [ | discriminate].
      destruct (json_truthy app_api); [ | discriminate].
      case_subscripts; try discriminate.
      intros [= <- <- <-].
      apply getitem_Value in E, E0, E1, E2.
      destruct E as (d & -> & Hd), E0 as (d0 & -> & Hd0),
        E1 as (d1 & -> & Hd1), E2 as (d2 & [= <-] & Hd2).
      simpl in E3. injection E3 as <-.
      exists d, d0, d1. repeat split; assumption.
    + intros (a & c & ca & Hcache & Hc & Hn & Hrun & Hdata & ->).
      rewrite Hcache, (json_truthy_dict _ _ _ Hc). simpl.
      rewrite Hc. simpl. rewrite Hn. simpl. rewrite Hrun, Hdata.
      destruct (ca !! "parameters"); reflexivity.
  - unfold apiutil.get_transform_api, apiutil.load_app_api, apiutil.subscript.
    split.
    + destruct (redis_cache !! app) as [app_api | ]; [ | discriminate].
      destruct (json_truthy app_api); [ | discriminate].
      case_subscripts; try discriminate.
      intros [= <- <- <-].
      apply getitem_Value in E, E0, E1, E2.
      destruct E as (d & -> & Hd), E0 as (d0 & -> & Hd0),
        E1 as (d1 & -> & Hd1), E2 as (d2 & [= <-] & Hd2).
      simpl in E3. injection E3 as <-.
      exists d, d0, d1. repeat split; assumption.
    + intros (a & c & ca & Hcache & Hc & Hn & Hrun & Hdata & ->).
      rewrite Hcache, (json_truthy_dict _ _ _ Hc). simpl.
      rewrite Hc. simpl. rewrite Hn. simpl. rewrite Hrun, Hdata.
      destruct (ca !! "parameters"); reflexivity.
Qed.

Lemma app_level_outcome {A : Type} (app : string) (K : json -> ApiException + A) :
  (forall j a, K j <> inl (UnknownApp a)) ->
  let result :=
    match apiutil.load_app_api redis_cache app with
    | inl e => inl e
    | inr app_api => K app_api
    end in
  (redis_cache !! app = None -> result = inl ApiTypeError) /\
  (forall a,
     result = inl (UnknownApp a) <->
     a = app /\ exists j, redis_cache !! app = Some j /\ json_truthy j = false).
Proof.
  intros HK result. subst result. unfold apiutil.load_app_api. split.
  - intros ->. reflexivity.
  - intros a. destruct (redis_cache !! app) as [j | ].
    + destruct (json_truthy j) eqn:Hj.
      * split; [intros H; exfalso; exact (HK j a H) | ].
        intros (_ & j' & [= <-] & Hf). congruence.
      * split.
        -- intros [= <-]. split; [reflexivity | exists j; split; [reflexivity | exact Hj]].
        -- intros (-> & _). reflexivity.
    + split; [discriminate | intros (_ & j & H & _); discriminate].
Qed.

(** X21.  In every getter, [UnknownApp] is raised exactly for an app whose
    entry in the cache is empty (null, an empty dict, ...).  For an app
    that has no entry at all the getters raise [TypeError]: [hget] gives
    [None], which [json.loads] does not accept, and only [KeyError] is
    caught. *)
Theorem unknown_app_means_empty_entry (app name : string) :
  let outcome {A : Type} (result : ApiException + A) : Prop :=
    (redis_cache !! app = None -> result = inl ApiTypeError) /\
    (forall a,
       result = inl (UnknownApp a) <->
       a = app /\ exists j, redis_cache !! app = Some j /\ json_truthy j = false) in
  outcome (apiutil.get_app_action_api redis_cache app name) /\
  outcome (apiutil.get_app_action_default_return redis_cache app name) /\
  outcome (apiutil.get_app_device_api redis_cache app name) /\
  outcome (apiutil.get_condition_api redis_cache app name) /\
  outcome (apiutil.get_transform_api redis_cache app name).
Proof.
  intros outcome. subst outcome. cbv beta.
  refine (conj _ (conj _ (conj _ (conj _ _))));
    unfold apiutil.get_app_action_api, apiutil.get_app_action_default_return,
      apiutil.get_app_device_api, apiutil.get_condition_api,
      apiutil.get_transform_api;
    refine (app_level_outcome app _ _);
    intros j a; unfold apiutil.subscript; case_subscripts;
    try discriminate;
    match goal with
    | E : get_default ?v _ _ = inl _ |- _ => destruct v; simpl in E; congruence
    end.
Qed.

(** X22.  What an action API leaves out has a default: the parameters are
    the empty list, the default return is ['Success'], and a declared
    return is a failure only when it says so.  The status
    ['UnhandledException'] is a failure for every app and action, in the
    cache or not. *)
Theorem action_api_defaults (app action : string) :
  (forall status,
     status = "UnhandledException" ->
     apiutil.get_app_action_return_is_failure redis_cache app action status
     = inr (JBool true)) /\
  (forall app_api actions action_api,
     redis_cache !! app = Some (JDict app_api) ->
     app_api !! "actions" = Some (JDict actions) ->
     actions !! action = Some (JDict action_api) ->
     apiutil.get_app_action_default_return redis_cache app action
     = inr (default (JStr "Success") (action_api !! "default_return")) /\
     (forall run,
        action_api !! "run" = Some run ->
        apiutil.get_app_action_api redis_cache app action
        = inr (run, default (JList []) (action_api !! "parameters"))) /\
     (action_api !! "run" = None ->
      apiutil.get_app_action_api redis_cache app action
      = inl (UnknownAppAction app action)) /\
     (forall status returns return_api,
        status <> "UnhandledException" ->
        action_api !! "returns" = Some (JDict returns) ->
        returns !! status = Some (JDict return_api) ->
        apiutil.get_app_action_return_is_failure redis_cache app action status
        = inr (default (JBool false) (return_api !! "failure"))) /\
     (forall status returns,
        status <> "UnhandledException" ->
        action_api !! "returns" = Some (JDict returns) ->
        returns !! status = None ->
        apiutil.get_app_action_return_is_failure redis_cache app action status
        = inl (UnknownAppAction app action))).
Proof.
  split.
  - intros status ->. reflexivity.
  - intros app_api actions action_api Hcache Hactions Haction.
    pose proof (json_truthy_dict _ _ _ Hactions) as Htruthy.
    unfold apiutil.get_app_action_default_return, apiutil.get_app_action_api,
      apiutil.get_app_action_return_is_failure, apiutil.load_app_api,
      apiutil.subscript.
    rewrite Hcache, Htruthy. simpl. rewrite Hactions. simpl. rewrite Haction.
    simpl. repeat split.
    + destruct (action_api !! "default_return") as [r | ] eqn:E.
      * rewrite bool_decide_eq_true_2 by (eexists; reflexivity). reflexivity.
      * rewrite bool_decide_eq_false_2 by (intros [x Hx]; discriminate).
        reflexivity.
    + intros run Hrun. rewrite Hrun. destruct (action_api !! "parameters"); reflexivity.
    + intros Hrun. rewrite Hrun. reflexivity.
    + intros status returns return_api Hne Hreturns Hstatus.
      apply String.eqb_neq in Hne. rewrite Hne, Hreturns. simpl.
      rewrite Hstatus. simpl.
      destruct (return_api !! "failure") as [f | ] eqn:E.
      * rewrite bool_decide_eq_true_2 by (eexists; reflexivity). reflexivity.
      * rewrite bool_decide_eq_false_2 by (intros [x Hx]; discriminate).
        reflexivity.
    + intros status returns Hne Hreturns Hstatus.
      apply String.eqb_neq in Hne. rewrite Hne, Hreturns. simpl.
      rewrite Hstatus. reflexivity.
Qed.
End CacheProperties.

(** X20 at the sample cache. *)
Lemma get_condition_api_returns_iff_witness :
  apiutil.get_condition_api sample_cache "HelloWorld" "regMatch"
  = inr (JStr "value", JStr "conditions.regMatch", JList []).
Proof.
  apply (proj1 (get_condition_api_returns_iff sample_cache "HelloWorld" "regMatch"
                  (JStr "value") (JStr "conditions.regMatch") (JList []))).
  eexists _, _, regMatch_api. repeat split; vm_compute; reflexivity.
Defined.

(** X21 at the sample cache: the empty entry and the missing one. *)
Lemma unknown_app_means_empty_entry_witness :
  apiutil.get_app_action_api sample_cache "Empty" "pause" = inl (UnknownApp "Empty") /\
  apiutil.get_app_action_api sample_cache "Missing" "pause" = inl ApiTypeError.
Proof.
  split.
  - apply (proj2 (proj1 (unknown_app_means_empty_entry sample_cache "Empty" "pause"))).
    split; [reflexivity | ]. exists (JDict ∅). split; vm_compute; reflexivity.
  - apply (proj1 (proj1 (unknown_app_means_empty_entry sample_cache "Missing" "pause"))).
    vm_compute. reflexivity.
Defined.

(** X22 at the action of the sample cache. *)
Lemma action_api_defaults_witness :
  apiutil.get_app_action_default_return sample_cache "HelloWorld" "pause"
  = inr (JStr "Success") /\
  apiutil.get_app_action_api sample_cache "HelloWorld" "pause"
  = inr (JStr "main.Main.pause", JList []) /\
  apiutil.get_app_action_return_is_failure sample_cache "HelloWorld" "pause" "Success"
  = inr (JBool false) /\
  apiutil.get_app_action_return_is_failure sample_cache "HelloWorld" "pause" "Failure"
  = inr (JBool true).
Proof.
  destruct (proj2 (action_api_defaults sample_cache "HelloWorld" "pause")
              _ _ pause_api
              ltac:(vm_compute; reflexivity) ltac:(vm_compute; reflexivity)
              ltac:(vm_compute; reflexivity))
    as (Hdefault & Hrun & _ & Hfailure & _).
  split; [exact Hdefault | ].
  split; [exact (Hrun (JStr "main.Main.pause") ltac:(vm_compute; reflexivity)) | ].
  split.
  - exact (Hfailure "Success" _ (∅ : gmap string json) ltac:(discriminate)
             ltac:(vm_compute; reflexivity) ltac:(vm_compute; reflexivity)).
  - exact (Hfailure "Failure" _ ({[ "failure" := JBool true ]} : gmap string json)
             ltac:(discriminate)
             ltac:(vm_compute; reflexivity) ltac:(vm_compute; reflexivity)).
Defined.
